(** * Bug-Tracker server: access control, issue keys, comment threads

    A shallow embedding of the Express/Mongoose server of the bug tracker
    (rbac.js, issueLoader.js, commentLoader.js, projectController.js,
    commentController.js, issueModel.js, commentModel.js, projectModel.js and
    the route tables) together with the properties of its specification and
    further properties of the controllers and routes.

    Conventions of the embedding
    - A MongoDB collection is a finite map from [ObjectId] to documents.
    - A handler is a function [Req -> Store -> Store * Result Req]: it either
      calls [next()] with the (possibly extended) request, sends a response,
      or forwards an exception with [next(err)].
    - JavaScript strings are ASCII [string]s; JSON request fields that the
      controllers treat as strings are [option string] ([None] is
      [undefined]/[null]; for the controllers that test a field with
      [=== undefined], [None] is the absent field).
    - Numbers are exact integers ([N] for the issue counter, [Z] elsewhere);
      the counters of the program stay far below 2^53.
    - [verifyJWT] lives outside the modelled files: a request arrives with
      [req.user.id] already filled in from the verified token.
    - The clock and the generator of fresh [_id]s are inputs of the handlers
      that create documents ([now], [newId]).
    - Fields of the schemas that no modelled controller reads (labels,
      watchers, attachments, status history, [updatedAt], ...) are left out.

    Behaviour of the collaborators that the embedding relies on
    - ObjectIds: parsing a 24-digit hexadecimal string accepts both letter
      cases, rendering an ObjectId gives lower case.
    - Mongoose runs the [pre("validate")] hooks of a schema before its
      built-in validators, and both before the insert; update operators
      ([$inc], [$addToSet], [$pull]) bypass the validators, [save()] and
      [findByIdAndUpdate] with [runValidators] do not.
    - MongoDB refuses an update document in which two operators write the
      same path; [limit(0)] means "no limit" and [limit(-n)] means one batch
      of [n] documents; each single operation on one document is atomic. *)

From Stdlib Require Import ZArith NArith Lia Ascii String Decimal DecimalString DecimalN.
From stdpp Require Import base option list gmap strings sorting.

Local Open Scope string_scope.
Local Open Scope list_scope.
Local Open Scope Z_scope.

(** ** JavaScript string helpers *)

Module Js.

(** Code points removed by [String.prototype.trim] (ASCII range). *)
Definition is_ws (a : ascii) : bool :=
  let n := nat_of_ascii a in
  ((9 <=? n) && (n <=? 13))%nat || (n =? 32)%nat.

Fixpoint trim_start (l : list ascii) : list ascii :=
  match l with
  | a :: r => if is_ws a then trim_start r else l
  | [] => []
  end.

Definition trim_list (l : list ascii) : list ascii :=
  rev (trim_start (rev (trim_start l))).

(** [s.trim()] *)
Definition trim (s : string) : string :=
  string_of_list_ascii (trim_list (list_ascii_of_string s)).

(** Truthiness of a string-or-undefined value: [undefined], [null] and [""]
    are falsy. *)
Definition truthy (o : option string) : bool :=
  match o with
  | Some s => negb (String.eqb s "")
  | None => false
  end.

(** [!v?.trim()] *)
Definition blank (o : option string) : bool :=
  negb (truthy (trim <$> o)).

Definition is_digit (a : ascii) : bool :=
  let n := nat_of_ascii a in ((48 <=? n) && (n <=? 57))%nat.

Definition is_upper (a : ascii) : bool :=
  let n := nat_of_ascii a in ((65 <=? n) && (n <=? 90))%nat.

Definition is_lower (a : ascii) : bool :=
  let n := nat_of_ascii a in ((97 <=? n) && (n <=? 122))%nat.

Definition to_lower (a : ascii) : ascii :=
  if is_upper a then ascii_of_nat (nat_of_ascii a + 32) else a.

Definition to_upper (a : ascii) : ascii :=
  if is_lower a then ascii_of_nat (nat_of_ascii a - 32) else a.

Definition map_string (f : ascii -> ascii) (s : string) : string :=
  string_of_list_ascii (f <$> list_ascii_of_string s).

(** [s.toUpperCase()] *)
Definition toUpperCase : string -> string := map_string to_upper.

(** Value of a run of decimal digits, most significant first. *)
Fixpoint digits_value (acc : Z) (l : list ascii) : Z :=
  match l with
  | a :: r =>
      if is_digit a
      then digits_value (10 * acc + Z.of_nat (nat_of_ascii a - 48)) r
      else acc
  | [] => acc
  end.

(** [parseInt(s, 10)]; [None] is [NaN].  Leading white space is skipped, an
    optional sign is read, then the longest prefix of decimal digits. *)
Definition parseInt (s : string) : option Z :=
  let l := trim_start (list_ascii_of_string s) in
  let '(neg, l) :=
    match l with
    | a :: r =>
        if Ascii.eqb a "-" then (true, r)
        else if Ascii.eqb a "+" then (false, r) else (false, l)
    | [] => (false, l)
    end in
  match l with
  | a :: _ =>
      if is_digit a
      then Some (let v := digits_value 0 l in if neg then - v else v)
      else None
  | [] => None
  end.

(** [v || dflt] on a query-string parameter. *)
Definition or_default (o : option string) (dflt : string) : string :=
  if truthy o then default dflt o else dflt.

(** Template-literal rendering of a non-negative integer. *)
Definition show_N (n : N) : string :=
  NilEmpty.string_of_uint (N.to_uint n).

Fixpoint uniq_from (seen : list string) (l : list string) : list string :=
  match l with
  | x :: r =>
      if bool_decide (x ∈ seen) then uniq_from seen r
      else x :: uniq_from (x :: seen) r
  | [] => []
  end.

(** [Array.from(new Set(l))]: first occurrences, in insertion order. *)
Definition set_array (l : list string) : list string := uniq_from [] l.

End Js.

(** ** ObjectIds

    An [ObjectId] is twelve bytes; it is represented by its canonical
    rendering, the 24 lower-case hexadecimal digits that [String(id)] and
    [id.toHexString()] produce.  Parsing a hexadecimal string
    ([ObjectId.createFromHexString], Mongoose casting) accepts both letter
    cases. *)

Record ObjectId := Oid { hex : string }.

#[global] Instance ObjectId_eq_dec : EqDecision ObjectId.
Proof. solve_decision. Defined.

#[global] Instance ObjectId_countable : Countable ObjectId :=
  inj_countable' hex Oid (fun o => match o with Oid _ => eq_refl end).

Definition is_hex (a : ascii) : bool :=
  let n := nat_of_ascii a in
  Js.is_digit a || ((65 <=? n) && (n <=? 70))%nat || ((97 <=? n) && (n <=? 102))%nat.

(** [mongoose.Types.ObjectId.isValid(s)] on a string. *)
Definition isValidId (s : string) : bool :=
  (String.length s =? 24)%nat && forallb is_hex (list_ascii_of_string s).

(** [ObjectId.createFromHexString(s)] for a string that passed [isValidId]. *)
Definition createFromHexString (s : string) : ObjectId :=
  Oid (Js.map_string Js.to_lower s).

(** Mongoose casting of a string to an ObjectId; [None] is a [CastError]. *)
Definition castObjectId (s : string) : option ObjectId :=
  if isValidId s then Some (createFromHexString s) else None.

(** [String(id)] *)
Definition String_ (o : ObjectId) : string := hex o.

(** ** Documents *)

Inductive Role := admin | manager | developer.

#[global] Instance Role_eq_dec : EqDecision Role.
Proof. solve_decision. Defined.

Record User := mkUser {
  user_id : ObjectId;
  role : Role;
  isActive : bool
}.

Record Project := mkProject {
  project_id : ObjectId;
  project_key : string;
  name : string;
  description : string;
  leadUserId : ObjectId;
  members : list ObjectId;
  nextIssueSeq : N
}.

Record Issue := mkIssue {
  issue_id : ObjectId;
  projectId : ObjectId;
  issue_key : option string;
  title : string;
  reporterId : ObjectId;
  commentCount : Z
}.

Record Comment := mkComment {
  comment_id : ObjectId;
  issueId : ObjectId;
  authorId : ObjectId;
  body : string;
  parentId : option ObjectId;
  ancestors : list ObjectId;
  edited : bool;
  deleted : bool;
  createdAt : Z
}.

#[global] Instance User_eq_dec : EqDecision User.
Proof. solve_decision. Defined.
#[global] Instance Project_eq_dec : EqDecision Project.
Proof. solve_decision. Defined.
#[global] Instance Issue_eq_dec : EqDecision Issue.
Proof. solve_decision. Defined.
#[global] Instance Comment_eq_dec : EqDecision Comment.
Proof. solve_decision. Defined.

(** The database: one finite map per collection. *)
Record Store := mkStore {
  users : gmap ObjectId User;
  projects : gmap ObjectId Project;
  issues : gmap ObjectId Issue;
  comments : gmap ObjectId Comment
}.

Definition set_projects (f : gmap ObjectId Project -> gmap ObjectId Project)
    (st : Store) : Store :=
  mkStore (users st) (f (projects st)) (issues st) (comments st).

Definition set_issues (f : gmap ObjectId Issue -> gmap ObjectId Issue)
    (st : Store) : Store :=
  mkStore (users st) (projects st) (f (issues st)) (comments st).

Definition set_comments (f : gmap ObjectId Comment -> gmap ObjectId Comment)
    (st : Store) : Store :=
  mkStore (users st) (projects st) (issues st) (f (comments st)).

(** ** Requests, responses and the middleware pipeline *)

(** Exceptions that reach [next(err)]. *)
Inductive Exn :=
| ValidationError (path : string)
| DuplicateKey (index : string)
| MongoServerError (msg : string)
| TypeError (msg : string)
| Error_ (msg : string).

(** JSON payloads of the responses. *)
Inductive Json :=
| JError (error : string)
| JProject (p : option Project)
| JComment (c : Comment)
| JComments (cs : list Comment) (skip limit : Z)
| JReplies (cs : list Comment)
| JEmpty.

Inductive Result (A : Type) :=
| Next (a : A)
| Send (status : nat) (payload : Json)
| Throw (e : Exn).

Arguments Next {A} a.
Arguments Send {A} status payload.
Arguments Throw {A} e.

(** [req.body]: every field a controller destructures. *)
Record ReqBody := mkReqBody {
  rb_key : option string;
  rb_name : option string;
  rb_description : option string;
  rb_leadUserId : option string;
  rb_members : list string;
  rb_add : list (option string);
  rb_remove : list (option string);
  rb_body : option string;
  rb_parentId : option string
}.

Definition emptyBody : ReqBody :=
  mkReqBody None None None None [] [] [] None None.

Record Req := mkReq {
  user : option string;          (* req.user?.id *)
  params_id : string;            (* req.params.id *)
  query_limit : option string;   (* req.query.limit *)
  query_skip : option string;    (* req.query.skip *)
  rbody : ReqBody;               (* req.body || {} *)
  authUser : option User;        (* req.authUser *)
  project : option Project;      (* req.project *)
  issue : option Issue;          (* req.issue *)
  comment : option Comment       (* req.comment *)
}.

Definition set_authUser (u : User) (r : Req) : Req :=
  mkReq (user r) (params_id r) (query_limit r) (query_skip r) (rbody r)
        (Some u) (project r) (issue r) (comment r).

Definition set_project (p : Project) (r : Req) : Req :=
  mkReq (user r) (params_id r) (query_limit r) (query_skip r) (rbody r)
        (authUser r) (Some p) (issue r) (comment r).

Definition set_issue (i : Issue) (r : Req) : Req :=
  mkReq (user r) (params_id r) (query_limit r) (query_skip r) (rbody r)
        (authUser r) (project r) (Some i) (comment r).

Definition set_comment (c : Comment) (r : Req) : Req :=
  mkReq (user r) (params_id r) (query_limit r) (query_skip r) (rbody r)
        (authUser r) (project r) (issue r) (Some c).

Definition Handler : Type := Req -> Store -> Store * Result Req.

(** [router.METHOD(path, h1, ..., hn)]: the handlers run in order, each one
    only if its predecessor called [next()]. *)
Fixpoint chain (hs : list Handler) (req : Req) (st : Store)
    : Store * Result Req :=
  match hs with
  | [] => (st, Next req)
  | h :: hs' =>
      match h req st with
      | (st', Next req') => chain hs' req' st'
      | r => r
      end
  end.

(** [Model.findById(s)] with a string argument. *)
Definition findById {A} (m : gmap ObjectId A) (s : string) : option A :=
  castObjectId s ≫= fun o => m !! o.

(** ** server/middleware/rbac.js *)

Definition loadCurrentUser : Handler := fun req st =>
  match user req with
  | Some userId =>
      if negb (Js.truthy (Some userId)) || negb (isValidId userId)
      then (st, Send 401 (JError "Invalid user token."))
      else
        match findById (users st) userId with
        | Some u =>
            if isActive u then (st, Next (set_authUser u req))
            else (st, Send 403 (JError "User not active or not found."))
        | None => (st, Send 403 (JError "User not active or not found."))
        end
  | None => (st, Send 401 (JError "Invalid user token."))
  end.

Definition requireRole (roles : list Role) : Handler := fun req st =>
  match authUser req with
  | None => (st, Send 401 (JError "Auth context missing."))
  | Some u =>
      if bool_decide (role u ∈ roles) then (st, Next req)
      else (st, Send 403 (JError "Insufficient permissions."))
  end.

Definition loadProject : Handler := fun req st =>
  if negb (isValidId (params_id req))
  then (st, Send 400 (JError "Invalid project id."))
  else
    match findById (projects st) (params_id req) with
    | None => (st, Send 404 (JError "Project not found."))
    | Some p => (st, Next (set_project p req))
    end.

Definition isAdmin (u : User) : bool := bool_decide (role u = admin).

Definition isLead (u : User) (p : Project) : bool :=
  String.eqb (String_ (leadUserId p)) (String_ (user_id u)).

Definition isMember (u : User) (p : Project) : bool :=
  existsb (fun m => String.eqb (String_ m) (String_ (user_id u))) (members p).

Definition requireProjectMemberOrAdmin : Handler := fun req st =>
  match authUser req, project req with
  | Some u, Some p =>
      if negb (isAdmin u || isLead u p || isMember u p)
      then (st, Send 403 (JError "Project access denied."))
      else (st, Next req)
  | _, _ => (st, Send 500 (JError "Auth or project context missing."))
  end.

Definition requireProjectLeadOrAdmin : Handler := fun req st =>
  match authUser req, project req with
  | Some u, Some p =>
      if negb (isAdmin u || isLead u p)
      then (st, Send 403 (JError "Lead or admin role required."))
      else (st, Next req)
  | _, _ => (st, Send 500 (JError "Auth or project context missing."))
  end.

(** ** server/middleware/issueLoader.js and commentLoader.js *)

Definition loadIssue : Handler := fun req st =>
  if negb (isValidId (params_id req))
  then (st, Send 400 (JError "Invalid issue id."))
  else
    match findById (issues st) (params_id req) with
    | None => (st, Send 404 (JError "Issue not found."))
    | Some i =>
        match projects st !! projectId i with
        | None => (st, Send 404 (JError "Project not found."))
        | Some p => (st, Next (set_project p (set_issue i req)))
        end
    end.

Definition loadComment : Handler := fun req st =>
  if negb (isValidId (params_id req))
  then (st, Send 400 (JError "Invalid comment id."))
  else
    match findById (comments st) (params_id req) with
    | None => (st, Send 404 (JError "Comment not found."))
    | Some c =>
        match issues st !! issueId c with
        | None => (st, Send 404 (JError "Issue not found for comment."))
        | Some i =>
            match projects st !! projectId i with
            | None => (st, Send 404 (JError "Project not found for comment."))
            | Some p =>
                (st, Next (set_project p (set_issue i (set_comment c req))))
            end
        end
    end.

(** ** Store primitives (MongoDB operators used by the controllers) *)

(** [Model.countDocuments({ _id: { $in: ids } })]: the number of documents
    whose [_id] is one of [ids]. *)
Definition countDocuments_in {A} (m : gmap ObjectId A) (ids : list ObjectId)
    : nat :=
  size (filter (fun kv : ObjectId * A => kv.1 ∈ ids) m).

(** [{ $addToSet: { members: { $each: xs } } }] *)
Definition addToSet (xs : list ObjectId) (l : list ObjectId) : list ObjectId :=
  foldl (fun acc x => if bool_decide (x ∈ acc) then acc else acc ++ [x]) l xs.

(** [{ $pull: { members: { $in: xs } } }] *)
Definition pull (xs : list ObjectId) (l : list ObjectId) : list ObjectId :=
  filter (fun m => m ∉ xs) l.

Definition with_members (ms : list ObjectId) (p : Project) : Project :=
  mkProject (project_id p) (project_key p) (name p) (description p)
            (leadUserId p) ms (nextIssueSeq p).

Definition with_nextIssueSeq (n : N) (p : Project) : Project :=
  mkProject (project_id p) (project_key p) (name p) (description p)
            (leadUserId p) (members p) n.

Definition with_commentCount (n : Z) (i : Issue) : Issue :=
  mkIssue (issue_id i) (projectId i) (issue_key i) (title i) (reporterId i) n.

Definition with_issue_key (k : option string) (i : Issue) : Issue :=
  mkIssue (issue_id i) (projectId i) k (title i) (reporterId i)
          (commentCount i).

(** [Issue.updateOne({ _id }, { $inc: { commentCount: d } })]; update
    operators do not run the schema's [min] validator. *)
Definition inc_commentCount (iid : ObjectId) (d : Z) (st : Store) : Store :=
  set_issues (alter (fun i => with_commentCount (commentCount i + d) i) iid) st.

(** ** server/models/projectModel.js *)

(** [/^[A-Z0-9]{2,10}$/.test(k)] *)
Definition key_format (k : string) : bool :=
  let l := list_ascii_of_string k in
  (2 <=? length l)%nat && (length l <=? 10)%nat
  && forallb (fun a => Js.is_upper a || Js.is_digit a) l.

(** Validators of [ProjectSchema] on the fields a write supplies (the setters
    [trim] and [uppercase] have already been applied). *)
Definition valid_project_key (k : string) : bool :=
  (2 <=? String.length k)%nat && (String.length k <=? 10)%nat
  && forallb (fun a => Js.is_upper a || Js.is_digit a) (list_ascii_of_string k).

Definition valid_project_name (n : string) : bool :=
  (3 <=? String.length n)%nat && (String.length n <=? 140)%nat.

Definition valid_project_description (d : string) : bool :=
  (String.length d <=? 2000)%nat.

(** [Project.exists({ key })], also the test of the unique index on [key]. *)
Definition project_key_exists (m : gmap ObjectId Project) (k : string) : bool :=
  existsb (fun kv : ObjectId * Project => String.eqb (project_key kv.2) k)
          (map_to_list m).

(** [Project.create({ key, name, description, leadUserId, members,
    nextIssueSeq: 1 })] with [newId] the generated [_id]. *)
Definition Project_create (newId : ObjectId) (k n d : string)
    (lead : string) (mems : list string) (st : Store) : Store * (Exn + Project) :=
  match castObjectId lead, mapM castObjectId mems with
  | Some leadId, Some memIds =>
      let p := mkProject newId (Js.toUpperCase (Js.trim k)) (Js.trim n)
                         (Js.trim d) leadId memIds 1%N in
      if negb (valid_project_key (project_key p))
      then (st, inl (ValidationError "key"))
      else if negb (valid_project_name (name p))
      then (st, inl (ValidationError "name"))
      else if negb (valid_project_description (description p))
      then (st, inl (ValidationError "description"))
      else if bool_decide (is_Some (projects st !! newId))
      then (st, inl (DuplicateKey "_id"))
      else if project_key_exists (projects st) (project_key p)
      then (st, inl (DuplicateKey "key"))
      else (set_projects <[newId := p]> st, inr p)
  | None, _ => (st, inl (ValidationError "leadUserId"))
  | _, None => (st, inl (ValidationError "members"))
  end.

(** ** server/controllers/projectController.js *)

Definition createProject (newId : ObjectId) : Handler := fun req st =>
  let b := rbody req in
  if Js.blank (rb_key b) || Js.blank (rb_name b) || Js.blank (rb_leadUserId b)
  then (st, Send 400 (JError "key, name, and leadUserId are required."))
  else
    let key := default "" (rb_key b) in
    let name_ := default "" (rb_name b) in
    let description_ := default "" (rb_description b) in
    let lead := default "" (rb_leadUserId b) in
    if negb (key_format key)
    then (st, Send 400 (JError "key must be 2-10 chars (A-Z, 0-9)."))
    else if negb (isValidId lead)
    then (st, Send 400 (JError "Invalid leadUserId."))
    else
      let uniqueUserIds := Js.set_array (lead :: rb_members b) in
      match List.find (fun uid => negb (isValidId uid)) uniqueUserIds with
      | Some uid => (st, Send 400 (JError ("Invalid user id in members: " +:+ uid)))
      | None =>
          match mapM castObjectId uniqueUserIds with
          | None => (st, Throw (Error_ "CastError"))
          | Some oids =>
              let usersCount := countDocuments_in (users st) oids in
              if negb (usersCount =? length uniqueUserIds)%nat
              then (st, Send 400 (JError "One or more member ids do not exist."))
              else if project_key_exists (projects st) key
              then (st, Send 409 (JError "Project key already exists."))
              else
                match Project_create newId key name_ description_ lead
                                     uniqueUserIds st with
                | (st', inr p) => (st', Send 201 (JProject (Some p)))
                | (st', inl e) => (st', Throw e)
                end
          end
      end.

(** The [updates] object of [updateProject], fields already cast and passed
    through the schema setters. *)
Record Updates := mkUpdates {
  upd_name : option string;
  upd_description : option string;
  upd_leadUserId : option ObjectId
}.

Definition apply_updates (u : Updates) (p : Project) : Project :=
  mkProject (project_id p) (project_key p)
            (default (name p) (upd_name u))
            (default (description p) (upd_description u))
            (default (leadUserId p) (upd_leadUserId u))
            (members p) (nextIssueSeq p).

(** [Project.findByIdAndUpdate(id, { $set: updates },
    { new: true, runValidators: true })] *)
Definition Project_findByIdAndUpdate (pid : ObjectId) (u : Updates) (st : Store)
    : Store * (Exn + option Project) :=
  if negb (from_option valid_project_name true (upd_name u))
  then (st, inl (ValidationError "name"))
  else if negb (from_option valid_project_description true (upd_description u))
  then (st, inl (ValidationError "description"))
  else
    match projects st !! pid with
    | None => (st, inr None)
    | Some p =>
        let p' := apply_updates u p in
        (set_projects <[pid := p']> st, inr (Some p'))
    end.

Definition updateProject : Handler := fun req st =>
  let b := rbody req in
  if bool_decide (is_Some (rb_name b)) && Js.blank (rb_name b)
  then (st, Send 400 (JError "name cannot be empty."))
  else
    let checkLead : option (Result Req) :=
      match rb_leadUserId b with
      | None => None
      | Some l =>
          if negb (isValidId l) then Some (Send 400 (JError "Invalid leadUserId."))
          else if negb (bool_decide (is_Some (findById (users st) l)))
          then Some (Send 400 (JError "Lead user does not exist."))
          else None
      end in
    match checkLead with
    | Some r => (st, r)
    | None =>
        match project req with
        | None => (st, Throw (TypeError "req.project is undefined"))
        | Some p0 =>
            let updates :=
              mkUpdates (Js.trim <$> rb_name b) (Js.trim <$> rb_description b)
                        (rb_leadUserId b ≫= castObjectId) in
            match Project_findByIdAndUpdate (project_id p0) updates st with
            | (st1, inl e) => (st1, Throw e)
            | (st1, inr updated) =>
                let st2 :=
                  match rb_leadUserId b ≫= castObjectId with
                  | Some l =>
                      set_projects
                        (alter (fun p => with_members (addToSet [l] (members p)) p)
                               (project_id p0)) st1
                  | None => st1
                  end in
                (st2, Send 200 (JProject updated))
            end
        end
    end.

(** [raw.filter(Boolean).map(String)] on an array of strings and nulls. *)
Definition clean_ids (raw : list (option string)) : list string :=
  omap (fun o => if Js.truthy o then o else None) raw.

(** The single [Project.updateOne] of [updateMembers].  MongoDB refuses an
    update document in which two operators write the same path, so a request
    that both adds and removes is refused with a conflict error and changes
    nothing. *)
Definition Project_updateOne_members (pid : ObjectId)
    (addObjIds removeObjIds : list ObjectId) (st : Store) : Store * option Exn :=
  match addObjIds, removeObjIds with
  | [], [] => (st, None)
  | _ :: _, [] =>
      (set_projects
         (alter (fun p => with_members (addToSet addObjIds (members p)) p) pid) st,
       None)
  | [], _ :: _ =>
      (set_projects
         (alter (fun p => with_members (pull removeObjIds (members p)) p) pid) st,
       None)
  | _ :: _, _ :: _ =>
      (st, Some (MongoServerError
                   "Updating the path 'members' would create a conflict at 'members'"))
  end.

Definition updateMembers : Handler := fun req st =>
  let addIds := clean_ids (rb_add (rbody req)) in
  let removeIds := clean_ids (rb_remove (rbody req)) in
  match List.find (fun uid => negb (isValidId uid)) (addIds ++ removeIds) with
  | Some uid => (st, Send 400 (JError ("Invalid user id: " +:+ uid)))
  | None =>
      let allIds := Js.set_array (addIds ++ removeIds) in
      match mapM castObjectId allIds with
      | None => (st, Throw (Error_ "CastError"))
      | Some oids =>
          let count := countDocuments_in (users st) oids in
          if negb (count =? length allIds)%nat
          then (st, Send 400 (JError "One or more user ids do not exist."))
          else
            match project req with
            | None => (st, Throw (TypeError "req.project is undefined"))
            | Some p =>
                let leadIdStr := String_ (leadUserId p) in
                if existsb (fun id => String.eqb id leadIdStr) removeIds
                then (st, Send 400
                            (JError "Cannot remove the project lead from members."))
                else
                  let addObjIds := createFromHexString <$> addIds in
                  let removeObjIds := createFromHexString <$> removeIds in
                  match Project_updateOne_members (project_id p) addObjIds
                                                  removeObjIds st with
                  | (st', Some e) => (st', Throw e)
                  | (st', None) =>
                      (st', Send 200 (JProject (projects st' !! project_id p)))
                  end
            end
      end
  end.

(** ** server/models/commentModel.js *)

(** Validators of [CommentSchema.body]: required unless the comment is
    deleted, at most 5000 characters. *)
Definition Comment_validate (c : Comment) : option Exn :=
  if negb (deleted c) && String.eqb (body c) ""
  then Some (ValidationError "body")
  else if (5000 <? String.length (body c))%nat
  then Some (ValidationError "body")
  else None.

(** [Comment.create({ issueId, authorId, body, parentId, ancestors })]:
    defaults and setters are applied, the document is validated and then
    inserted under the generated [_id]; [now] is the clock reading that
    [timestamps: true] stores in [createdAt]. *)
Definition Comment_create (newId : ObjectId) (now : Z) (iid aid : ObjectId)
    (b : string) (parent : option string) (anc : list ObjectId) (st : Store)
    : Store * (Exn + Comment) :=
  match parent, parent ≫= castObjectId with
  | Some _, None => (st, inl (ValidationError "parentId"))
  | _, pid =>
      let c := mkComment newId iid aid (Js.trim b) pid anc false false now in
      match Comment_validate c with
      | Some e => (st, inl e)
      | None =>
          if bool_decide (is_Some (comments st !! newId))
          then (st, inl (DuplicateKey "_id"))
          else (set_comments <[newId := c]> st, inr c)
      end
  end.

(** [doc.save()] on a document that was loaded from the collection. *)
Definition Comment_save (c : Comment) (st : Store) : Store * (Exn + Comment) :=
  match Comment_validate c with
  | Some e => (st, inl e)
  | None =>
      match comments st !! comment_id c with
      | None => (st, inl (Error_ "DocumentNotFoundError"))
      | Some _ => (set_comments <[comment_id c := c]> st, inr c)
      end
  end.

Definition with_body_edited (b : string) (c : Comment) : Comment :=
  mkComment (comment_id c) (issueId c) (authorId c) (Js.trim b) (parentId c)
            (ancestors c) true (deleted c) (createdAt c).

Definition with_deleted (c : Comment) : Comment :=
  mkComment (comment_id c) (issueId c) (authorId c) "" (parentId c)
            (ancestors c) (edited c) true (createdAt c).

(** Sort order [{ createdAt: 1, _id: 1 }]; ObjectIds compare bytewise, that
    is, as their canonical hexadecimal renderings. *)
Definition comment_leb (a b : Comment) : bool :=
  (createdAt a <? createdAt b)
  || ((createdAt a =? createdAt b)
      && String.leb (hex (comment_id a)) (hex (comment_id b))).

Definition comment_le (a b : Comment) : Prop := comment_leb a b = true.

#[global] Instance comment_le_dec a b : Decision (comment_le a b).
Proof. unfold comment_le. apply _. Defined.

(** [cursor.limit(n)]: zero means no limit, a negative [n] asks for one
    batch of [|n|] documents. *)
Definition mongo_limit {A} (n : Z) (l : list A) : list A :=
  if n =? 0 then l else take (Z.to_nat (Z.abs n)) l.

(** [Comment.find(filter).sort({createdAt:1,_id:1}).skip(s).limit(n).lean()];
    a [NaN] for [skip] or [limit] is refused by the server. *)
Definition Comment_find_page (flt : Comment -> bool) (skip limit : option Z)
    (st : Store) : Exn + list Comment :=
  match skip, limit with
  | Some s, Some n =>
      let matching := filter (fun c => flt c = true)
                             ((map_to_list (comments st)).*2) in
      inr (mongo_limit n (drop (Z.to_nat s) (merge_sort comment_le matching)))
  | _, _ => inl (MongoServerError "skip and limit must be numeric")
  end.

(** ** server/controllers/commentController.js *)

Definition canEditOrModerate (u : option User) (p : option Project)
    (c : option Comment) : bool :=
  match u, p, c with
  | Some u, Some p, Some c =>
      if isAdmin u then true
      else
        let uid := String_ (user_id u) in
        let isLead := String.eqb (String_ (leadUserId p)) uid in
        if isLead then true
        else String.eqb (String_ (authorId c)) uid
  | _, _, _ => false
  end.

Definition createComment (newId : ObjectId) (now : Z) : Handler := fun req st =>
  let id := params_id req in
  if negb (isValidId id) then (st, Send 400 (JError "Invalid issue id."))
  else
    match (match issue req with
           | Some i => Some i
           | None => findById (issues st) id
           end) with
    | None => (st, Send 404 (JError "Issue not found."))
    | Some issue =>
        match (match project req with
               | Some p => Some p
               | None => projects st !! projectId issue
               end) with
        | None => (st, Send 404 (JError "Project not found."))
        | Some _ =>
            match authUser req with
            | None => (st, Send 401 (JError "Auth required."))
            | Some user =>
                if Js.blank (rb_body (rbody req))
                then (st, Send 400 (JError "body is required."))
                else
                  let body_ := default "" (rb_body (rbody req)) in
                  let create (anc : list ObjectId) :=
                    match Comment_create newId now (issue_id issue)
                            (user_id user) body_ (rb_parentId (rbody req))
                            anc st with
                    | (st1, inl e) => (st1, Throw e)
                    | (st1, inr c) =>
                        (inc_commentCount (issue_id issue) 1 st1,
                         Send 201 (JComment c))
                    end in
                  match rb_parentId (rbody req) with
                  | None => create []
                  | Some parentId_ =>
                      if negb (isValidId parentId_)
                      then (st, Send 400 (JError "Invalid parentId."))
                      else
                        match findById (comments st) parentId_ with
                        | None =>
                            (st, Send 404 (JError "Parent comment not found."))
                        | Some parent =>
                            if negb (String.eqb (String_ (issueId parent))
                                                (String_ (issue_id issue)))
                            then (st, Send 400
                                        (JError "Parent belongs to a different issue."))
                            else create (ancestors parent ++ [comment_id parent])
                        end
                  end
            end
        end
    end.

(** [Math.min(parseInt(q || dflt, 10), cap)] *)
Definition page_limit (q : option string) (dflt : string) (cap : Z) : option Z :=
  (fun n => Z.min n cap) <$> Js.parseInt (Js.or_default q dflt).

(** [Math.max(parseInt(q || "0", 10), 0)] *)
Definition page_skip (q : option string) : option Z :=
  (fun n => Z.max n 0) <$> Js.parseInt (Js.or_default q "0").

(** The filter [{ issueId, parentId: null, deleted: false }]. *)
Definition is_top_level (iid : ObjectId) (c : Comment) : bool :=
  bool_decide (issueId c = iid) && bool_decide (parentId c = None)
  && negb (deleted c).

(** The filter [{ issueId, parentId: parent._id, deleted: false }]. *)
Definition is_reply_to (parent : Comment) (c : Comment) : bool :=
  bool_decide (issueId c = issueId parent)
  && bool_decide (parentId c = Some (comment_id parent))
  && negb (deleted c).

Definition listIssueComments : Handler := fun req st =>
  let id := params_id req in
  if negb (isValidId id) then (st, Send 400 (JError "Invalid issue id."))
  else
    match (match issue req with
           | Some i => Some i
           | None => findById (issues st) id
           end) with
    | None => (st, Send 404 (JError "Issue not found."))
    | Some issue =>
        let limit := page_limit (query_limit req) "20" 100 in
        let skip := page_skip (query_skip req) in
        match Comment_find_page (is_top_level (issue_id issue)) skip limit st with
        | inl e => (st, Throw e)
        | inr topLevel =>
            (st, Send 200 (JComments topLevel (default 0 skip) (default 0 limit)))
        end
    end.

Definition listReplies : Handler := fun req st =>
  let id := params_id req in
  if negb (isValidId id) then (st, Send 400 (JError "Invalid comment id."))
  else
    match (match comment req with
           | Some c => Some c
           | None => findById (comments st) id
           end) with
    | None => (st, Send 404 (JError "Comment not found."))
    | Some parent =>
        let limit := page_limit (query_limit req) "50" 200 in
        let skip := page_skip (query_skip req) in
        match Comment_find_page (is_reply_to parent) skip limit st with
        | inl e => (st, Throw e)
        | inr replies => (st, Send 200 (JReplies replies))
        end
    end.

Definition updateComment : Handler := fun req st =>
  match comment req with
  | None => (st, Throw (TypeError "req.comment is undefined"))
  | Some rc =>
      match comments st !! comment_id rc with
      | None => (st, Send 404 (JError "Comment not found."))
      | Some commentDoc =>
          if negb (canEditOrModerate (authUser req) (project req) (Some commentDoc))
          then (st, Send 403 (JError "Not allowed to edit this comment."))
          else
            match rb_body (rbody req) with
            | None => (st, Send 400 (JError "body is required."))
            | Some b =>
                if Js.blank (Some b)
                then (st, Send 400 (JError "body cannot be empty."))
                else
                  match Comment_save (with_body_edited b commentDoc) st with
                  | (st1, inl e) => (st1, Throw e)
                  | (st1, inr saved) => (st1, Send 200 (JComment saved))
                  end
            end
      end
  end.

Definition deleteComment : Handler := fun req st =>
  match comment req with
  | None => (st, Throw (TypeError "req.comment is undefined"))
  | Some rc =>
      match comments st !! comment_id rc with
      | None => (st, Send 404 (JError "Comment not found."))
      | Some commentDoc =>
          if negb (canEditOrModerate (authUser req) (project req) (Some commentDoc))
          then (st, Send 403 (JError "Not allowed to delete this comment."))
          else if deleted commentDoc
          then (st, Send 204 JEmpty)
          else
            match Comment_save (with_deleted commentDoc) st with
            | (st1, inl e) => (st1, Throw e)
            | (st1, inr _) =>
                match issue req with
                | None => (st1, Throw (TypeError "issue is undefined"))
                | Some i => (inc_commentCount (issue_id i) (-1) st1, Send 204 JEmpty)
                end
            end
      end
  end.

(** ** server/routes: the middleware chains (after [verifyJWT]) *)

Definition POST_projects (newId : ObjectId) : Handler :=
  chain [loadCurrentUser; requireRole [admin; manager]; createProject newId].

Definition PATCH_project : Handler :=
  chain [loadCurrentUser; loadProject; requireProjectLeadOrAdmin; updateProject].

Definition POST_project_members : Handler :=
  chain [loadCurrentUser; loadProject; requireProjectLeadOrAdmin; updateMembers].

Definition POST_issue_comments (newId : ObjectId) (now : Z) : Handler :=
  chain [loadCurrentUser; loadIssue; requireProjectMemberOrAdmin;
         createComment newId now].

Definition GET_issue_comments : Handler :=
  chain [loadCurrentUser; loadIssue; requireProjectMemberOrAdmin;
         listIssueComments].

Definition GET_comment_replies : Handler :=
  chain [loadCurrentUser; loadComment; requireProjectMemberOrAdmin; listReplies].

Definition PATCH_comment : Handler :=
  chain [loadCurrentUser; loadComment; requireProjectMemberOrAdmin;
         updateComment].

Definition DELETE_comment : Handler :=
  chain [loadCurrentUser; loadComment; requireProjectMemberOrAdmin;
         deleteComment].

(** ** server/models/issueModel.js *)

(** [Project.findOneAndUpdate({ _id }, { $inc: { nextIssueSeq: 1 } },
    { new: false })]: one store operation that bumps the counter and returns
    the document as it was before the update. *)
Definition Project_findOneAndUpdate_inc (pid : ObjectId) (st : Store)
    : Store * option Project :=
  match projects st !! pid with
  | None => (st, None)
  | Some p =>
      (set_projects <[pid := with_nextIssueSeq (nextIssueSeq p + 1) p]> st,
       Some p)
  end.

(** [`${project.key}-${project.nextIssueSeq}`] *)
Definition make_key (p : Project) : string :=
  project_key p +:+ "-" +:+ Js.show_N (nextIssueSeq p).

(** [IssueSchema.pre("validate", ...)]: the key generation hook. *)
Definition pre_validate (this : Issue) (st : Store) : Store * (Exn + Issue) :=
  if Js.truthy (issue_key this) then (st, inr this)
  else
    match Project_findOneAndUpdate_inc (projectId this) st with
    | (st', None) =>
        (st', inl (Error_ "Project not found for issue key generation."))
    | (st', Some project_) =>
        (st', inr (with_issue_key (Some (make_key project_)) this))
    end.

(** Built-in validators of [IssueSchema] on the modelled fields: [title] is
    required and at most 200 characters, [commentCount] is at least 0. *)
Definition Issue_validate (i : Issue) : option Exn :=
  if String.eqb (title i) "" || (200 <? String.length (title i))%nat
  then Some (ValidationError "title")
  else if commentCount i <? 0 then Some (ValidationError "commentCount")
  else None.

(** The unique index on [key]. *)
Definition issue_key_exists (m : gmap ObjectId Issue) (k : option string) : bool :=
  existsb (fun kv : ObjectId * Issue => bool_decide (issue_key kv.2 = k))
          (map_to_list m).

(** The [insertOne] that ends a first [save()]. *)
Definition Issue_insert (doc : Issue) (st : Store) : Store * (Exn + Issue) :=
  if bool_decide (is_Some (issues st !! issue_id doc))
  then (st, inl (DuplicateKey "_id"))
  else if issue_key_exists (issues st) (issue_key doc)
  then (st, inl (DuplicateKey "key"))
  else (set_issues <[issue_id doc := doc]> st, inr doc).

(** Validation of a new document: the [pre("validate")] hook runs first, the
    built-in validators after it. *)
Definition Issue_validate_phase (doc : Issue) (st : Store)
    : Store * (Exn + Issue) :=
  match pre_validate doc st with
  | (st', inl e) => (st', inl e)
  | (st', inr doc') =>
      match Issue_validate doc' with
      | Some e => (st', inl e)
      | None => (st', inr doc')
      end
  end.

(** [Issue.create(doc)] / first [doc.save()]. *)
Definition Issue_create (doc : Issue) (st : Store) : Store * (Exn + Issue) :=
  match Issue_validate_phase doc st with
  | (st', inl e) => (st', inl e)
  | (st', inr doc') => Issue_insert doc' st'
  end.

(** *** Concurrent creations

    Requests are served concurrently; the store serialises single
    operations.  One issue creation talks to the store twice: the
    [findOneAndUpdate] of the hook and the final insert.  A schedule is the
    order in which the store receives the operations of the creations in
    flight. *)

Inductive Task :=
| Pending (doc : Issue)      (* [save()] called, hook not yet run *)
| Validated (doc : Issue)    (* hook and validators done, insert not yet sent *)
| Saved (doc : Issue)        (* inserted *)
| Rejected (e : Exn).        (* the creation failed *)

Definition task_step (t : Task) (st : Store) : Store * Task :=
  match t with
  | Pending doc =>
      match Issue_validate_phase doc st with
      | (st', inl e) => (st', Rejected e)
      | (st', inr doc') => (st', Validated doc')
      end
  | Validated doc =>
      match Issue_insert doc st with
      | (st', inl e) => (st', Rejected e)
      | (st', inr doc') => (st', Saved doc')
      end
  | Saved _ | Rejected _ => (st, t)
  end.

Fixpoint run (sched : list nat) (st : Store) (ts : list Task)
    : Store * list Task :=
  match sched with
  | [] => (st, ts)
  | i :: sched' =>
      match ts !! i with
      | None => run sched' st ts
      | Some t =>
          let '(st', t') := task_step t st in
          run sched' st' (<[i := t']> ts)
      end
  end.

(** The document a creation holds once its key is fixed. *)
Definition held (t : Task) : option Issue :=
  match t with
  | Validated d | Saved d => Some d
  | Pending _ | Rejected _ => None
  end.

(** No two issues of the collection carry the same key. *)
Definition unique_issue_keys (m : gmap ObjectId Issue) : Prop :=
  forall i j a b, m !! i = Some a -> m !! j = Some b ->
                  issue_key a = issue_key b -> i = j.

(** The counter values [c0, c0+1, ..., c0+k-1]. *)
Definition counter_range (c0 : N) (k : nat) : list N :=
  (fun i => (c0 + N.of_nat i)%N) <$> seq 0 k.

(** [drew pid K t s]: a creation in state [t] for project [pid] (key [K]) has
    drawn the counter value [s] from the project, or none yet. *)
Inductive drew (pid : ObjectId) (K : string) : Task -> option N -> Prop :=
| drew_pending d :
    Js.truthy (issue_key d) = false -> projectId d = pid ->
    drew pid K (Pending d) None
| drew_validated d n :
    issue_key d = Some (K +:+ "-" +:+ Js.show_N n) ->
    drew pid K (Validated d) (Some n)
| drew_saved d n :
    issue_key d = Some (K +:+ "-" +:+ Js.show_N n) ->
    drew pid K (Saved d) (Some n)
| drew_rejected e n : drew pid K (Rejected e) (Some n).

(** The invariant of a batch of creations on project [pid]: the counter has
    advanced by the number of values drawn, the values drawn are exactly the
    range from the initial counter, and the key index holds. *)
Record creations_inv (pid : ObjectId) (K : string) (c0 : N) (st : Store)
    (ts : list Task) (seqs : list (option N)) : Prop := mk_creations_inv {
  inv_project :
    exists p, projects st !! pid = Some p /\ project_key p = K /\
              nextIssueSeq p = (c0 + N.of_nat (length (omap id seqs)))%N;
  inv_drew : Forall2 (drew pid K) ts seqs;
  inv_range : omap id seqs ≡ₚ counter_range c0 (length (omap id seqs));
  inv_unique : unique_issue_keys (issues st)
}.

(** ** Well-formed stores and request traces *)

(** Every document is filed under its own [_id]. *)
Definition keyed_by {A} (f : A -> ObjectId) (m : gmap ObjectId A) : Prop :=
  map_Forall (fun k a => f a = k) m.

Record Store_wf (st : Store) : Prop := mkStore_wf {
  wf_users : keyed_by user_id (users st);
  wf_projects : keyed_by project_id (projects st);
  wf_issues : keyed_by issue_id (issues st);
  wf_comments : keyed_by comment_id (comments st)
}.

Definition Store_wfb (st : Store) : bool :=
  bool_decide (keyed_by user_id (users st))
  && bool_decide (keyed_by project_id (projects st))
  && bool_decide (keyed_by issue_id (issues st))
  && bool_decide (keyed_by comment_id (comments st)).

(** The generic denial. *)
Definition forbidden {A} (r : Result A) : bool :=
  match r with
  | Send 403 _ => true
  | _ => false
  end.

(** The server-side "context missing" signal. *)
Definition context_missing {A} (r : Result A) : bool :=
  match r with
  | Send 500 (JError "Auth or project context missing.") => true
  | _ => false
  end.

(** Comment traffic: creations and soft deletions arriving one after the
    other. *)
Inductive CommentOp :=
| OpCreate (newId : ObjectId) (now : Z) (req : Req)
| OpDelete (req : Req).

Definition run_op (op : CommentOp) (st : Store) : Store * Result Req :=
  match op with
  | OpCreate newId now req => POST_issue_comments newId now req st
  | OpDelete req => DELETE_comment req st
  end.

Definition run_ops (ops : list CommentOp) (st : Store) : Store :=
  foldl (fun s op => (run_op op s).1) st ops.

(** The request created a comment on issue [iid]. *)
Definition is_create_on (iid : ObjectId) (op : CommentOp) (st : Store) : bool :=
  match op with
  | OpCreate _ _ _ =>
      match (run_op op st).2 with
      | Send 201 (JComment c) => bool_decide (issueId c = iid)
      | _ => false
      end
  | OpDelete _ => false
  end.

(** The request soft-deleted a comment of issue [iid] that was not deleted
    before. *)
Definition is_first_delete_on (iid : ObjectId) (op : CommentOp) (st : Store)
    : bool :=
  match op with
  | OpDelete req =>
      match (run_op op st).2, findById (comments st) (params_id req) with
      | Send 204 _, Some c => negb (deleted c) && bool_decide (issueId c = iid)
      | _, _ => false
      end
  | OpCreate _ _ _ => false
  end.

Fixpoint creates (iid : ObjectId) (ops : list CommentOp) (st : Store) : Z :=
  match ops with
  | [] => 0
  | op :: ops' =>
      (if is_create_on iid op st then 1 else 0)
      + creates iid ops' (run_op op st).1
  end.

Fixpoint first_deletes (iid : ObjectId) (ops : list CommentOp) (st : Store) : Z :=
  match ops with
  | [] => 0
  | op :: ops' =>
      (if is_first_delete_on iid op st then 1 else 0)
      + first_deletes iid ops' (run_op op st).1
  end.

(** ** A sample database

    Project BT is led by [lead_] and has one further member; [outsider] is an
    active developer who belongs to no project but wrote comment [cA] while
    still a member. *)

Definition id_root : string := "64f1a2b3c4d5e6f7a8b9c0a0".
Definition id_lead : string := "64f1a2b3c4d5e6f7a8b9c0d2".
Definition id_dev : string := "64f1a2b3c4d5e6f7a8b9c0d3".
Definition id_outsider : string := "64f1a2b3c4d5e6f7a8b9c0d4".
Definition id_project : string := "64f1a2b3c4d5e6f7a8b9c1f0".
Definition id_issue1 : string := "64f1a2b3c4d5e6f7a8b9c2e1".
Definition id_issue2 : string := "64f1a2b3c4d5e6f7a8b9c2e2".
Definition id_cA : string := "64f1a2b3c4d5e6f7a8b9c3a1".
Definition id_cB : string := "64f1a2b3c4d5e6f7a8b9c3a2".
Definition id_cC : string := "64f1a2b3c4d5e6f7a8b9c3a3".
Definition id_cX : string := "64f1a2b3c4d5e6f7a8b9c3b1".
Definition id_new : string := "64f1a2b3c4d5e6f7a8b9c3ff".

Definition root : User := mkUser (Oid id_root) admin true.
Definition lead_ : User := mkUser (Oid id_lead) manager true.
Definition dev : User := mkUser (Oid id_dev) developer true.
Definition outsider : User := mkUser (Oid id_outsider) developer true.

Definition projectBT : Project :=
  mkProject (Oid id_project) "BT" "Bug tracker" "" (Oid id_lead)
            [Oid id_lead; Oid id_dev] 3.

Definition issue1 : Issue :=
  mkIssue (Oid id_issue1) (Oid id_project) (Some "BT-1") "Login fails"
          (Oid id_dev) 2.

Definition issue2 : Issue :=
  mkIssue (Oid id_issue2) (Oid id_project) (Some "BT-2") "Crash on save"
          (Oid id_dev) 1.

(** Thread on issue 1: [cA] (top level), [cB] replies to [cA], [cC] (top
    level, soft-deleted); [cX] is a top-level comment on issue 2. *)
Definition cA : Comment :=
  mkComment (Oid id_cA) (Oid id_issue1) (Oid id_outsider) "I can reproduce this."
            None [] false false 1000.

Definition cB : Comment :=
  mkComment (Oid id_cB) (Oid id_issue1) (Oid id_dev) "Same here."
            (Some (Oid id_cA)) [Oid id_cA] false false 1001.

Definition cC : Comment :=
  mkComment (Oid id_cC) (Oid id_issue1) (Oid id_dev) ""
            None [] false true 1002.

Definition cX : Comment :=
  mkComment (Oid id_cX) (Oid id_issue2) (Oid id_dev) "Stack trace attached."
            None [] false false 1003.

Definition sampleStore : Store :=
  mkStore
    (list_to_map [(user_id root, root); (user_id lead_, lead_);
                  (user_id dev, dev); (user_id outsider, outsider)])
    (list_to_map [(project_id projectBT, projectBT)])
    (list_to_map [(issue_id issue1, issue1); (issue_id issue2, issue2)])
    (list_to_map [(comment_id cA, cA); (comment_id cB, cB);
                  (comment_id cC, cC); (comment_id cX, cX)]).

(** A request as it leaves [verifyJWT]: caller [uid], route parameter [id]. *)
Definition request (uid id : string) (b : ReqBody) : Req :=
  mkReq (Some uid) id None None b None None None None.

Definition commentBody (text : string) (parent : option string) : ReqBody :=
  mkReqBody None None None None [] [] [] (Some text) parent.

Definition membersBody (add remove : list (option string)) : ReqBody :=
  mkReqBody None None None None [] add remove None None.

(** A new issue for project BT, as [createIssue] hands it to [Issue.create]. *)
Definition id_issue3 : string := "64f1a2b3c4d5e6f7a8b9c2e3".
Definition id_issue4 : string := "64f1a2b3c4d5e6f7a8b9c2e4".
Definition id_issue5 : string := "64f1a2b3c4d5e6f7a8b9c2e5".
Definition id_nowhere : string := "64f1a2b3c4d5e6f7a8b9c1ff".

Definition draft (id : string) (pid : string) (t : string) : Issue :=
  mkIssue (Oid id) (Oid pid) None t (Oid id_dev) 0.

(** The lead's id as a client may also spell it: upper-case hexadecimal. *)
Definition id_lead_upper : string := "64F1A2B3C4D5E6F7A8B9C0D2".

(** A busy issue: 150 further top-level comments on issue 1, written one
    millisecond apart. *)
Definition numbered_id (n : nat) : string :=
  let d := Js.show_N (N.of_nat n) in
  "64f1a2b3c4d5e6f7a8b9d"
  +:+ (if (n <? 10)%nat then "00" else if (n <? 100)%nat then "0" else "")
  +:+ d.

Definition numbered_comment (n : nat) : Comment :=
  mkComment (Oid (numbered_id n)) (Oid id_issue1) (Oid id_dev) "+1"
            None [] false false (5000 + Z.of_nat n).

Definition busyStore : Store :=
  set_comments
    (fun m => foldr (fun n => <[Oid (numbered_id n) := numbered_comment n]>)
                    m (seq 0 150))
    sampleStore.

Definition listRequest (uid id : string) (limit skip : option string) : Req :=
  mkReq (Some uid) id limit skip emptyBody None None None None.

(** A comment body of 5001 characters. *)
Definition long_body : string := string_of_list_ascii (repeat "a"%char (S 5000)).

(** A request that reaches a comment controller without a resolved user. *)
Definition anonymous_request : Req :=
  mkReq None id_cA None None (commentBody "edit" None)
        None (Some projectBT) (Some issue1) (Some cA).

(** ** projectController.js: listing, reading and deleting projects *)

(** [Project.deleteOne({ _id })] *)
Definition Project_deleteOne (pid : ObjectId) (st : Store) : Store :=
  set_projects (delete pid) st.

Definition getProject : Handler := fun req st =>
  (st, Send 200 (JProject (project req))).

Definition deleteProject : Handler := fun req st =>
  match project req with
  | None => (st, Throw (TypeError "req.project is undefined"))
  | Some p => (Project_deleteOne (project_id p) st, Send 204 JEmpty)
  end.

(** What [listProjects] hands to Express: the body [{ projects }] of a 200
    response, or an exception for [next(err)]. *)
Inductive Listing :=
| Projects (ps : list Project)
| ListingThrows (e : Exn).

(** Sort order [{ createdAt: -1 }], newest first.  The [Project] record does
    not carry the time stamps of the schema; [createdAt_of] reads the
    [createdAt] that [timestamps: true] stored with a project. *)
Definition newer_first (createdAt_of : Project -> Z) (a b : Project) : Prop :=
  createdAt_of b <= createdAt_of a.

#[global] Instance newer_first_dec f a b : Decision (newer_first f a b).
Proof. unfold newer_first. apply _. Defined.

(** [Project.find(filter).sort({ createdAt: -1 }).lean()] *)
Definition Project_find_sorted (createdAt_of : Project -> Z)
    (flt : Project -> bool) (st : Store) : list Project :=
  merge_sort (newer_first createdAt_of)
             (filter (fun p => flt p = true) ((map_to_list (projects st)).*2)).

(** The filter [{ $or: [{ leadUserId: uid }, { members: uid }] }]. *)
Definition leads_or_belongs (uid : ObjectId) (p : Project) : bool :=
  bool_decide (leadUserId p = uid) || bool_decide (uid ∈ members p).

Definition listProjects (createdAt_of : Project -> Z) (req : Req) (st : Store)
    : Listing :=
  match authUser req with
  | None => ListingThrows (TypeError "req.authUser is undefined")
  | Some user_ =>
      if bool_decide (role user_ = admin)
      then Projects (Project_find_sorted createdAt_of (fun _ => true) st)
      else
        let uid := user_id user_ in
        Projects (Project_find_sorted createdAt_of (leads_or_belongs uid) st)
  end.

(** The remaining routes of projectRoutes.js.  [requireRole("admin")] wraps
    its argument into a one-element array. *)
Definition GET_projects (createdAt_of : Project -> Z) (req : Req) (st : Store)
    : Result Req + Listing :=
  match loadCurrentUser req st with
  | (st', Next req') => inr (listProjects createdAt_of req' st')
  | (_, r) => inl r
  end.

Definition GET_project : Handler :=
  chain [loadCurrentUser; loadProject; requireProjectMemberOrAdmin; getProject].

Definition DELETE_project : Handler :=
  chain [loadCurrentUser; loadProject; requireRole [admin]; deleteProject].

(** ** Invariants of the database *)

(** No two projects carry the same key (the unique index of the schema). *)
Definition unique_project_keys (m : gmap ObjectId Project) : Prop :=
  forall i j a b, m !! i = Some a -> m !! j = Some b ->
                  project_key a = project_key b -> i = j.

(** The member list of every project names distinct, existing users. *)
Definition members_sound (st : Store) : Prop :=
  forall k p, projects st !! k = Some p ->
    NoDup (members p) /\ forall m, m ∈ members p -> is_Some (users st !! m).

(** A comment is filed consistently with its parent in [m]: a top-level
    comment has no ancestors, a reply continues the chain of its parent and
    lies on the parent's issue. *)
Definition well_placed (m : gmap ObjectId Comment) (c : Comment) : Prop :=
  match parentId c with
  | None => ancestors c = []
  | Some pid =>
      exists P, m !! pid = Some P /\
                ancestors c = ancestors P ++ [comment_id P] /\
                issueId c = issueId P
  end.

(** Every stored comment is well placed. *)
Definition thread_wf (m : gmap ObjectId Comment) : Prop :=
  forall k c, m !! k = Some c -> well_placed m c.

(** [c'] is a later state of the comment [c]: same place in the thread, same
    author and time stamp; a tombstone stays a tombstone. *)
Definition later_state (c c' : Comment) : Prop :=
  comment_id c' = comment_id c /\ issueId c' = issueId c /\
  authorId c' = authorId c /\ parentId c' = parentId c /\
  ancestors c' = ancestors c /\ createdAt c' = createdAt c /\
  (deleted c = true -> deleted c' = true).

(** The writes a comment route can make to the comment collection: none, a
    new comment under a fresh id, or a later state of a stored comment. *)
Inductive comment_write (m : gmap ObjectId Comment)
    : gmap ObjectId Comment -> Prop :=
| write_nothing : comment_write m m
| write_new c :
    m !! comment_id c = None -> well_placed m c ->
    comment_write m (<[comment_id c := c]> m)
| write_over d d' :
    m !! comment_id d = Some d -> later_state d d' ->
    comment_write m (<[comment_id d := d']> m).

(** [p'] is a later state of the project [p]: same id, same key, and the
    issue counter has not gone back. *)
Definition project_kept (p p' : Project) : Prop :=
  project_id p' = project_id p /\ project_key p' = project_key p /\
  (nextIssueSeq p <= nextIssueSeq p')%N.

(** The member list of [p'] comes from that of [p] by steps that keep it free
    of duplicates and add existing users only. *)
Definition members_step (st : Store) (p p' : Project) : Prop :=
  (NoDup (members p) -> NoDup (members p')) /\
  forall m, m ∈ members p' -> m ∈ members p \/ is_Some (users st !! m).

(** Every project of [m'] is related by [R] to the project that [m] holds
    under the same id. *)
Definition projects_rel (R : Project -> Project -> Prop)
    (m m' : gmap ObjectId Project) : Prop :=
  forall k p', m' !! k = Some p' -> exists p, m !! k = Some p /\ R p p'.

(** What a write to the project collection may do to a project. *)
Definition project_step (st : Store) (p p' : Project) : Prop :=
  project_kept p p' /\ members_step st p p'.

(** Requests to the three writing comment routes. *)
Inductive CommentCall :=
| CallCreate (newId : ObjectId) (now : Z) (req : Req)
| CallEdit (req : Req)
| CallDelete (req : Req).

Definition serve (c : CommentCall) (st : Store) : Store * Result Req :=
  match c with
  | CallCreate newId now req => POST_issue_comments newId now req st
  | CallEdit req => PATCH_comment req st
  | CallDelete req => DELETE_comment req st
  end.

Definition serve_all (cs : list CommentCall) (st : Store) : Store :=
  foldl (fun s c => (serve c s).1) st cs.

(** ** Further sample data *)

Definition id_retired : string := "64f1a2b3c4d5e6f7a8b9c0d5".
Definition id_projectOPS : string := "64f1a2b3c4d5e6f7a8b9c1f1".
Definition id_projectNew : string := "64f1a2b3c4d5e6f7a8b9c1f2".

(** A deactivated account. *)
Definition retired : User := mkUser (Oid id_retired) developer false.

Definition projectOPS : Project :=
  mkProject (Oid id_projectOPS) "OPS" "Operations" "" (Oid id_dev)
            [Oid id_dev; Oid id_outsider] 1.

(** The sample database with the deactivated account and a second project. *)
Definition widerStore : Store :=
  mkStore (<[user_id retired := retired]> (users sampleStore))
          (<[project_id projectOPS := projectOPS]> (projects sampleStore))
          (issues sampleStore) (comments sampleStore).

(** Project BT was created before project OPS. *)
Definition sample_createdAt (p : Project) : Z :=
  if String.eqb (project_key p) "BT" then 100 else 200.

Definition projectBody (k n lead : string) (mems : list string) : ReqBody :=
  mkReqBody (Some k) (Some n) None (Some lead) mems [] [] None None.

Definition updateBody (n d lead : option string) : ReqBody :=
  mkReqBody None n d lead [] [] [] None None.

(** * Properties *)

(** ** Basic facts about identifiers *)

Lemma findById_Some {A} (m : gmap ObjectId A) s a :
  findById m s = Some a ->
  isValidId s = true /\ m !! createFromHexString s = Some a.
Proof.
  unfold findById, castObjectId.
  destruct (isValidId s); simpl; [auto | discriminate].
Qed.

Lemma String_inj a b : String_ a = String_ b -> a = b.
Proof. destruct a, b. simpl. congruence. Qed.

Lemma String_eqb_eq a b : String.eqb (String_ a) (String_ b) = true <-> a = b.
Proof.
  rewrite String.eqb_eq. split; [apply String_inj | congruence].
Qed.

Lemma isValidId_truthy s : isValidId s = true -> Js.truthy (Some s) = true.
Proof.
  destruct s; [discriminate | reflexivity].
Qed.

Lemma Store_wfb_spec st : Store_wfb st = true -> Store_wf st.
Proof.
  unfold Store_wfb. rewrite !andb_true_iff, !bool_decide_eq_true.
  intros [[[? ?] ?] ?]. by constructor.
Qed.

Lemma sampleStore_wf : Store_wf sampleStore.
Proof. apply Store_wfb_spec. vm_compute. reflexivity. Qed.

Lemma keyed_by_lookup {A} (f : A -> ObjectId) m k a :
  keyed_by f m -> m !! k = Some a -> f a = k.
Proof. intros H. apply H. Qed.

Lemma findById_keyed {A} (f : A -> ObjectId) m s a :
  keyed_by f m -> findById m s = Some a -> m !! f a = Some a.
Proof.
  intros Hk H. apply findById_Some in H as [_ H].
  by rewrite (keyed_by_lookup _ _ _ _ Hk H).
Qed.

Lemma keyed_by_insert {A} (f : A -> ObjectId) m a :
  keyed_by f m -> keyed_by f (<[f a := a]> m).
Proof. intros H. by apply map_Forall_insert_2. Qed.

Lemma keyed_by_alter {A} (f : A -> ObjectId) (g : A -> A) m k :
  (forall a, f (g a) = f a) -> keyed_by f m -> keyed_by f (alter g k m).
Proof.
  intros Hg H j a. rewrite lookup_alter.
  destruct (decide (k = j)); [|apply H].
  subst j. destruct (m !! k) as [b|] eqn:Hb; simpl; intros [= <-].
  rewrite Hg. by apply H.
Qed.

(** ** The pipeline *)

Lemma chain_next h hs req st st' req' :
  h req st = (st', Next req') -> chain (h :: hs) req st = chain hs req' st'.
Proof. intros H. simpl. by rewrite H. Qed.

Lemma chain_send h hs req st st' code payload :
  h req st = (st', Send code payload) ->
  chain (h :: hs) req st = (st', Send code payload).
Proof. intros H. simpl. by rewrite H. Qed.

Lemma chain_last h req st : chain [h] req st = h req st.
Proof. simpl. by destruct (h req st) as [? [?|??|?]]. Qed.

(** ** Middleware: what a successful pass establishes *)

Lemma loadCurrentUser_ok req st s u :
  user req = Some s -> findById (users st) s = Some u -> isActive u = true ->
  loadCurrentUser req st = (st, Next (set_authUser u req)).
Proof.
  intros Hs Hu Ha. unfold loadCurrentUser. rewrite Hs.
  destruct (findById_Some _ _ _ Hu) as [Hv _].
  rewrite (isValidId_truthy _ Hv), Hv, Hu, Ha. reflexivity.
Qed.

Lemma loadIssue_ok req st i p :
  findById (issues st) (params_id req) = Some i ->
  projects st !! projectId i = Some p ->
  loadIssue req st = (st, Next (set_project p (set_issue i req))).
Proof.
  intros Hi Hp. unfold loadIssue.
  destruct (findById_Some _ _ _ Hi) as [Hv _].
  rewrite Hv, Hi, Hp. reflexivity.
Qed.

Lemma loadComment_ok req st c i p :
  findById (comments st) (params_id req) = Some c ->
  issues st !! issueId c = Some i ->
  projects st !! projectId i = Some p ->
  loadComment req st
  = (st, Next (set_project p (set_issue i (set_comment c req)))).
Proof.
  intros Hc Hi Hp. unfold loadComment.
  destruct (findById_Some _ _ _ Hc) as [Hv _].
  rewrite Hv, Hc, Hi, Hp. reflexivity.
Qed.

Lemma loadProject_ok req st p :
  findById (projects st) (params_id req) = Some p ->
  loadProject req st = (st, Next (set_project p req)).
Proof.
  intros Hp. unfold loadProject.
  destruct (findById_Some _ _ _ Hp) as [Hv _].
  rewrite Hv, Hp. reflexivity.
Qed.

Lemma loadCurrentUser_inv req st :
  (exists u, authUser (set_authUser u req) = Some u /\ isActive u = true /\
             loadCurrentUser req st = (st, Next (set_authUser u req)))
  \/ (exists code msg, loadCurrentUser req st = (st, Send code (JError msg))
                       /\ (code = 401 \/ code = 403)%nat).
Proof.
  unfold loadCurrentUser.
  repeat case_match; eauto 10.
Qed.

Lemma loadComment_inv req st :
  (exists c i p,
     findById (comments st) (params_id req) = Some c /\
     issues st !! issueId c = Some i /\
     projects st !! projectId i = Some p /\
     loadComment req st
     = (st, Next (set_project p (set_issue i (set_comment c req)))))
  \/ (exists code msg, loadComment req st = (st, Send code (JError msg))
                       /\ (code = 400 \/ code = 404)%nat).
Proof.
  unfold loadComment.
  repeat case_match; eauto 10.
Qed.

Lemma loadIssue_inv req st :
  (exists i p,
     findById (issues st) (params_id req) = Some i /\
     projects st !! projectId i = Some p /\
     loadIssue req st = (st, Next (set_project p (set_issue i req))))
  \/ (exists code msg, loadIssue req st = (st, Send code (JError msg))
                       /\ (code = 400 \/ code = 404)%nat).
Proof.
  unfold loadIssue.
  repeat case_match; eauto 10.
Qed.

Lemma requireProjectMemberOrAdmin_inv req st :
  (exists u p, authUser req = Some u /\ project req = Some p /\
               isAdmin u || isLead u p || isMember u p = true /\
               requireProjectMemberOrAdmin req st = (st, Next req))
  \/ (exists code msg,
        requireProjectMemberOrAdmin req st = (st, Send code (JError msg))
        /\ (code = 403 \/ code = 500)%nat).
Proof.
  unfold requireProjectMemberOrAdmin.
  repeat case_match; simplify_eq; eauto 10.
  left. eexists _, _. repeat split; eauto.
  by destruct (_ || _).
Qed.

(** ** Comment threads *)

Arguments Comment_create : simpl never.
Arguments Comment_save : simpl never.
Arguments inc_commentCount : simpl never.

Lemma Comment_create_inr newId now iid aid b parent anc st st' c :
  Comment_create newId now iid aid b parent anc st = (st', inr c) ->
  c = mkComment newId iid aid (Js.trim b) (parent ≫= castObjectId) anc
                false false now
  /\ st' = set_comments <[newId := c]> st
  /\ (forall s, parent = Some s -> is_Some (castObjectId s)).
Proof.
  unfold Comment_create. intros H.
  destruct parent as [s|]; simpl in *.
  - destruct (castObjectId s) as [pid|] eqn:Hc; [|discriminate].
    repeat case_match; try discriminate.
    injection H as <- <-. repeat split. intros ? [= <-]. rewrite Hc. eauto.
  - repeat case_match; try discriminate.
    injection H as <- <-. repeat split. intros ? [=].
Qed.

Lemma Comment_create_inl newId now iid aid b parent anc st st' e :
  Comment_create newId now iid aid b parent anc st = (st', inl e) -> st' = st.
Proof.
  unfold Comment_create. intros H.
  repeat case_match; simplify_eq; reflexivity.
Qed.

(** C5: every comment that [createComment] creates is stored under its id;
    a top-level comment has no parent and an empty ancestor chain; a reply
    records its parent, its ancestors are the parent's ancestors followed by
    the parent's id, and it lies on the parent's issue.  A reply whose parent
    belongs to another issue is answered 400 and nothing is written. *)
Theorem createComment_ancestor_chain newId now req st :
  (forall st' c,
     createComment newId now req st = (st', Send 201 (JComment c)) ->
     comments st' !! comment_id c = Some c /\
     match rb_parentId (rbody req) with
     | None => parentId c = None /\ ancestors c = []
     | Some s =>
         exists pid P,
           castObjectId s = Some pid /\ comments st !! pid = Some P /\
           parentId c = Some pid /\
           ancestors c = ancestors P ++ [comment_id P] /\
           issueId c = issueId P
     end) /\
  (forall i s P,
     isValidId (params_id req) = true -> issue req = Some i ->
     is_Some (project req) -> is_Some (authUser req) ->
     Js.blank (rb_body (rbody req)) = false ->
     rb_parentId (rbody req) = Some s ->
     findById (comments st) s = Some P ->
     issueId P <> issue_id i ->
     createComment newId now req st
     = (st, Send 400 (JError "Parent belongs to a different issue."))).
Proof.
  split.
  - intros st' c H. unfold createComment in H.
    destruct (isValidId (params_id req)); simpl in H; [|discriminate].
    destruct (match issue req with Some i => Some i | None => _ end)
      as [iss|]; [|discriminate].
    destruct (match project req with Some p => Some p | None => _ end);
      [|discriminate].
    destruct (authUser req) as [u|]; [|discriminate].
    destruct (Js.blank _); [discriminate|].
    destruct (rb_parentId (rbody req)) as [s|] eqn:Hpar.
    + destruct (isValidId s) eqn:Hv; simpl in H; [|discriminate].
      destruct (findById (comments st) s) as [P|] eqn:HP; [|discriminate].
      destruct (String.eqb _ _) eqn:Heq; simpl in H; [|discriminate].
      destruct (Comment_create _ _ _ _ _ _ _ _) as [st1 [e|c1]] eqn:Hcr;
        [discriminate|].
      injection H as <- <-.
      apply Comment_create_inr in Hcr as (Hc & -> & _).
      apply String_eqb_eq in Heq.
      destruct (findById_Some _ _ _ HP) as [_ HP'].
      split.
      * subst c1. simpl. apply lookup_insert_eq.
      * exists (createFromHexString s), P.
        assert (Hcast : castObjectId s = Some (createFromHexString s))
          by (unfold castObjectId; by rewrite Hv).
        subst c1; simpl. rewrite Hcast. repeat split; auto.
    + destruct (Comment_create _ _ _ _ _ _ _ _) as [st1 [e|c1]] eqn:Hcr;
        [discriminate|].
      injection H as <- <-.
      apply Comment_create_inr in Hcr as (Hc & -> & _).
      subst c1; simpl. split; [apply lookup_insert_eq | auto].
  - intros i s P Hv Hi [p Hp] [u Hu] Hb Hpar HP Hne.
    unfold createComment. rewrite Hv, Hi, Hp, Hu, Hb, Hpar. simpl.
    destruct (findById_Some _ _ _ HP) as [Hvs _]. rewrite Hvs, HP. simpl.
    destruct (String.eqb _ _) eqn:Heq; [|reflexivity].
    apply String_eqb_eq in Heq. contradiction.
Qed.

Lemma createComment_ancestor_chain_witness :
  (exists st' c,
     createComment (Oid id_new) 2000
       (set_authUser dev (set_project projectBT (set_issue issue1
          (request id_dev id_issue1 (commentBody "hi" (Some id_cB))))))
       sampleStore = (st', Send 201 (JComment c))
     /\ ancestors c = [Oid id_cA; Oid id_cB]) /\
  createComment (Oid id_new) 2000
    (set_authUser dev (set_project projectBT (set_issue issue2
       (request id_dev id_issue2 (commentBody "hi" (Some id_cB))))))
    sampleStore
  = (sampleStore, Send 400 (JError "Parent belongs to a different issue.")).
Proof.
  split.
  - eexists _, _. split; [vm_compute; reflexivity|].
    destruct (proj1 (createComment_ancestor_chain (Oid id_new) 2000
       (set_authUser dev (set_project projectBT (set_issue issue1
          (request id_dev id_issue1 (commentBody "hi" (Some id_cB))))))
       sampleStore) _ _ ltac:(vm_compute; reflexivity))
      as [_ (pid & P & Hc & HP & _ & Ha & _)].
    vm_compute in Hc. injection Hc as <-.
    vm_compute in HP. injection HP as <-.
    exact Ha.
  - apply (proj2 (createComment_ancestor_chain (Oid id_new) 2000 _ sampleStore)
             issue2 id_cB cB); try (vm_compute; reflexivity); try (eexists; reflexivity).
    vm_compute. discriminate.
Defined.

(** ** Soft deletion and the comment counter *)

Lemma Comment_validate_with_deleted c : Comment_validate (with_deleted c) = None.
Proof. reflexivity. Qed.

Lemma Comment_save_deleted c st :
  is_Some (comments st !! comment_id c) ->
  Comment_save (with_deleted c) st
  = (set_comments <[comment_id c := with_deleted c]> st, inr (with_deleted c)).
Proof.
  intros [d Hd]. unfold Comment_save.
  rewrite Comment_validate_with_deleted. simpl. by rewrite Hd.
Qed.

Lemma deleteComment_already_deleted req st rc d :
  comment req = Some rc -> comments st !! comment_id rc = Some d ->
  canEditOrModerate (authUser req) (project req) (Some d) = true ->
  deleted d = true ->
  deleteComment req st = (st, Send 204 JEmpty).
Proof.
  intros Hrc Hd Hcan Hdel. unfold deleteComment.
  by rewrite Hrc, Hd, Hcan, Hdel.
Qed.

Lemma deleteComment_first req st rc d i :
  comment req = Some rc -> comments st !! comment_id rc = Some d ->
  comment_id d = comment_id rc ->
  canEditOrModerate (authUser req) (project req) (Some d) = true ->
  deleted d = false -> issue req = Some i ->
  deleteComment req st
  = (inc_commentCount (issue_id i) (-1)
       (set_comments <[comment_id d := with_deleted d]> st),
     Send 204 JEmpty).
Proof.
  intros Hrc Hd Hid Hcan Hdel Hi. unfold deleteComment.
  rewrite Hrc, Hd, Hcan, Hdel. simpl.
  rewrite Comment_save_deleted by (rewrite Hid; eauto).
  by rewrite Hi.
Qed.

(** What the whole [DELETE /comments/:id] chain can do. *)
Lemma DELETE_comment_spec req st :
  Store_wf st ->
  (exists code msg, DELETE_comment req st = (st, Send code (JError msg))
                    /\ code <> 204%nat)
  \/ (exists c, findById (comments st) (params_id req) = Some c /\
                deleted c = true /\
                DELETE_comment req st = (st, Send 204 JEmpty))
  \/ (exists c, findById (comments st) (params_id req) = Some c /\
                deleted c = false /\
                DELETE_comment req st
                = (inc_commentCount (issueId c) (-1)
                     (set_comments <[comment_id c := with_deleted c]> st),
                   Send 204 JEmpty)).
Proof.
  intros Hwf. unfold DELETE_comment.
  destruct (loadCurrentUser_inv req st)
    as [(u & _ & _ & H1) | (code & msg & H1 & Hc)];
    [rewrite (chain_next _ _ _ _ _ _ H1)
    |left; exists code, msg; split; [by apply chain_send | lia]].
  destruct (loadComment_inv (set_authUser u req) st)
    as [(c & i & p & Hc & Hi & Hp & H2) | (code & msg & H2 & Hcode)];
    [rewrite (chain_next _ _ _ _ _ _ H2)
    |left; exists code, msg; split; [by apply chain_send | lia]].
  set (req' := set_project p (set_issue i (set_comment c (set_authUser u req)))).
  destruct (requireProjectMemberOrAdmin_inv req' st)
    as [(u' & p' & _ & _ & _ & H3) | (code & msg & H3 & Hcode)];
    [rewrite (chain_next _ _ _ _ _ _ H3), chain_last
    |left; exists code, msg; split; [by apply chain_send | lia]].
  assert (Hlook : comments st !! comment_id c = Some c)
    by (eapply findById_keyed; [apply Hwf | exact Hc]).
  assert (Hiid : issue_id i = issueId c)
    by (eapply (keyed_by_lookup issue_id); [apply Hwf | exact Hi]).
  destruct (canEditOrModerate (authUser req') (project req') (Some c)) eqn:Hcan.
  - destruct (deleted c) eqn:Hdel.
    + right; left. exists c. repeat split; auto.
      by apply (deleteComment_already_deleted req' st c c).
    + right; right. exists c. repeat split; auto.
      rewrite (deleteComment_first req' st c c i); auto.
      by rewrite Hiid.
  - left. assert (Hrc : comment req' = Some c) by reflexivity.
    unfold deleteComment. rewrite Hrc, Hlook, Hcan. simpl.
    eexists _, _. split; [reflexivity | lia].
Qed.

Lemma createComment_spec newId now req st :
  (exists r, createComment newId now req st = (st, r) /\
             forall c, r <> Send 201 (JComment c))
  \/ (exists c, createComment newId now req st
                = (inc_commentCount (issueId c) 1
                     (set_comments <[comment_id c := c]> st),
                   Send 201 (JComment c))).
Proof.
  unfold createComment. cbv beta zeta.
  repeat match goal with
  | |- context [Comment_create ?a ?b ?c ?d ?e ?f ?g ?h] =>
      let H := fresh "Hcr" in
      destruct (Comment_create a b c d e f g h) as [? [?|?]] eqn:H;
      [apply Comment_create_inl in H as ->
      |apply Comment_create_inr in H as (? & -> & _)]
  | |- context [match ?x with _ => _ end] => destruct x eqn:?
  | |- context [if ?x then _ else _] => destruct x eqn:?
  end;
  first [ left; eexists; split; [reflexivity | discriminate]
        | match goal with
          | |- context [JComment ?c] => right; exists c; subst; reflexivity
          end ].
Qed.

(** What the whole [POST /issues/:id/comments] chain can do. *)
Lemma POST_issue_comments_spec newId now req st :
  (exists r, POST_issue_comments newId now req st = (st, r) /\
             forall c, r <> Send 201 (JComment c))
  \/ (exists c, POST_issue_comments newId now req st
                = (inc_commentCount (issueId c) 1
                     (set_comments <[comment_id c := c]> st),
                   Send 201 (JComment c))).
Proof.
  unfold POST_issue_comments.
  destruct (loadCurrentUser_inv req st)
    as [(u & _ & _ & H1) | (code & msg & H1 & Hc)];
    [rewrite (chain_next _ _ _ _ _ _ H1)
    |left; eexists; split; [by eapply chain_send | discriminate]].
  destruct (loadIssue_inv (set_authUser u req) st)
    as [(i & p & Hi & Hp & H2) | (code & msg & H2 & Hcode)];
    [rewrite (chain_next _ _ _ _ _ _ H2)
    |left; eexists; split; [by eapply chain_send | discriminate]].
  set (req' := set_project p (set_issue i (set_authUser u req))).
  destruct (requireProjectMemberOrAdmin_inv req' st)
    as [(u' & p' & _ & _ & _ & H3) | (code & msg & H3 & Hcode)];
    [rewrite (chain_next _ _ _ _ _ _ H3), chain_last
    |left; eexists; split; [by eapply chain_send | discriminate]].
  apply createComment_spec.
Qed.

Lemma issues_set_comments f st : issues (set_comments f st) = issues st.
Proof. reflexivity. Qed.

Lemma commentCount_inc k d st iid :
  commentCount <$> issues (inc_commentCount k d st) !! iid
  = (fun n => n + (if decide (k = iid) then d else 0))
      <$> (commentCount <$> issues st !! iid).
Proof.
  unfold inc_commentCount. simpl. rewrite lookup_alter.
  destruct (decide (k = iid)) as [->|]; destruct (issues st !! iid); simpl;
    try reflexivity; f_equal; lia.
Qed.

Lemma Store_wf_inc_commentCount k d st :
  Store_wf st -> Store_wf (inc_commentCount k d st).
Proof.
  intros [? ? ? ?]. constructor; simpl; auto.
  by apply keyed_by_alter.
Qed.

Lemma Store_wf_set_comment c st :
  Store_wf st -> Store_wf (set_comments <[comment_id c := c]> st).
Proof.
  intros [? ? ? ?]. constructor; simpl; auto.
  by apply keyed_by_insert.
Qed.

Lemma run_op_wf op st : Store_wf st -> Store_wf (run_op op st).1.
Proof.
  intros Hwf. destruct op as [newId now req | req]; simpl.
  - destruct (POST_issue_comments_spec newId now req st)
      as [(r & -> & _) | (c & ->)]; simpl; auto.
    by apply Store_wf_inc_commentCount, Store_wf_set_comment.
  - destruct (DELETE_comment_spec req st Hwf)
      as [(code & msg & -> & _) | [(c & _ & _ & ->) | (c & _ & _ & ->)]];
      simpl; auto.
    apply Store_wf_inc_commentCount.
    by apply (Store_wf_set_comment (with_deleted c)).
Qed.

Lemma not_created_status (r : Result Req) (x : Comment -> bool) :
  (forall c, r <> Send 201 (JComment c)) ->
  match r with
  | Send 201 (JComment c) => x c
  | _ => false
  end = false.
Proof.
  intros Hr. destruct r as [|code [| |c| | |]|]; try reflexivity;
    do 202 (destruct code as [|code]; try reflexivity).
  by destruct (Hr c).
Qed.


(** One request moves the counter of an issue by +1 when it creates a
    comment there, by -1 when it soft-deletes one for the first time, and
    not at all otherwise. *)
Lemma run_op_count iid op st :
  Store_wf st ->
  commentCount <$> issues (run_op op st).1 !! iid
  = (fun n => n + (if is_create_on iid op st then 1 else 0)
                - (if is_first_delete_on iid op st then 1 else 0))
      <$> (commentCount <$> issues st !! iid).
Proof.
  intros Hwf. unfold is_create_on, is_first_delete_on.
  destruct op as [newId now req | req]; simpl run_op.
  - destruct (POST_issue_comments_spec newId now req st)
      as [(r & -> & Hr) | (c & ->)]; cbn [fst snd].
    + rewrite (not_created_status r _ Hr).
      destruct (issues st !! iid); simpl; f_equal; lia.
    + rewrite commentCount_inc, issues_set_comments.
      destruct (issues st !! iid); simpl; [|reflexivity].
      case_bool_decide; case_decide; try congruence; f_equal; lia.
  - destruct (DELETE_comment_spec req st Hwf)
      as [(code & msg & -> & Hne)
         | [(c & -> & Hdel & ->) | (c & -> & Hdel & ->)]]; cbn [fst snd].
    + assert (forall o : option Comment,
                match @Send Req code (JError msg), o with
                | Send 204 _, Some c =>
                    negb (deleted c) && bool_decide (issueId c = iid)
                | _, _ => false
                end = false) as ->.
      { intros o. clear -Hne.
        do 205 (destruct code as [|code]; try reflexivity). done. }
      destruct (issues st !! iid); simpl; f_equal; lia.
    + rewrite Hdel. simpl.
      destruct (issues st !! iid); simpl; f_equal; lia.
    + rewrite Hdel, commentCount_inc, issues_set_comments. simpl.
      destruct (issues st !! iid); simpl; [|reflexivity].
      case_bool_decide; case_decide; try congruence; f_equal; lia.
Qed.

Lemma run_ops_count iid ops : forall st,
  Store_wf st ->
  commentCount <$> issues (run_ops ops st) !! iid
  = (fun n => n + creates iid ops st - first_deletes iid ops st)
      <$> (commentCount <$> issues st !! iid).
Proof.
  induction ops as [|op ops IH]; intros st Hwf; simpl.
  - destruct (issues st !! iid); simpl; f_equal; lia.
  - unfold run_ops in *. simpl. rewrite IH by (by apply run_op_wf).
    rewrite (run_op_count iid op st Hwf).
    destruct (issues st !! iid); simpl; f_equal. lia.
Qed.

(** C6: deleting an already deleted comment answers 204 and leaves the
    database as it is.  The first deletion of a comment empties its body,
    sets [deleted], lowers the counter of its issue by one, and a repeated
    deletion changes nothing.  After any sequence of comment creations and
    deletions the counter of an issue has grown by the number of creations
    minus the number of first-time deletions on that issue. *)
Theorem deleteComment_idempotent_counter st :
  Store_wf st ->
  (forall req rc d,
     comment req = Some rc -> comments st !! comment_id rc = Some d ->
     canEditOrModerate (authUser req) (project req) (Some d) = true ->
     deleted d = true ->
     deleteComment req st = (st, Send 204 JEmpty)) /\
  (forall req rc d i,
     comment req = Some rc -> comments st !! comment_id rc = Some d ->
     canEditOrModerate (authUser req) (project req) (Some d) = true ->
     deleted d = false -> issue req = Some i ->
     let st' := (deleteComment req st).1 in
     (deleteComment req st).2 = Send 204 JEmpty /\
     (exists d', comments st' !! comment_id rc = Some d' /\
                 body d' = "" /\ deleted d' = true) /\
     commentCount <$> issues st' !! issue_id i
     = (fun n => n - 1) <$> (commentCount <$> issues st !! issue_id i) /\
     deleteComment req st' = (st', Send 204 JEmpty)) /\
  (forall ops iid,
     commentCount <$> issues (run_ops ops st) !! iid
     = (fun n => n + creates iid ops st - first_deletes iid ops st)
         <$> (commentCount <$> issues st !! iid)).
Proof.
  intros Hwf. split; [|split].
  - intros req rc d. apply deleteComment_already_deleted.
  - intros req rc d i Hrc Hd Hcan Hdel Hi.
    assert (Hid : comment_id d = comment_id rc)
      by (eapply (keyed_by_lookup comment_id); [apply Hwf | exact Hd]).
    rewrite (deleteComment_first req st rc d i) by assumption. cbn [fst snd].
    assert (Hnew : comments
                     (inc_commentCount (issue_id i) (-1)
                        (set_comments <[comment_id d := with_deleted d]> st))
                   !! comment_id rc = Some (with_deleted d)).
    { simpl. rewrite Hid. apply lookup_insert_eq. }
    repeat split.
    + exists (with_deleted d). by repeat split.
    + rewrite commentCount_inc, issues_set_comments, decide_True by done.
      destruct (issues st !! issue_id i); simpl; f_equal; lia.
    + by apply (deleteComment_already_deleted _ _ rc (with_deleted d)).
  - intros ops iid. by apply run_ops_count.
Qed.

Lemma deleteComment_idempotent_counter_witness :
  let req := set_authUser dev (set_project projectBT (set_issue issue1
               (set_comment cB (request id_dev id_cB emptyBody)))) in
  let reqC := set_authUser dev (set_project projectBT (set_issue issue1
               (set_comment cC (request id_dev id_cC emptyBody)))) in
  let ops := [OpCreate (Oid id_new) 2000
                (request id_dev id_issue1 (commentBody "hi" None));
              OpDelete (request id_dev id_new emptyBody);
              OpDelete (request id_dev id_new emptyBody);
              OpDelete (request id_root id_cC emptyBody)] in
  deleteComment reqC sampleStore = (sampleStore, Send 204 JEmpty) /\
  commentCount <$> issues (deleteComment req sampleStore).1 !! Oid id_issue1
  = Some 1 /\
  creates (Oid id_issue1) ops sampleStore = 1 /\
  first_deletes (Oid id_issue1) ops sampleStore = 1 /\
  commentCount <$> issues (run_ops ops sampleStore) !! Oid id_issue1 = Some 2.
Proof.
  intros req reqC ops.
  assert (Hwf : Store_wf sampleStore)
    by (apply Store_wfb_spec; vm_compute; reflexivity).
  destruct (deleteComment_idempotent_counter sampleStore Hwf)
    as (Hagain & Hfirst & Hseq).
  split; [|split; [|split; [|split]]].
  - apply (Hagain reqC cC cC); vm_compute; reflexivity.
  - destruct (Hfirst req cB cB issue1
                ltac:(vm_compute; reflexivity) ltac:(vm_compute; reflexivity)
                ltac:(vm_compute; reflexivity) ltac:(vm_compute; reflexivity)
                ltac:(vm_compute; reflexivity)) as (_ & _ & Hcount & _).
    change (Oid id_issue1) with (issue_id issue1).
    rewrite Hcount. vm_compute. reflexivity.
  - vm_compute. reflexivity.
  - vm_compute. reflexivity.
  - rewrite Hseq. vm_compute. reflexivity.
Defined.

(** ** Who may edit or delete a comment *)

Lemma canEditOrModerate_Some u p c :
  canEditOrModerate (Some u) (Some p) (Some c)
  = isAdmin u || isLead u p || bool_decide (authorId c = user_id u).
Proof.
  unfold canEditOrModerate, isLead.
  destruct (isAdmin u); [reflexivity|].
  destruct (String.eqb (String_ (leadUserId p)) _); [reflexivity|]. simpl.
  destruct (String.eqb _ _) eqn:E.
  - apply String_eqb_eq in E. by rewrite bool_decide_eq_true_2.
  - rewrite bool_decide_eq_false_2; [reflexivity|].
    intros Heq. apply String_eqb_eq in Heq. congruence.
Qed.

(** The requests for which [PATCH] and [DELETE /comments/:id] reach their
    controller: the caller resolves to the active user [u] and the comment
    [c] of issue [i] of project [p] is loaded. *)
Lemma comment_route_reaches (h : Handler) req st s u c i p :
  user req = Some s -> findById (users st) s = Some u -> isActive u = true ->
  findById (comments st) (params_id req) = Some c ->
  issues st !! issueId c = Some i -> projects st !! projectId i = Some p ->
  let req' := set_project p (set_issue i (set_comment c (set_authUser u req))) in
  chain [loadCurrentUser; loadComment; requireProjectMemberOrAdmin; h] req st
  = if isAdmin u || isLead u p || isMember u p then h req' st
    else (st, Send 403 (JError "Project access denied.")).
Proof.
  intros Hs Hu Ha Hc Hi Hp req'.
  rewrite (chain_next _ _ _ _ _ _ (loadCurrentUser_ok _ _ _ _ Hs Hu Ha)).
  rewrite (chain_next _ _ _ _ _ _
             (loadComment_ok (set_authUser u req) st c i p Hc Hi Hp)).
  fold req'.
  destruct (isAdmin u || isLead u p || isMember u p) eqn:Hgate.
  - erewrite chain_next; [apply chain_last|].
    unfold requireProjectMemberOrAdmin, req'.
    cbn [authUser project set_project set_issue set_comment set_authUser].
    by rewrite Hgate.
  - apply chain_send.
    unfold requireProjectMemberOrAdmin, req'.
    cbn [authUser project set_project set_issue set_comment set_authUser].
    by rewrite Hgate.
Qed.

Lemma updateComment_allowed_not_forbidden req st rc d :
  comment req = Some rc -> comments st !! comment_id rc = Some d ->
  canEditOrModerate (authUser req) (project req) (Some d) = true ->
  forbidden (updateComment req st).2 = false.
Proof.
  intros Hrc Hd Hcan. unfold updateComment. rewrite Hrc, Hd, Hcan. simpl.
  repeat case_match; reflexivity.
Qed.

Lemma deleteComment_allowed_not_forbidden req st rc d :
  comment req = Some rc -> comments st !! comment_id rc = Some d ->
  canEditOrModerate (authUser req) (project req) (Some d) = true ->
  forbidden (deleteComment req st).2 = false.
Proof.
  intros Hrc Hd Hcan. unfold deleteComment. rewrite Hrc, Hd, Hcan. simpl.
  repeat case_match; reflexivity.
Qed.

Lemma updateComment_denied req st rc d :
  comment req = Some rc -> comments st !! comment_id rc = Some d ->
  canEditOrModerate (authUser req) (project req) (Some d) = false ->
  updateComment req st = (st, Send 403 (JError "Not allowed to edit this comment.")).
Proof.
  intros Hrc Hd Hcan. unfold updateComment. by rewrite Hrc, Hd, Hcan.
Qed.

Lemma deleteComment_denied req st rc d :
  comment req = Some rc -> comments st !! comment_id rc = Some d ->
  canEditOrModerate (authUser req) (project req) (Some d) = false ->
  deleteComment req st
  = (st, Send 403 (JError "Not allowed to delete this comment.")).
Proof.
  intros Hrc Hd Hcan. unfold deleteComment. by rewrite Hrc, Hd, Hcan.
Qed.

(** C7 as stated fails: the author of a comment who is no longer a member of
    the project is turned away by the membership gate of the route, for
    editing and for deleting alike. *)
Lemma author_outside_project_is_denied :
  let req := request id_outsider id_cA (commentBody "edit" None) in
  loadCurrentUser req sampleStore
  = (sampleStore, Next (set_authUser outsider req)) /\
  findById (comments sampleStore) id_cA = Some cA /\
  authorId cA = user_id outsider /\
  PATCH_comment req sampleStore
  = (sampleStore, Send 403 (JError "Project access denied.")) /\
  DELETE_comment req sampleStore
  = (sampleStore, Send 403 (JError "Project access denied.")).
Proof. repeat split; vm_compute; reflexivity. Qed.

(** C7, amended: for a resolved active caller and an existing comment,
    editing and deleting are permitted exactly when the caller is an admin,
    the project lead, or the comment's author and still a member of the
    project; every other caller is answered 403 and nothing is written. *)
Theorem comment_moderation_gate req st s u c i p :
  Store_wf st ->
  user req = Some s -> findById (users st) s = Some u -> isActive u = true ->
  findById (comments st) (params_id req) = Some c ->
  issues st !! issueId c = Some i -> projects st !! projectId i = Some p ->
  let allowed :=
    isAdmin u || isLead u p
    || (isMember u p && bool_decide (authorId c = user_id u)) in
  forbidden (PATCH_comment req st).2 = negb allowed /\
  forbidden (DELETE_comment req st).2 = negb allowed /\
  (allowed = false ->
   (PATCH_comment req st).1 = st /\ (DELETE_comment req st).1 = st).
Proof.
  intros Hwf Hs Hu Ha Hc Hi Hp allowed. subst allowed.
  unfold PATCH_comment, DELETE_comment.
  rewrite !(comment_route_reaches _ req st s u c i p Hs Hu Ha Hc Hi Hp).
  set (req' := set_project p (set_issue i (set_comment c (set_authUser u req)))).
  assert (Hlook : comments st !! comment_id c = Some c)
    by (eapply findById_keyed; [apply Hwf | exact Hc]).
  assert (Hrc : comment req' = Some c) by reflexivity.
  assert (Hcan : canEditOrModerate (authUser req') (project req') (Some c)
                 = isAdmin u || isLead u p || bool_decide (authorId c = user_id u))
    by apply canEditOrModerate_Some.
  destruct (isAdmin u), (isLead u p), (isMember u p),
    (bool_decide (authorId c = user_id u)); simpl in *;
    rewrite ?(updateComment_allowed_not_forbidden req' st c c Hrc Hlook Hcan),
            ?(deleteComment_allowed_not_forbidden req' st c c Hrc Hlook Hcan),
            ?(updateComment_denied req' st c c Hrc Hlook Hcan),
            ?(deleteComment_denied req' st c c Hrc Hlook Hcan);
    repeat split; try reflexivity; try discriminate.
Qed.

Lemma comment_moderation_gate_witness :
  forbidden (PATCH_comment (request id_dev id_cB (commentBody "edit" None))
                           sampleStore).2 = false /\
  forbidden (DELETE_comment (request id_dev id_cA emptyBody) sampleStore).2
  = true.
Proof.
  split.
  - rewrite (proj1 (comment_moderation_gate
                      (request id_dev id_cB (commentBody "edit" None))
                      sampleStore id_dev dev cB issue1 projectBT
                      ltac:(apply Store_wfb_spec; vm_compute; reflexivity)
                      ltac:(vm_compute; reflexivity) ltac:(vm_compute; reflexivity)
                      ltac:(vm_compute; reflexivity) ltac:(vm_compute; reflexivity)
                      ltac:(vm_compute; reflexivity) ltac:(vm_compute; reflexivity))).
    vm_compute. reflexivity.
  - rewrite (proj1 (proj2 (comment_moderation_gate
                      (request id_dev id_cA emptyBody)
                      sampleStore id_dev dev cA issue1 projectBT
                      ltac:(apply Store_wfb_spec; vm_compute; reflexivity)
                      ltac:(vm_compute; reflexivity) ltac:(vm_compute; reflexivity)
                      ltac:(vm_compute; reflexivity) ltac:(vm_compute; reflexivity)
                      ltac:(vm_compute; reflexivity) ltac:(vm_compute; reflexivity)))).
    vm_compute. reflexivity.
Defined.

(** ** Missing context *)

(** C8 as stated fails: [canEditOrModerate] answers a missing user with the
    same [false] it gives a caller without rights, and the comment
    controllers report it as 403. *)
Lemma missing_user_is_reported_forbidden :
  authUser anonymous_request = None /\
  canEditOrModerate (authUser anonymous_request) (project anonymous_request)
                    (Some cA) = false /\
  updateComment anonymous_request sampleStore
  = (sampleStore, Send 403 (JError "Not allowed to edit this comment.")) /\
  deleteComment anonymous_request sampleStore
  = (sampleStore, Send 403 (JError "Not allowed to delete this comment.")) /\
  context_missing (updateComment anonymous_request sampleStore).2 = false.
Proof. repeat split; vm_compute; reflexivity. Qed.

(** C8, amended: the two project gates answer a missing user or project with
    the 500 "context missing" response and never with 403;
    [canEditOrModerate] returns [false] as soon as user, project or comment
    is missing, so [updateComment] and [deleteComment] answer such a call
    with 403; in all cases nothing is written. *)
Theorem context_missing_signals :
  (forall req st,
     authUser req = None \/ project req = None ->
     requireProjectMemberOrAdmin req st
     = (st, Send 500 (JError "Auth or project context missing.")) /\
     requireProjectLeadOrAdmin req st
     = (st, Send 500 (JError "Auth or project context missing."))) /\
  (forall u p c,
     u = None \/ p = None \/ c = None -> canEditOrModerate u p c = false) /\
  (forall req st rc d,
     comment req = Some rc -> comments st !! comment_id rc = Some d ->
     authUser req = None \/ project req = None ->
     updateComment req st
     = (st, Send 403 (JError "Not allowed to edit this comment.")) /\
     deleteComment req st
     = (st, Send 403 (JError "Not allowed to delete this comment."))).
Proof.
  split; [|split].
  - intros req st H.
    unfold requireProjectMemberOrAdmin, requireProjectLeadOrAdmin.
    destruct H as [-> | ->]; [done|]. by destruct (authUser req).
  - intros u p c H. unfold canEditOrModerate.
    destruct H as [-> | [-> | ->]]; [done| |].
    + by destruct u.
    + by destruct u, p.
  - intros req st rc d Hrc Hd H.
    assert (Hcan : canEditOrModerate (authUser req) (project req) (Some d) = false).
    { unfold canEditOrModerate.
      destruct H as [-> | ->]; [done|]. by destruct (authUser req). }
    split.
    + by apply (updateComment_denied req st rc d).
    + by apply (deleteComment_denied req st rc d).
Qed.

Lemma context_missing_signals_witness :
  context_missing (requireProjectMemberOrAdmin anonymous_request sampleStore).2
  = true /\
  forbidden (updateComment anonymous_request sampleStore).2 = true.
Proof.
  destruct context_missing_signals as (Hgate & _ & Hctl).
  split.
  - rewrite (proj1 (Hgate anonymous_request sampleStore (or_introl eq_refl))).
    reflexivity.
  - rewrite (proj1 (Hctl anonymous_request sampleStore cA cA
                      ltac:(vm_compute; reflexivity)
                      ltac:(vm_compute; reflexivity) (or_introl eq_refl))).
    reflexivity.
Defined.

(** ** Editing a soft-deleted comment *)

Lemma blank_Some b : Js.blank (Some b) = false <-> Js.trim b <> "".
Proof.
  unfold Js.blank, Js.truthy. simpl.
  destruct (String.eqb (Js.trim b) "") eqn:E; simpl.
  - apply String.eqb_eq in E. split; [discriminate | congruence].
  - apply String.eqb_neq in E. split; auto.
Qed.

Lemma updateComment_saves req st rc d b :
  comment req = Some rc -> comments st !! comment_id rc = Some d ->
  comment_id d = comment_id rc ->
  canEditOrModerate (authUser req) (project req) (Some d) = true ->
  rb_body (rbody req) = Some b -> Js.trim b <> "" ->
  (String.length (Js.trim b) <= 5000)%nat ->
  updateComment req st
  = (set_comments <[comment_id d := with_body_edited b d]> st,
     Send 200 (JComment (with_body_edited b d))).
Proof.
  intros Hrc Hd Hid Hcan Hb Hne Hlen. unfold updateComment.
  rewrite Hrc, Hd, Hcan, Hb. simpl negb. cbv iota.
  rewrite (proj2 (blank_Some b) Hne).
  unfold Comment_save, Comment_validate. simpl body. simpl comment_id.
  apply String.eqb_neq in Hne. rewrite Hne, andb_false_r.
  destruct (5000 <? String.length (Js.trim b))%nat eqn:E;
    [apply Nat.ltb_lt in E; lia|].
  rewrite Hid, Hd. reflexivity.
Qed.

(** C10 as stated fails: an authorised edit with a non-blank body of 5001
    characters is refused by the [maxlength] validator and nothing is
    saved. *)
Lemma overlong_edit_is_refused :
  let req := request id_root id_cC (commentBody long_body None) in
  Js.blank (rb_body (rbody req)) = false /\
  findById (comments sampleStore) id_cC = Some cC /\ deleted cC = true /\
  PATCH_comment req sampleStore = (sampleStore, Throw (ValidationError "body")).
Proof. intros req. split; [|split; [|split]]; vm_compute; reflexivity. Qed.

(** C10, amended: [updateComment] does not look at [deleted].  For an
    authorised caller and a body that is non-empty after trimming and at
    most 5000 characters long, the edit succeeds on any comment, deleted or
    not: the body is replaced by the trimmed text, [edited] becomes true,
    [deleted] keeps its value (a tombstone stays a tombstone) and no issue
    is touched, so [commentCount] is not adjusted. *)
Theorem updateComment_ignores_deleted req st s u c i p b :
  Store_wf st ->
  user req = Some s -> findById (users st) s = Some u -> isActive u = true ->
  findById (comments st) (params_id req) = Some c ->
  issues st !! issueId c = Some i -> projects st !! projectId i = Some p ->
  isAdmin u || isLead u p
  || (isMember u p && bool_decide (authorId c = user_id u)) = true ->
  rb_body (rbody req) = Some b -> Js.trim b <> "" ->
  (String.length (Js.trim b) <= 5000)%nat ->
  let c' := with_body_edited b c in
  PATCH_comment req st
  = (set_comments <[comment_id c := c']> st, Send 200 (JComment c')) /\
  body c' = Js.trim b /\ edited c' = true /\ deleted c' = deleted c /\
  issues (PATCH_comment req st).1 = issues st.
Proof.
  intros Hwf Hs Hu Ha Hc Hi Hp Hallowed Hb Hne Hlen c'.
  assert (Hpatch : PATCH_comment req st
                   = (set_comments <[comment_id c := c']> st,
                      Send 200 (JComment c'))).
  { unfold PATCH_comment.
    rewrite (comment_route_reaches _ req st s u c i p Hs Hu Ha Hc Hi Hp).
    assert (Hlook : comments st !! comment_id c = Some c)
      by (eapply findById_keyed; [apply Hwf | exact Hc]).
    assert (Hgate : isAdmin u || isLead u p || isMember u p = true)
      by (destruct (isAdmin u), (isLead u p), (isMember u p); done).
    rewrite Hgate.
    apply (updateComment_saves _ st c c b); auto.
    simpl authUser. simpl project. rewrite canEditOrModerate_Some.
    destruct (isAdmin u), (isLead u p), (isMember u p),
      (bool_decide (authorId c = user_id u)); done. }
  rewrite Hpatch. repeat split; reflexivity.
Qed.

Lemma updateComment_ignores_deleted_witness :
  let req := request id_dev id_cC (commentBody " back again " None) in
  exists c',
    PATCH_comment req sampleStore
    = (set_comments <[Oid id_cC := c']> sampleStore, Send 200 (JComment c')) /\
    body c' = "back again" /\ edited c' = true /\ deleted c' = true /\
    commentCount <$> issues (PATCH_comment req sampleStore).1 !! Oid id_issue1
    = Some 2.
Proof.
  intros req.
  destruct (updateComment_ignores_deleted req sampleStore id_dev dev cC issue1
              projectBT " back again "
              ltac:(apply Store_wfb_spec; vm_compute; reflexivity)
              ltac:(vm_compute; reflexivity) ltac:(vm_compute; reflexivity)
              ltac:(vm_compute; reflexivity) ltac:(vm_compute; reflexivity)
              ltac:(vm_compute; reflexivity) ltac:(vm_compute; reflexivity)
              ltac:(vm_compute; reflexivity) ltac:(vm_compute; reflexivity)
              ltac:(vm_compute; discriminate) ltac:(vm_compute; lia))
    as (Hpatch & Hbody & Hed & Hdel & Hiss).
  exists (with_body_edited " back again " cC).
  split; [exact Hpatch|]. rewrite Hiss.
  repeat split; vm_compute; reflexivity.
Defined.

(** ** Membership of a project *)

(** C4 (failing input): the lead of project BT is named in [remove] in
    upper-case hexadecimal.  The string differs from [String(leadUserId)], so
    the guard lets it pass, [createFromHexString] turns it into the lead's
    ObjectId, and [$pull] takes the lead out of [members]: the call answers
    200 instead of 400 and the member list has changed. *)
Theorem updateMembers_accepts_lead_in_upper_case :
  let req := request id_root id_project (membersBody [] [Some id_lead_upper]) in
  let res := POST_project_members req sampleStore in
  createFromHexString id_lead_upper = leadUserId projectBT /\
  members projectBT = [Oid id_lead; Oid id_dev] /\
  res.2 = Send 200 (JProject (projects res.1 !! Oid id_project)) /\
  members <$> projects res.1 !! Oid id_project = Some [Oid id_dev].
Proof. repeat split; vm_compute; reflexivity. Qed.

(** C3 (failing input): after that successful [updateMembers] call the lead
    of the project is not among its members. *)
Theorem updateMembers_can_drop_the_lead :
  let req := request id_root id_project (membersBody [] [Some id_lead_upper]) in
  let res := POST_project_members req sampleStore in
  exists p',
    res.2 = Send 200 (JProject (Some p')) /\
    projects res.1 !! Oid id_project = Some p' /\
    leadUserId p' = Oid id_lead /\
    leadUserId p' ∉ members p'.
Proof.
  exists (with_members [Oid id_dev] projectBT).
  repeat split; try (vm_compute; reflexivity).
  simpl. intros H. apply list_elem_of_In in H. simpl in H.
  destruct H as [H|[]]. discriminate.
Qed.

(** ** Listing comments *)

#[global] Instance comment_le_total : Total comment_le.
Proof.
  intros a b. unfold comment_le, comment_leb.
  destruct (Z.lt_trichotomy (createdAt a) (createdAt b)) as [H|[H|H]].
  - left. apply Z.ltb_lt in H. by rewrite H.
  - destruct (String.leb_total (hex (comment_id a)) (hex (comment_id b)))
      as [Hl|Hl]; [left|right]; rewrite H, Z.eqb_refl, Hl;
      apply orb_true_r.
  - right. apply Z.ltb_lt in H. by rewrite H.
Qed.

(** The page a listing returns is cut out of the matching comments sorted by
    [(createdAt, _id)]. *)
Lemma Comment_find_page_sorted flt s n st :
  exists sorted,
    Sorted comment_le sorted /\
    sorted ≡ₚ filter (fun c => flt c = true) ((map_to_list (comments st)).*2) /\
    Comment_find_page flt (Some s) (Some n) st
    = inr (mongo_limit n (drop (Z.to_nat s) sorted)).
Proof.
  eexists. split; [apply (Sorted_merge_sort comment_le)|].
  split; [apply merge_sort_Permutation | reflexivity].
Qed.

Lemma mongo_limit_length {A} (n : Z) (l : list A) :
  n <> 0 -> (length (mongo_limit n l) <= Z.to_nat (Z.abs n))%nat.
Proof.
  intros Hn. unfold mongo_limit.
  destruct (n =? 0) eqn:E; [apply Z.eqb_eq in E; contradiction|].
  rewrite length_take. lia.
Qed.

(** For a positive page size the cap holds: at most 100 comments (200
    replies) are returned. *)
Lemma page_limit_capped q dflt cap n l :
  0 < cap -> page_limit q dflt cap = Some n -> 0 < n ->
  (length (@mongo_limit Comment n l) <= Z.to_nat cap)%nat.
Proof.
  intros Hcap Hq Hn. unfold page_limit in Hq.
  destruct (Js.parseInt _) as [m|]; [|discriminate].
  injection Hq as <-.
  etransitivity; [apply mongo_limit_length; lia|]. lia.
Qed.

(** C9 (failing input): issue 1 has 151 visible top-level comments and the
    client asks for [?limit=0].  [Math.min(0, 100)] is 0, which the store
    reads as "no limit": all 151 comments come back in one response, more
    than the cap of 100.  A negative page size passes the cap in the same
    way. *)
Theorem listIssueComments_limit_zero_is_unbounded :
  let res0 := GET_issue_comments
                (listRequest id_dev id_issue1 (Some "0") None) busyStore in
  let resNeg := GET_issue_comments
                  (listRequest id_dev id_issue1 (Some "-150") None) busyStore in
  page_limit (Some "0") "20" 100 = Some 0 /\
  (exists l, res0.2 = Send 200 (JComments l 0 0) /\ length l = 151%nat) /\
  (exists l, resNeg.2 = Send 200 (JComments l 0 (-150)) /\ length l = 150%nat).
Proof.
  split; [reflexivity|]. split.
  - eexists. split; [vm_compute; reflexivity | vm_compute; reflexivity].
  - eexists. split; [vm_compute; reflexivity | vm_compute; reflexivity].
Qed.

(** ** Issue keys *)

Arguments Project_findOneAndUpdate_inc : simpl never.
Arguments Issue_insert : simpl never.

Lemma make_key_truthy p : Js.truthy (Some (make_key p)) = true.
Proof. unfold make_key. by destruct (project_key p). Qed.

Lemma findOneAndUpdate_found pid st p :
  projects st !! pid = Some p ->
  Project_findOneAndUpdate_inc pid st
  = (set_projects <[pid := with_nextIssueSeq (nextIssueSeq p + 1) p]> st, Some p).
Proof. intros H. unfold Project_findOneAndUpdate_inc. by rewrite H. Qed.

Lemma findOneAndUpdate_missing pid st :
  projects st !! pid = None -> Project_findOneAndUpdate_inc pid st = (st, None).
Proof. intros H. unfold Project_findOneAndUpdate_inc. by rewrite H. Qed.

Lemma pre_validate_keeps_issues doc st st' r :
  pre_validate doc st = (st', r) -> issues st' = issues st.
Proof.
  unfold pre_validate, Project_findOneAndUpdate_inc.
  repeat case_match; intros; simplify_eq; reflexivity.
Qed.

Lemma pre_validate_truthy doc st st' doc' :
  pre_validate doc st = (st', inr doc') -> Js.truthy (issue_key doc') = true.
Proof.
  unfold pre_validate.
  destruct (Js.truthy (issue_key doc)) eqn:E.
  - by intros [= <- <-].
  - destruct (Project_findOneAndUpdate_inc _ _) as [st1 [p|]];
      intros [= <- <-]. apply make_key_truthy.
Qed.

Lemma Issue_insert_inr doc st st' saved :
  Issue_insert doc st = (st', inr saved) ->
  saved = doc /\ st' = set_issues <[issue_id doc := doc]> st /\
  issues st !! issue_id doc = None /\
  issue_key_exists (issues st) (issue_key doc) = false.
Proof.
  unfold Issue_insert. case_bool_decide as Hid; [discriminate|].
  destruct (issue_key_exists _ _) eqn:E; [discriminate|].
  intros [= <- <-]. repeat split.
  by apply eq_None_not_Some.
Qed.

Lemma Issue_insert_inl doc st st' e :
  Issue_insert doc st = (st', inl e) -> st' = st.
Proof.
  unfold Issue_insert. repeat case_match; intros; simplify_eq; reflexivity.
Qed.

(** C1: the hook leaves a document that already has a key alone.  Otherwise
    one [findOneAndUpdate] both bumps [nextIssueSeq] of the parent project by
    one and hands back the project as it was, and the key becomes the
    project key, a dash and that earlier counter value.  If the project does
    not exist the creation fails and the database is unchanged.  A failed
    creation adds no issue, and an issue that [Issue.create] stores has a
    key. *)
Theorem issue_key_generation doc st :
  (Js.truthy (issue_key doc) = true -> pre_validate doc st = (st, inr doc)) /\
  (forall p,
     Js.truthy (issue_key doc) = false ->
     projects st !! projectId doc = Some p ->
     let st' := set_projects
                  <[projectId doc := with_nextIssueSeq (nextIssueSeq p + 1) p]>
                  st in
     Project_findOneAndUpdate_inc (projectId doc) st = (st', Some p) /\
     pre_validate doc st
     = (st', inr (with_issue_key
                    (Some (project_key p +:+ "-" +:+ Js.show_N (nextIssueSeq p)))
                    doc))) /\
  (Js.truthy (issue_key doc) = false ->
   projects st !! projectId doc = None ->
   Issue_create doc st
   = (st, inl (Error_ "Project not found for issue key generation."))) /\
  (forall st' e, Issue_create doc st = (st', inl e) -> issues st' = issues st) /\
  (forall st' saved,
     Issue_create doc st = (st', inr saved) ->
     Js.truthy (issue_key saved) = true /\
     issues st' = <[issue_id saved := saved]> (issues st)).
Proof.
  split; [|split; [|split; [|split]]].
  - intros H. unfold pre_validate. by rewrite H.
  - intros p Hk Hp st'. split; [by apply findOneAndUpdate_found|].
    unfold pre_validate. rewrite Hk, (findOneAndUpdate_found _ _ _ Hp).
    reflexivity.
  - intros Hk Hp. unfold Issue_create, Issue_validate_phase, pre_validate.
    by rewrite Hk, (findOneAndUpdate_missing _ _ Hp).
  - intros st' e. unfold Issue_create, Issue_validate_phase.
    destruct (pre_validate doc st) as [st1 [e1|doc1]] eqn:Hpre.
    + intros [= <- <-]. by eapply pre_validate_keeps_issues.
    + destruct (Issue_validate doc1).
      * intros [= <- <-]. by eapply pre_validate_keeps_issues.
      * intros H. apply Issue_insert_inl in H as ->.
        by eapply pre_validate_keeps_issues.
  - intros st' saved. unfold Issue_create, Issue_validate_phase.
    destruct (pre_validate doc st) as [st1 [e1|doc1]] eqn:Hpre; [discriminate|].
    destruct (Issue_validate doc1); [discriminate|].
    intros H. apply Issue_insert_inr in H as (-> & -> & _ & _).
    split; [by eapply pre_validate_truthy|].
    simpl. by rewrite (pre_validate_keeps_issues _ _ _ _ Hpre).
Qed.

Lemma issue_key_generation_witness :
  let doc := draft id_issue3 id_project "Search is slow" in
  (exists st' saved,
     Issue_create doc sampleStore = (st', inr saved) /\
     issue_key saved = Some "BT-3" /\
     nextIssueSeq <$> projects st' !! Oid id_project = Some 4%N) /\
  Issue_create (draft id_issue3 id_nowhere "Search is slow") sampleStore
  = (sampleStore, inl (Error_ "Project not found for issue key generation.")).
Proof.
  intros doc. split.
  - destruct (proj1 (proj2 (issue_key_generation doc sampleStore)) projectBT
                ltac:(vm_compute; reflexivity) ltac:(vm_compute; reflexivity))
      as [_ Hpre].
    eexists _, _. split; [|split].
    + unfold Issue_create, Issue_validate_phase. rewrite Hpre.
      vm_compute. reflexivity.
    + vm_compute. reflexivity.
    + vm_compute. reflexivity.
  - apply (proj1 (proj2 (proj2 (issue_key_generation
                                  (draft id_issue3 id_nowhere "Search is slow")
                                  sampleStore))));
      vm_compute; reflexivity.
Defined.

(** ** Concurrent issue creations *)

Lemma show_N_inj n m : Js.show_N n = Js.show_N m -> n = m.
Proof.
  unfold Js.show_N. intros H.
  apply DecimalN.Unsigned.to_uint_inj.
  assert (Some (N.to_uint n) = Some (N.to_uint m)) as [= ->]; [|reflexivity].
  by rewrite <- !NilEmpty.usu, H.
Qed.

Lemma key_inj K n m :
  K +:+ "-" +:+ Js.show_N n = K +:+ "-" +:+ Js.show_N m -> n = m.
Proof.
  intros H. apply String.app_inj in H. apply String.app_inj in H.
  by apply show_N_inj.
Qed.

Lemma counter_range_S c0 k :
  counter_range c0 (S k) = counter_range c0 k ++ [(c0 + N.of_nat k)%N].
Proof. unfold counter_range. by rewrite seq_S, fmap_app. Qed.

Lemma NoDup_counter_range c0 k : NoDup (counter_range c0 k).
Proof.
  unfold counter_range. apply NoDup_fmap_2; [|apply NoDup_seq].
  intros i j H. lia.
Qed.

Lemma omap_insert_new (seqs : list (option N)) i x :
  seqs !! i = Some None ->
  omap id (<[i := Some x]> seqs) ≡ₚ x :: omap id seqs.
Proof.
  revert i. induction seqs as [|h r IH]; intros [|i] H; simplify_eq/=.
  - reflexivity.
  - destruct h as [y|]; simpl.
    + rewrite (IH i H). apply perm_swap.
    + by apply IH.
Qed.

Lemma NoDup_omap_lookup (seqs : list (option N)) i j n :
  NoDup (omap id seqs) ->
  seqs !! i = Some (Some n) -> seqs !! j = Some (Some n) -> i = j.
Proof.
  revert i j. induction seqs as [|h r IH]; intros i j Hnd Hi Hj; [done|].
  assert (forall k, r !! k = Some (Some n) -> n ∈ omap id r) as Hin.
  { intros k Hk. apply list_elem_of_omap. exists (Some n).
    split; [by eapply list_elem_of_lookup_2 | done]. }
  destruct i as [|i], j as [|j]; simplify_eq/=; try done.
  - apply NoDup_cons in Hnd as [Hn _]. destruct Hn. by eapply Hin.
  - apply NoDup_cons in Hnd as [Hn _]. destruct Hn. by eapply Hin.
  - f_equal. apply IH; try done.
    destruct h; simpl in Hnd; [by apply NoDup_cons in Hnd as [_ ?] | done].
Qed.

Lemma issue_key_exists_false m k j b :
  issue_key_exists m k = false -> m !! j = Some b -> issue_key b <> k.
Proof.
  unfold issue_key_exists. intros Hex Hj Hk.
  assert (existsb (fun kv : ObjectId * Issue => bool_decide (issue_key kv.2 = k))
                  (map_to_list m) = true) as Htrue; [|congruence].
  apply existsb_exists. exists (j, b). split.
  - apply list_elem_of_In. by apply elem_of_map_to_list.
  - simpl. by apply bool_decide_eq_true.
Qed.

Lemma unique_issue_keys_insert m d :
  unique_issue_keys m -> issue_key_exists m (issue_key d) = false ->
  unique_issue_keys (<[issue_id d := d]> m).
Proof.
  intros Hu Hex i j a b Hi Hj Hk.
  destruct (decide (issue_id d = i)) as [<-|Hni];
    destruct (decide (issue_id d = j)) as [<-|Hnj]; [done| | |].
  - rewrite lookup_insert_eq in Hi. rewrite lookup_insert_ne in Hj by done.
    simplify_eq. by destruct (issue_key_exists_false _ _ _ _ Hex Hj).
  - rewrite lookup_insert_eq in Hj. rewrite lookup_insert_ne in Hi by done.
    simplify_eq. by destruct (issue_key_exists_false _ _ _ _ Hex Hi).
  - rewrite lookup_insert_ne in Hi, Hj by done. by eapply Hu.
Qed.

(** A creation that runs alone is the two steps of its task. *)
Lemma Issue_create_as_steps doc st :
  let s1 := task_step (Pending doc) st in
  let s2 := task_step s1.2 s1.1 in
  match Issue_create doc st with
  | (st', inr d) => s2 = (st', Saved d)
  | (st', inl e) => s2 = (st', Rejected e)
  end.
Proof.
  unfold Issue_create. simpl.
  destruct (Issue_validate_phase doc st) as [st1 [e|d]]; simpl; [done|].
  by destruct (Issue_insert d st1) as [st2 [e|d']].
Qed.

Section creations.

(** A batch of creations on project [pid], whose key is [K] and whose counter
    stood at [c0] when the batch began. *)
Variables (pid : ObjectId) (K : string) (c0 : N).

Lemma task_step_inv st ts seqs i t :
  creations_inv pid K c0 st ts seqs ->
  ts !! i = Some t ->
  exists seqs',
    creations_inv pid K c0 (task_step t st).1 (<[i := (task_step t st).2]> ts)
                  seqs'.
Proof.
  intros [(p & Hp & HK & Hseq) Hdrew Hrange Huniq] Hi.
  destruct (Forall2_lookup_l _ _ _ _ _ Hdrew Hi) as (s & Hs & Hts).
  destruct Hts as [d Hkey Hpid | d n Hkey | d n Hkey | e n].
  - (* the hook draws the next counter value *)
    set (c := nextIssueSeq p).
    assert (Hpre : pre_validate d st
                   = (set_projects <[pid := with_nextIssueSeq (c + 1) p]> st,
                      inr (with_issue_key
                             (Some (K +:+ "-" +:+ Js.show_N c)) d))).
    { unfold pre_validate. rewrite Hkey, Hpid, (findOneAndUpdate_found _ _ _ Hp).
      unfold make_key. by rewrite HK. }
    exists (<[i := Some c]> seqs).
    assert (Hlen : length (omap id (<[i := Some c]> seqs))
                   = S (length (omap id seqs)))
      by (by rewrite (omap_insert_new _ _ _ Hs)).
    assert (Hst : projects (task_step (Pending d) st).1
                  = <[pid := with_nextIssueSeq (c + 1) p]> (projects st) /\
                  issues (task_step (Pending d) st).1 = issues st /\
                  drew pid K (task_step (Pending d) st).2 (Some c)).
    { simpl. unfold Issue_validate_phase. rewrite Hpre.
      destruct (Issue_validate _); simpl; repeat split; by constructor. }
    destruct Hst as (Hprj & Hiss & Hd).
    constructor.
    + exists (with_nextIssueSeq (c + 1) p). rewrite Hprj, lookup_insert_eq.
      repeat split; [done|]. simpl. rewrite Hlen. unfold c. lia.
    + by apply Forall2_insert.
    + rewrite Hlen, counter_range_S, (omap_insert_new _ _ _ Hs).
      unfold c. rewrite Hseq, <- Permutation_cons_append.
      by apply Permutation_cons.
    + by rewrite Hiss.
  - (* the insert goes through the unique index *)
    exists seqs. simpl.
    destruct (Issue_insert d st) as [st' [e|d']] eqn:Hins; simpl.
    + apply Issue_insert_inl in Hins as ->.
      constructor; eauto.
      rewrite <- (list_insert_id seqs i (Some n)) by done.
      apply Forall2_insert; [done | constructor].
    + apply Issue_insert_inr in Hins as (-> & -> & _ & Hex).
      constructor; simpl; eauto.
      * rewrite <- (list_insert_id seqs i (Some n)) by done.
        apply Forall2_insert; [done | by constructor].
      * by apply unique_issue_keys_insert.
  - exists seqs. simpl. rewrite list_insert_id by done. by constructor; eauto.
  - exists seqs. simpl. rewrite list_insert_id by done. by constructor; eauto.
Qed.

Lemma run_inv sched : forall st ts seqs,
  creations_inv pid K c0 st ts seqs ->
  exists seqs',
    creations_inv pid K c0 (run sched st ts).1 (run sched st ts).2 seqs'.
Proof.
  induction sched as [|i sched IH]; intros st ts seqs Hinv; simpl.
  - eauto.
  - destruct (ts !! i) as [t|] eqn:Hi; [|eauto].
    destruct (task_step_inv _ _ _ i t Hinv Hi) as (seqs1 & Hinv1).
    destruct (task_step t st) as [st1 t1]. eauto.
Qed.

End creations.

Lemma unique_issue_keys_NoDup m :
  NoDup ((fun kv : ObjectId * Issue => issue_key kv.2) <$> map_to_list m) ->
  unique_issue_keys m.
Proof.
  intros Hnd i j a b Hi Hj Hk.
  apply elem_of_map_to_list, list_elem_of_lookup in Hi as [x Hx].
  apply elem_of_map_to_list, list_elem_of_lookup in Hj as [y Hy].
  assert (x = y) as ->; [|congruence].
  eapply (NoDup_lookup _ x y (issue_key a) Hnd).
  - by rewrite list_lookup_fmap, Hx.
  - by rewrite list_lookup_fmap, Hy, Hk.
Qed.

(** C2: any number of issue creations on one project run concurrently, their
    store operations interleaved in an arbitrary order.  Whatever the
    schedule, two creations never hold the same key; the counter values
    drawn are, up to order, the consecutive values starting at the
    project's initial counter, one per creation that has passed the hook,
    and the project's counter has advanced by exactly that number; the
    collection never contains two issues with the same key. *)
Theorem concurrent_creations_get_distinct_keys sched st docs pid p :
  projects st !! pid = Some p ->
  Forall (fun d => Js.truthy (issue_key d) = false /\ projectId d = pid) docs ->
  unique_issue_keys (issues st) ->
  let st' := (run sched st (Pending <$> docs)).1 in
  let ts' := (run sched st (Pending <$> docs)).2 in
  (forall i j d1 d2,
     i <> j -> ts' !! i ≫= held = Some d1 -> ts' !! j ≫= held = Some d2 ->
     issue_key d1 <> issue_key d2) /\
  (exists p' seqs,
     projects st' !! pid = Some p' /\
     Forall2 (drew pid (project_key p)) ts' seqs /\
     omap id seqs ≡ₚ counter_range (nextIssueSeq p) (length (omap id seqs)) /\
     nextIssueSeq p' = (nextIssueSeq p + N.of_nat (length (omap id seqs)))%N) /\
  unique_issue_keys (issues st').
Proof.
  intros Hp Hdocs Huniq st' ts'.
  assert (Hinit : creations_inv pid (project_key p) (nextIssueSeq p) st
                    (Pending <$> docs) (replicate (length docs) None)).
  { assert (Hnil : omap id (replicate (length docs) (@None N)) = []).
    { clear. induction docs; simpl; auto. }
    constructor.
    - exists p. rewrite Hnil. simpl. repeat split; [done | lia].
    - clear -Hdocs. induction Hdocs as [|d ds [Hk Hpid] _ IH]; simpl;
        constructor; [by constructor | done].
    - by rewrite Hnil.
    - done. }
  destruct (run_inv _ _ _ sched _ _ _ Hinit)
    as (seqs & [(p' & Hp' & HK & Hseq) Hdrew Hrange Hu]).
  fold st' in Hp', Hu. fold ts' in Hdrew.
  split; [|split; [eauto 10 | done]].
  intros i j d1 d2 Hij H1 H2 Hkeys.
  assert (Hnd : NoDup (omap id seqs))
    by (rewrite Hrange; apply NoDup_counter_range).
  assert (forall k d, ts' !! k ≫= held = Some d ->
            exists n, seqs !! k = Some (Some n) /\
                      issue_key d = Some (project_key p +:+ "-" +:+ Js.show_N n))
    as Hheld.
  { intros k d Hk. destruct (ts' !! k) as [t|] eqn:Ht; [|done]. simpl in Hk.
    destruct (Forall2_lookup_l _ _ _ _ _ Hdrew Ht) as (s & Hs & Hts).
    destruct Hts; simplify_eq/=; eauto. }
  destruct (Hheld i d1 H1) as (n1 & Hs1 & Hk1).
  destruct (Hheld j d2 H2) as (n2 & Hs2 & Hk2).
  rewrite Hk1, Hk2 in Hkeys. injection Hkeys as Hkeys.
  apply key_inj in Hkeys as ->.
  by destruct (Hij (NoDup_omap_lookup _ _ _ _ Hnd Hs1 Hs2)).
Qed.

Lemma concurrent_creations_get_distinct_keys_witness :
  let docs := [draft id_issue3 id_project "Search is slow";
               draft id_issue4 id_project "Typo on the login page";
               draft id_issue5 id_project "Export drops rows"] in
  let res := run [0; 1; 2; 1; 0; 2]%nat sampleStore (Pending <$> docs) in
  (issue_key <$> (res.2 !! 0%nat ≫= held) = Some (Some "BT-3") /\
   issue_key <$> (res.2 !! 1%nat ≫= held) = Some (Some "BT-4") /\
   issue_key <$> (res.2 !! 2%nat ≫= held) = Some (Some "BT-5")) /\
  (forall i j d1 d2,
     i <> j -> res.2 !! i ≫= held = Some d1 -> res.2 !! j ≫= held = Some d2 ->
     issue_key d1 <> issue_key d2) /\
  unique_issue_keys (issues res.1).
Proof.
  intros docs res.
  split; [repeat split; vm_compute; reflexivity|].
  destruct (concurrent_creations_get_distinct_keys
              [0; 1; 2; 1; 0; 2]%nat sampleStore docs (Oid id_project) projectBT
              ltac:(vm_compute; reflexivity)
              ltac:(repeat constructor)
              ltac:(apply unique_issue_keys_NoDup;
                    apply (bool_decide_unpack _); vm_compute; exact I))
    as (Hdistinct & _ & Hunique).
  split; [exact Hdistinct | exact Hunique].
Defined.

(** ** The lead stays a member: what the controllers do guarantee *)

Lemma addToSet_keeps xs l x : x ∈ l -> x ∈ addToSet xs l.
Proof.
  unfold addToSet. revert l. induction xs as [|y xs IH]; intros l Hx; [done|].
  simpl. apply IH. case_bool_decide; [done|]. apply elem_of_app. by left.
Qed.

Lemma addToSet_adds xs l x : x ∈ xs -> x ∈ addToSet xs l.
Proof.
  unfold addToSet. revert l. induction xs as [|y xs IH]; intros l Hx.
  - by apply elem_of_nil in Hx.
  - simpl. apply elem_of_cons in Hx as [->|Hx]; [|by apply IH].
    apply (addToSet_keeps xs). case_bool_decide; [done|].
    apply elem_of_app. right. by apply list_elem_of_singleton.
Qed.

Lemma pull_keeps xs l x : x ∈ l -> x ∉ xs -> x ∈ pull xs l.
Proof. intros Hl Hx. unfold pull. by apply list_elem_of_filter. Qed.

Lemma set_array_head x l : exists r, Js.set_array (x :: l) = x :: r.
Proof.
  unfold Js.set_array. cbn [Js.uniq_from].
  case_bool_decide as H; [by apply elem_of_nil in H | eauto].
Qed.

Lemma Project_create_inr newId k n d lead mems st st' p :
  Project_create newId k n d lead mems st = (st', inr p) ->
  exists leadId memIds,
    castObjectId lead = Some leadId /\ mapM castObjectId mems = Some memIds /\
    leadUserId p = leadId /\ members p = memIds /\ nextIssueSeq p = 1%N /\
    st' = set_projects <[newId := p]> st.
Proof.
  unfold Project_create. intros H.
  destruct (castObjectId lead) as [leadId|]; [|discriminate].
  destruct (mapM castObjectId mems) as [memIds|]; [|discriminate].
  repeat (case_match; try discriminate). simplify_eq.
  eexists _, _. repeat split.
Qed.

(** A project that [createProject] creates has its lead among its members
    and its counter at 1. *)
Lemma createProject_lead_member newId req st st' p :
  createProject newId req st = (st', Send 201 (JProject (Some p))) ->
  leadUserId p ∈ members p /\ nextIssueSeq p = 1%N /\
  projects st' !! newId = Some p.
Proof.
  unfold createProject. intros H.
  destruct (set_array_head (default "" (rb_leadUserId (rbody req)))
                           (rb_members (rbody req))) as [r Hr].
  rewrite Hr in H.
  repeat match type of H with
         | context [Project_create ?a ?b ?c ?d ?e ?f ?g] =>
             destruct (Project_create a b c d e f g) as [st1 [e1|p1]] eqn:Hc
         | context [if ?x then _ else _] => destruct x eqn:?
         | context [match ?x with _ => _ end] => destruct x eqn:?
         end; try discriminate.
  simplify_eq.
  apply Project_create_inr in Hc
    as (leadId & memIds & Hlead & Hmems & <- & <- & Hseq & ->).
  apply mapM_Some_1 in Hmems. inversion Hmems as [|? y ? k' Hy Hk]; subst.
  rewrite Hlead in Hy. injection Hy as <-.
  repeat split; [|done|apply lookup_insert_eq].
  apply elem_of_cons. by left.
Qed.

(** After an [updateProject] that changes the lead of an existing project,
    the new lead is a member. *)
Lemma updateProject_lead_member req st st' p0 l updated :
  project req = Some p0 -> rb_leadUserId (rbody req) = Some l ->
  updateProject req st = (st', Send 200 (JProject (Some updated))) ->
  exists p', projects st' !! project_id p0 = Some p' /\
             leadUserId p' = createFromHexString l /\
             leadUserId p' ∈ members p'.
Proof.
  intros Hp0 Hl. unfold updateProject. rewrite Hp0, Hl. simpl.
  destruct (_ && _); [discriminate|].
  destruct (isValidId l) eqn:Hv; simpl; [|discriminate].
  destruct (bool_decide _); simpl; [|discriminate].
  unfold castObjectId. rewrite Hv. simpl.
  unfold Project_findByIdAndUpdate. simpl.
  repeat (case_match; try discriminate); intros; simplify_eq.
  eexists. simpl. rewrite lookup_alter, decide_True by done.
  rewrite lookup_insert_eq. simpl. repeat split.
  apply (addToSet_adds [_]). apply list_elem_of_singleton. reflexivity.
Qed.

Lemma Project_updateOne_members_lead pid adds rems st st' p :
  Project_updateOne_members pid adds rems st = (st', None) ->
  projects st !! pid = Some p ->
  leadUserId p ∈ members p -> leadUserId p ∉ rems ->
  exists p', projects st' !! pid = Some p' /\
             leadUserId p' = leadUserId p /\ leadUserId p' ∈ members p'.
Proof.
  unfold Project_updateOne_members. intros H Hst Hin Hrm.
  destruct adds as [|a adds], rems as [|r rems]; simplify_eq;
    cbn [projects set_projects];
    rewrite ?lookup_alter, ?decide_True, ?Hst by done;
    eexists; (split; [reflexivity|]); (split; [reflexivity|]);
    first [ exact Hin | exact (pull_keeps _ _ _ Hin Hrm)
          | exact (addToSet_keeps _ _ _ Hin) ].
Qed.

(** X24: [updateMembers] keeps the lead a member whenever none of the ids to
    remove denotes the lead: after an accepted call on a project whose lead
    is a member, the project still has the same lead and the lead is still
    among its members. *)
Lemma updateMembers_keeps_lead req st st' p payload :
  project req = Some p -> projects st !! project_id p = Some p ->
  leadUserId p ∈ members p ->
  Forall (fun s => createFromHexString s <> leadUserId p)
         (clean_ids (rb_remove (rbody req))) ->
  updateMembers req st = (st', Send 200 payload) ->
  exists p', projects st' !! project_id p = Some p' /\
             leadUserId p' = leadUserId p /\ leadUserId p' ∈ members p'.
Proof.
  intros Hp Hst Hin Hrm. unfold updateMembers. rewrite Hp.
  destruct (find _ _); [discriminate|].
  destruct (mapM _ _); [|discriminate].
  destruct (negb _); [discriminate|].
  destruct (existsb _ _); [discriminate|].
  destruct (Project_updateOne_members _ _ _ _) as [st1 [e|]] eqn:Hu;
    [discriminate|].
  intros [= <- _].
  eapply Project_updateOne_members_lead; eauto.
  intros Hx. apply list_elem_of_fmap in Hx as (s & Hs & Hx).
  rewrite Forall_forall in Hrm. by destruct (Hrm s Hx).
Qed.

(** Every answer of [updateMembers] other than 200 leaves the database
    untouched: all checks come before the update. *)
Lemma updateMembers_rejection_writes_nothing req st :
  (forall payload, (updateMembers req st).2 <> Send 200 payload) ->
  (updateMembers req st).1 = st.
Proof.
  unfold updateMembers, Project_updateOne_members.
  repeat case_match; simplify_eq; simpl; try reflexivity;
    intros Hno; by destruct (Hno _ eq_refl).
Qed.

(** X25: the guard of [updateMembers] does reject the lead's id in the
    spelling [String(leadUserId)]: a request whose [remove] list contains
    that string is answered 400 (or fails on a cast) and writes nothing. *)
Lemma updateMembers_rejects_lead_literal req st p :
  project req = Some p ->
  String_ (leadUserId p) ∈ clean_ids (rb_remove (rbody req)) ->
  (exists msg, updateMembers req st = (st, Send 400 (JError msg)))
  \/ updateMembers req st = (st, Throw (Error_ "CastError")).
Proof.
  intros Hp Hin.
  assert (existsb (fun id => String.eqb id (String_ (leadUserId p)))
                  (clean_ids (rb_remove (rbody req))) = true) as Ht.
  { apply existsb_exists. exists (String_ (leadUserId p)).
    split; [by apply list_elem_of_In | apply String.eqb_refl]. }
  unfold updateMembers. rewrite Hp, Ht.
  repeat case_match; eauto.
Qed.

(** *** The batched existence check *)

Lemma elem_of_uniq_from seen l x :
  x ∈ Js.uniq_from seen l <-> x ∈ l /\ x ∉ seen.
Proof.
  revert seen. induction l as [|y l IH]; intros seen; simpl.
  - split; [intros H | intros [H _]]; by apply elem_of_nil in H.
  - case_bool_decide as Hy.
    + rewrite IH. split.
      * intros [Hx Hs]. split; [by apply elem_of_cons; right | done].
      * intros [Hx Hs]. split; [|done].
        apply elem_of_cons in Hx as [->|Hx]; [contradiction | done].
    + split.
      * intros Hx. apply elem_of_cons in Hx as [->|Hx].
        -- split; [by apply elem_of_cons; left | done].
        -- apply IH in Hx as [Hx Hs]. apply not_elem_of_cons in Hs as [_ Hs].
           split; [by apply elem_of_cons; right | done].
      * intros [Hx Hs]. apply elem_of_cons.
        destruct (decide (x = y)) as [Heq|Hne]; [by left|]. right.
        apply IH. apply elem_of_cons in Hx as [Hx|Hx]; [contradiction|].
        split; [done|]. by apply not_elem_of_cons.
Qed.

Lemma elem_of_set_array l x : x ∈ Js.set_array l <-> x ∈ l.
Proof.
  unfold Js.set_array. rewrite elem_of_uniq_from.
  split; [by intros [? _] | intros ?; split; [done | apply not_elem_of_nil]].
Qed.

Lemma size_list_to_set_le (l : list ObjectId) :
  (size (list_to_set l : gset ObjectId) <= length l)%nat.
Proof.
  induction l as [|x l IH]; [done|].
  cbn [list_to_set length]. rewrite size_union_alt, size_singleton.
  assert (size (list_to_set l ∖ {[x]} : gset ObjectId)
          <= size (list_to_set l : gset ObjectId))%nat
    by (apply subseteq_size; intros y Hy;
        by apply elem_of_difference in Hy as [? _]).
  lia.
Qed.

(** If as many documents match as there are ids, every id has a document. *)
Lemma countDocuments_in_all {A} (m : gmap ObjectId A) (oids : list ObjectId) o :
  countDocuments_in m oids = length oids -> o ∈ oids -> is_Some (m !! o).
Proof.
  unfold countDocuments_in. intros Hcount Ho.
  set (m' := filter (fun kv : ObjectId * A => kv.1 ∈ oids) m) in *.
  destruct (m !! o) as [a|] eqn:Hm; [eauto|]. exfalso.
  assert (dom m' ⊆ (list_to_set oids ∖ {[o]} : gset ObjectId)) as Hsub.
  { intros k Hk. apply elem_of_dom in Hk as [a Ha].
    apply map_lookup_filter_Some in Ha as [Ha Hin]. simpl in Hin.
    apply elem_of_difference. split; [by apply elem_of_list_to_set|].
    intros ->%elem_of_singleton. congruence. }
  apply subseteq_size in Hsub. rewrite size_dom in Hsub.
  assert (size (list_to_set oids ∖ {[o]} : gset ObjectId)
          < size (list_to_set oids : gset ObjectId))%nat as Hlt.
  { apply subset_size. apply subset_difference_elem_of.
    by apply elem_of_list_to_set. }
  pose proof (size_list_to_set_le oids). lia.
Qed.

Lemma all_valid_cast (l : list string) :
  List.find (fun uid => negb (isValidId uid)) l = None ->
  forall l', (forall x, x ∈ l' -> x ∈ l) -> is_Some (mapM castObjectId l').
Proof.
  intros Hfind l' Hsub. apply mapM_is_Some_2, Forall_forall.
  intros x Hx. simpl. unfold castObjectId.
  pose proof (find_none _ _ Hfind x) as Hv.
  rewrite <- list_elem_of_In in Hv. specialize (Hv (Hsub x Hx)).
  apply negb_false_iff in Hv. rewrite Hv. eauto.
Qed.

(** X26: an id that names no user, in [add] or in [remove], makes
    [updateMembers] answer 400 and write nothing. *)
Lemma updateMembers_rejects_unknown_user req st s :
  s ∈ clean_ids (rb_add (rbody req)) ++ clean_ids (rb_remove (rbody req)) ->
  findById (users st) s = None ->
  exists msg, updateMembers req st = (st, Send 400 (JError msg)).
Proof.
  intros Hs Hnone. unfold updateMembers.
  set (ids := clean_ids (rb_add (rbody req)) ++ clean_ids (rb_remove (rbody req)))
    in *.
  destruct (List.find _ ids) as [bad|] eqn:Hfind; [eauto|].
  destruct (all_valid_cast ids Hfind (Js.set_array ids)) as [oids Hoids];
    [intros x Hx; exact (proj1 (elem_of_set_array _ _) Hx)|].
  rewrite Hoids.
  destruct (negb _) eqn:Hcount; [eauto|]. exfalso.
  apply negb_false_iff, Nat.eqb_eq in Hcount.
  rewrite (length_mapM _ _ _ Hoids) in Hcount.
  apply mapM_Some_1 in Hoids.
  assert (s ∈ Js.set_array ids) as Hin by (by apply elem_of_set_array).
  apply list_elem_of_lookup in Hin as [i Hi].
  destruct (Forall2_lookup_l _ _ _ _ _ Hoids Hi) as (o & Ho & Hcast).
  destruct (countDocuments_in_all _ _ o Hcount) as [u Hu];
    [by eapply list_elem_of_lookup_2|].
  unfold findById in Hnone. rewrite Hcast in Hnone. simpl in Hnone. congruence.
Qed.

(** ** Listing comments: what does hold *)

(** With numeric paging parameters, [listIssueComments] answers with a page
    cut out of the visible top-level comments of the issue, sorted by
    [(createdAt, _id)]; for a positive page size the page has at most 100
    entries. *)
Lemma listIssueComments_page req st i s n :
  isValidId (params_id req) = true -> issue req = Some i ->
  page_skip (query_skip req) = Some s ->
  page_limit (query_limit req) "20" 100 = Some n ->
  exists sorted,
    Sorted comment_le sorted /\
    (forall c, c ∈ sorted <->
               (exists k, comments st !! k = Some c) /\
               issueId c = issue_id i /\ parentId c = None /\ deleted c = false) /\
    listIssueComments req st
    = (st, Send 200 (JComments (mongo_limit n (drop (Z.to_nat s) sorted)) s n)) /\
    (0 < n -> (length (mongo_limit n (drop (Z.to_nat s) sorted)) <= 100)%nat).
Proof.
  intros Hv Hi Hs Hn.
  destruct (Comment_find_page_sorted (is_top_level (issue_id i)) s n st)
    as (sorted & Hsorted & Hperm & Hpage).
  exists sorted. split; [done|]. split; [|split].
  - intros c. rewrite Hperm, list_elem_of_filter.
    unfold is_top_level. rewrite !andb_true_iff, !bool_decide_eq_true,
      negb_true_iff, list_elem_of_fmap.
    split.
    + intros [[[? ?] ?] ([k c'] & -> & Hin)].
      apply elem_of_map_to_list in Hin. eauto 10.
    + intros ([k Hk] & ? & ? & ?). repeat split; try done.
      exists (k, c). split; [done | by apply elem_of_map_to_list].
  - unfold listIssueComments. rewrite Hv, Hi, Hs, Hn. simpl negb. cbv iota.
    by rewrite Hpage.
  - intros Hpos.
    exact (page_limit_capped (query_limit req) "20" 100 n _ eq_refl Hn Hpos).
Qed.


(** ** The JavaScript helpers on small inputs *)

Example parseInt_examples :
  Js.parseInt "20" = Some 20 /\ Js.parseInt "  -12abc" = Some (-12) /\
  Js.parseInt "+7" = Some 7 /\ Js.parseInt "0" = Some 0 /\
  Js.parseInt "abc" = None /\ Js.parseInt "-" = None.
Proof. repeat split. Qed.

Example page_parameters :
  page_limit None "20" 100 = Some 20 /\ page_limit (Some "") "20" 100 = Some 20 /\
  page_limit (Some "500") "20" 100 = Some 100 /\
  page_limit (Some "0") "20" 100 = Some 0 /\
  page_limit (Some "-5") "20" 100 = Some (-5) /\
  page_limit (Some "x") "20" 100 = None /\
  page_skip (Some "-3") = Some 0 /\ page_skip (Some "40") = Some 40.
Proof. repeat split. Qed.

Example trim_examples :
  Js.trim "  a b  " = "a b" /\ Js.trim "   " = "" /\
  Js.blank (Some "   ") = true /\ Js.blank None = true /\
  Js.blank (Some " x") = false.
Proof. repeat split. Qed.

Example set_array_keeps_first_occurrences :
  Js.set_array ["b"; "a"; "b"; "c"; "a"] = ["b"; "a"; "c"].
Proof. reflexivity. Qed.

Example ObjectId_examples :
  isValidId id_lead = true /\ isValidId id_lead_upper = true /\
  isValidId "64f1a2b3c4d5e6f7a8b9c0d" = false /\
  isValidId "64f1a2b3c4d5e6f7a8b9c0dz" = false /\
  castObjectId id_lead_upper = Some (Oid id_lead) /\
  String_ (createFromHexString id_lead_upper) = id_lead.
Proof. repeat split. Qed.

Example mongo_limit_examples :
  mongo_limit 2 [1; 2; 3] = [1; 2] /\ mongo_limit 0 [1; 2; 3] = [1; 2; 3] /\
  mongo_limit (-2) [1; 2; 3] = [1; 2].
Proof. repeat split. Qed.

Example make_key_example : make_key projectBT = "BT-3".
Proof. reflexivity. Qed.

(** * Further properties of the controllers and routes *)

(** ** Callers that do not resolve to an active account *)

(** X1: whatever handlers a route lists after [loadCurrentUser], a caller
    whose token id is missing, malformed, unknown or belongs to a deactivated
    account is answered 401 or 403 by [loadCurrentUser]; none of the later
    handlers runs and nothing is written. *)
Theorem unresolved_caller_is_stopped hs req st :
  match user req ≫= findById (users st) with
  | Some u => isActive u = false
  | None => True
  end ->
  exists code msg,
    chain (loadCurrentUser :: hs) req st = (st, Send code (JError msg)) /\
    (code = 401 \/ code = 403)%nat.
Proof.
  intros H. cbn [chain]. unfold loadCurrentUser.
  destruct (user req) as [s|]; simpl in H; [|eauto 10].
  destruct (negb (Js.truthy (Some s)) || negb (isValidId s)); [eauto 10|].
  destruct (findById (users st) s) as [u|]; [|eauto 10].
  rewrite H. eauto 10.
Qed.

Lemma unresolved_caller_is_stopped_witness :
  exists code msg,
    PATCH_project (request id_retired id_project
                     (updateBody (Some "Renamed") None None)) widerStore
    = (widerStore, Send code (JError msg)) /\ (code = 401 \/ code = 403)%nat.
Proof.
  apply (unresolved_caller_is_stopped
           [loadProject; requireProjectLeadOrAdmin; updateProject]
           (request id_retired id_project (updateBody (Some "Renamed") None None))
           widerStore).
  vm_compute. reflexivity.
Defined.

(** ** The two project gates *)

(** X2: access is monotone.  A request that passes the lead-or-admin gate
    also passes the member-or-admin gate, and its caller may edit or delete
    every comment of the project. *)
Theorem lead_gate_implies_member_gate req st :
  requireProjectLeadOrAdmin req st = (st, Next req) ->
  requireProjectMemberOrAdmin req st = (st, Next req) /\
  forall c, canEditOrModerate (authUser req) (project req) (Some c) = true.
Proof.
  unfold requireProjectLeadOrAdmin, requireProjectMemberOrAdmin,
    canEditOrModerate, isLead.
  destruct (authUser req) as [u|]; [|discriminate].
  destruct (project req) as [p|]; [|discriminate].
  destruct (isAdmin u); simpl; [done|].
  destruct (String.eqb (String_ (leadUserId p)) (String_ (user_id u))); simpl;
    [done | discriminate].
Qed.

Lemma lead_gate_implies_member_gate_witness :
  let req := set_project projectBT
               (set_authUser lead_ (request id_lead id_project emptyBody)) in
  requireProjectMemberOrAdmin req sampleStore = (sampleStore, Next req) /\
  canEditOrModerate (authUser req) (project req) (Some cA) = true.
Proof.
  intros req.
  destruct (lead_gate_implies_member_gate req sampleStore
              ltac:(vm_compute; reflexivity)) as [Hgate Hmod].
  split; [exact Hgate | exact (Hmod cA)].
Defined.

(** ** Who may use the project routes *)

Lemma project_route_reaches (gate h : Handler) req st s u p :
  user req = Some s -> findById (users st) s = Some u -> isActive u = true ->
  findById (projects st) (params_id req) = Some p ->
  chain [loadCurrentUser; loadProject; gate; h] req st
  = chain [gate; h] (set_project p (set_authUser u req)) st.
Proof.
  intros Hs Hu Ha Hp.
  rewrite (chain_next _ _ _ _ _ _ (loadCurrentUser_ok _ _ _ _ Hs Hu Ha)).
  by rewrite (chain_next _ _ _ _ _ _
                (loadProject_ok (set_authUser u req) st p Hp)).
Qed.

(** X3: for a caller who resolves to the active user [u]: a developer cannot
    create projects; on an existing project, a caller who is neither admin
    nor the project's lead can neither update it nor change its members, a
    caller who is not admin cannot delete it, and a caller who is neither
    admin, lead nor member cannot read it.  Each refusal is a 403 and leaves
    the database as it is. *)
Theorem project_routes_authorization req st s u :
  user req = Some s -> findById (users st) s = Some u -> isActive u = true ->
  (role u = developer ->
   forall newId,
     POST_projects newId req st
     = (st, Send 403 (JError "Insufficient permissions."))) /\
  (forall p,
     findById (projects st) (params_id req) = Some p ->
     (isAdmin u || isLead u p = false ->
      PATCH_project req st
      = (st, Send 403 (JError "Lead or admin role required.")) /\
      POST_project_members req st
      = (st, Send 403 (JError "Lead or admin role required."))) /\
     (role u <> admin ->
      DELETE_project req st
      = (st, Send 403 (JError "Insufficient permissions."))) /\
     (isAdmin u || isLead u p || isMember u p = false ->
      GET_project req st = (st, Send 403 (JError "Project access denied.")))).
Proof.
  intros Hs Hu Ha. split.
  - intros Hrole newId. unfold POST_projects.
    rewrite (chain_next _ _ _ _ _ _ (loadCurrentUser_ok _ _ _ _ Hs Hu Ha)).
    apply chain_send. unfold requireRole. cbn [authUser set_authUser].
    rewrite Hrole. reflexivity.
  - intros p Hp.
    unfold PATCH_project, POST_project_members, DELETE_project, GET_project.
    rewrite !(project_route_reaches _ _ req st s u p Hs Hu Ha Hp).
    split; [|split].
    + intros Hgate. split; apply chain_send;
        unfold requireProjectLeadOrAdmin;
        cbn [authUser project set_authUser set_project]; by rewrite Hgate.
    + intros Hrole. apply chain_send. unfold requireRole.
      cbn [authUser project set_authUser set_project].
      rewrite bool_decide_eq_false_2; [reflexivity|].
      intros Hin. apply list_elem_of_singleton in Hin. contradiction.
    + intros Hgate. apply chain_send. unfold requireProjectMemberOrAdmin.
      cbn [authUser project set_authUser set_project]. by rewrite Hgate.
Qed.

Lemma project_routes_authorization_witness :
  POST_projects (Oid id_projectNew)
    (request id_dev "" (projectBody "QA" "Quality" id_dev [])) sampleStore
  = (sampleStore, Send 403 (JError "Insufficient permissions.")) /\
  PATCH_project (request id_dev id_project (updateBody (Some "Mine") None None))
                sampleStore
  = (sampleStore, Send 403 (JError "Lead or admin role required.")) /\
  DELETE_project (request id_lead id_project emptyBody) sampleStore
  = (sampleStore, Send 403 (JError "Insufficient permissions.")) /\
  GET_project (request id_outsider id_project emptyBody) sampleStore
  = (sampleStore, Send 403 (JError "Project access denied.")).
Proof.
  split; [|split; [|split]].
  - apply (proj1 (project_routes_authorization
                    (request id_dev "" (projectBody "QA" "Quality" id_dev []))
                    sampleStore id_dev dev eq_refl ltac:(vm_compute; reflexivity)
                    eq_refl)).
    reflexivity.
  - apply (proj2 (project_routes_authorization
                    (request id_dev id_project (updateBody (Some "Mine") None None))
                    sampleStore id_dev dev eq_refl ltac:(vm_compute; reflexivity)
                    eq_refl) projectBT ltac:(vm_compute; reflexivity)).
    vm_compute. reflexivity.
  - apply (proj2 (project_routes_authorization
                    (request id_lead id_project emptyBody)
                    sampleStore id_lead lead_ eq_refl ltac:(vm_compute; reflexivity)
                    eq_refl) projectBT ltac:(vm_compute; reflexivity)).
    discriminate.
  - apply (proj2 (project_routes_authorization
                    (request id_outsider id_project emptyBody)
                    sampleStore id_outsider outsider eq_refl
                    ltac:(vm_compute; reflexivity) eq_refl)
                 projectBT ltac:(vm_compute; reflexivity)).
    vm_compute. reflexivity.
Defined.

(** ** Creating a project *)

Lemma key_char a :
  Js.is_upper a || Js.is_digit a = true ->
  Js.is_ws a = false /\ Js.to_upper a = a /\ a <> "-"%char.
Proof.
  destruct a as [[] [] [] [] [] [] [] []]; vm_compute; intros;
    repeat split; congruence.
Qed.

Lemma trim_start_head a l : Js.is_ws a = false -> Js.trim_start (a :: l) = a :: l.
Proof. intros H. simpl. by rewrite H. Qed.

Lemma key_chars_normal l :
  forallb (fun a => Js.is_upper a || Js.is_digit a) l = true ->
  Js.trim_list l = l /\ Js.to_upper <$> l = l /\ "-"%char ∉ l.
Proof.
  intros H.
  assert (Hall : Forall (fun a => Js.is_upper a || Js.is_digit a = true) l).
  { induction l as [|a l IH]; [constructor|].
    simpl in H. apply andb_true_iff in H as [Ha Hl]. constructor; auto. }
  assert (Hstart : forall l', Forall (fun a => Js.is_upper a || Js.is_digit a = true) l' ->
                              Js.trim_start l' = l').
  { intros [|a l'] Hl'; [reflexivity|]. apply trim_start_head.
    apply Forall_cons in Hl' as [Ha _]. by apply key_char. }
  split; [|split].
  - unfold Js.trim_list. rewrite (Hstart l Hall).
    rewrite Hstart; [apply rev_involutive|].
    apply Forall_forall. intros a Ha. rewrite Forall_forall in Hall.
    apply Hall. apply list_elem_of_In. by apply list_elem_of_In, in_rev in Ha.
  - clear H Hstart. induction Hall as [|a l Ha _ IH]; [reflexivity|].
    cbn [fmap list_fmap]. f_equal; [by apply key_char | exact IH].
  - intros Hin. rewrite Forall_forall in Hall.
    by destruct (proj2 (proj2 (key_char _ (Hall _ Hin)))).
Qed.

(** A key that passes the controller's format check is already in the form
    the schema setters produce. *)
Lemma key_format_normal k :
  key_format k = true -> Js.toUpperCase (Js.trim k) = k.
Proof.
  unfold key_format. rewrite !andb_true_iff. intros [_ H].
  destruct (key_chars_normal _ H) as (Ht & Hu & _).
  unfold Js.toUpperCase, Js.map_string, Js.trim.
  rewrite Ht, string_of_list_ascii_of_string, Hu.
  apply string_of_list_ascii_of_string.
Qed.

Lemma size_list_to_set_NoDup (l : list ObjectId) :
  size (list_to_set l : gset ObjectId) = length l -> NoDup l.
Proof.
  induction l as [|x l IH]; [constructor|].
  cbn [list_to_set length]. intros H.
  pose proof (size_list_to_set_le l) as Hle.
  destruct (decide (x ∈ l)) as [Hin|Hni].
  - exfalso.
    assert ({[x]} ∪ list_to_set l = (list_to_set l : gset ObjectId)) as Heq
      by (apply subseteq_union_1_L, singleton_subseteq_l;
          by apply elem_of_list_to_set).
    rewrite Heq in H. lia.
  - rewrite size_union in H
      by (apply disjoint_singleton_l; by rewrite elem_of_list_to_set).
    rewrite size_singleton in H.
    constructor; [done|]. apply IH. lia.
Qed.

(** If as many documents match as there are ids, the ids are distinct. *)
Lemma countDocuments_in_NoDup {A} (m : gmap ObjectId A) (oids : list ObjectId) :
  countDocuments_in m oids = length oids -> NoDup oids.
Proof.
  unfold countDocuments_in. intros H. apply size_list_to_set_NoDup.
  pose proof (size_list_to_set_le oids) as Hle.
  set (m' := filter (fun kv : ObjectId * A => kv.1 ∈ oids) m) in *.
  assert (size (dom m') <= size (list_to_set oids : gset ObjectId))%nat as Hsub.
  { apply subseteq_size. intros k Hk. apply elem_of_dom in Hk as [a Ha].
    apply map_lookup_filter_Some in Ha as [_ Hin].
    by apply elem_of_list_to_set. }
  rewrite size_dom in Hsub. lia.
Qed.

Lemma project_key_exists_false m k j q :
  project_key_exists m k = false -> m !! j = Some q -> project_key q <> k.
Proof.
  unfold project_key_exists. intros Hex Hj Hk.
  assert (existsb (fun kv : ObjectId * Project => String.eqb (project_key kv.2) k)
                  (map_to_list m) = true) as Htrue; [|congruence].
  apply existsb_exists. exists (j, q). split.
  - apply list_elem_of_In. by apply elem_of_map_to_list.
  - simpl. by apply String.eqb_eq.
Qed.

Arguments Project_create : simpl never.

Lemma Project_create_inv newId k n d lead mems st st' p :
  Project_create newId k n d lead mems st = (st', inr p) ->
  exists leadId memIds,
    castObjectId lead = Some leadId /\ mapM castObjectId mems = Some memIds /\
    p = mkProject newId (Js.toUpperCase (Js.trim k)) (Js.trim n) (Js.trim d)
                  leadId memIds 1%N /\
    projects st !! newId = None /\
    project_key_exists (projects st) (project_key p) = false /\
    st' = set_projects <[newId := p]> st.
Proof.
  unfold Project_create. intros H.
  destruct (castObjectId lead) as [leadId|]; [|discriminate].
  destruct (mapM castObjectId mems) as [memIds|]; [|discriminate].
  cbv zeta in H.
  destruct (negb (valid_project_key _)); [discriminate|].
  destruct (negb (valid_project_name _)); [discriminate|].
  destruct (negb (valid_project_description _)); [discriminate|].
  case_bool_decide as Hid; [discriminate|].
  destruct (project_key_exists _ _) eqn:Hex; [discriminate|].
  injection H as <- <-.
  exists leadId, memIds. repeat split; try done.
  by apply eq_None_not_Some.
Qed.

Lemma Project_create_inl newId k n d lead mems st st' e :
  Project_create newId k n d lead mems st = (st', inl e) -> st' = st.
Proof.
  unfold Project_create. intros H.
  repeat case_match; simplify_eq; reflexivity.
Qed.

Lemma blank_false o : Js.blank o = false -> exists s, o = Some s.
Proof. destruct o; [eauto | discriminate]. Qed.

Lemma castObjectId_valid s :
  isValidId s = true -> castObjectId s = Some (createFromHexString s).
Proof. intros H. unfold castObjectId. by rewrite H. Qed.

Lemma createProject_inv newId req st st' p :
  createProject newId req st = (st', Send 201 (JProject (Some p))) ->
  exists k l oids,
    rb_key (rbody req) = Some k /\ key_format k = true /\
    rb_leadUserId (rbody req) = Some l /\ isValidId l = true /\
    mapM castObjectId (Js.set_array (l :: rb_members (rbody req))) = Some oids /\
    countDocuments_in (users st) oids = length oids /\
    p = mkProject newId k (Js.trim (default "" (rb_name (rbody req))))
                  (Js.trim (default "" (rb_description (rbody req))))
                  (createFromHexString l) oids 1%N /\
    projects st !! newId = None /\
    project_key_exists (projects st) k = false /\
    st' = set_projects <[newId := p]> st.
Proof.
  unfold createProject. intros H. cbv zeta in H.
  destruct (Js.blank (rb_key (rbody req))) eqn:Hbk; [discriminate|].
  destruct (Js.blank (rb_name (rbody req))) eqn:Hbn; [discriminate|].
  destruct (Js.blank (rb_leadUserId (rbody req))) eqn:Hbl; [discriminate|].
  apply blank_false in Hbk as [k Hk]. apply blank_false in Hbl as [l Hl].
  rewrite Hk, Hl in H. cbn [orb default from_option id] in H.
  destruct (key_format k) eqn:Hkf; cbn [negb] in H; [|discriminate].
  destruct (isValidId l) eqn:Hv; cbn [negb] in H; [|discriminate].
  destruct (find _ _); [discriminate|].
  destruct (mapM castObjectId _) as [oids|] eqn:Hoids; [|discriminate].
  destruct (negb _) eqn:Hcount; [discriminate|].
  destruct (project_key_exists (projects st) k) eqn:Hex; [discriminate|].
  destruct (Project_create _ _ _ _ _ _ _) as [st1 [e|p1]] eqn:Hc; [discriminate|].
  injection H as <- <-.
  apply Project_create_inv in Hc
    as (leadId & memIds & Hlead & Hmems & Hp & Hfresh & _ & Hst).
  rewrite (castObjectId_valid _ Hv) in Hlead. injection Hlead as <-.
  rewrite Hoids in Hmems. injection Hmems as <-.
  rewrite (key_format_normal _ Hkf) in Hp.
  apply negb_false_iff, Nat.eqb_eq in Hcount.
  rewrite (length_mapM _ _ _ Hoids) in Hcount.
  exists k, l, oids. repeat split; done.
Qed.

(** X4: a project that [createProject] answers with 201 is stored under the
    fresh id and nothing else changes; its key is the key of the request,
    well formed and used by no other project; its counter starts at 1; its
    lead is the requested user and heads the member list; the members are
    distinct and every one of them is an existing user. *)
Theorem createProject_creates newId req st st' p :
  createProject newId req st = (st', Send 201 (JProject (Some p))) ->
  st' = set_projects <[newId := p]> st /\ projects st !! newId = None /\
  project_id p = newId /\
  rb_key (rbody req) = Some (project_key p) /\
  key_format (project_key p) = true /\
  (forall k q, projects st !! k = Some q -> project_key q <> project_key p) /\
  nextIssueSeq p = 1%N /\
  (exists l, rb_leadUserId (rbody req) = Some l /\ isValidId l = true /\
             leadUserId p = createFromHexString l) /\
  head (members p) = Some (leadUserId p) /\
  NoDup (members p) /\
  (forall m, m ∈ members p -> is_Some (users st !! m)).
Proof.
  intros H. apply createProject_inv in H
    as (k & l & oids & Hk & Hkf & Hl & Hv & Hoids & Hcount & -> & Hfresh & Hex & ->).
  cbn [project_id project_key nextIssueSeq leadUserId members].
  repeat split; try done.
  - intros j q Hq. by eapply project_key_exists_false.
  - eauto.
  - destruct (set_array_head l (rb_members (rbody req))) as [r Hr].
    rewrite Hr in Hoids. apply mapM_Some_1 in Hoids.
    inversion Hoids as [|? y ? ? Hy _]; subst.
    rewrite (castObjectId_valid _ Hv) in Hy. by injection Hy as <-.
  - by eapply countDocuments_in_NoDup.
  - intros m Hm. by eapply countDocuments_in_all.
Qed.

Lemma createProject_creates_witness :
  let req := request id_root ""
               (projectBody "QA" " Quality " id_dev [id_outsider; id_dev]) in
  exists p,
    createProject (Oid id_projectNew) req sampleStore
    = (set_projects <[Oid id_projectNew := p]> sampleStore,
       Send 201 (JProject (Some p))) /\
    project_key p = "QA" /\
    members p = [Oid id_dev; Oid id_outsider] /\ NoDup (members p).
Proof.
  intros req.
  exists (mkProject (Oid id_projectNew) "QA" "Quality" "" (Oid id_dev)
                    [Oid id_dev; Oid id_outsider] 1).
  assert (H : createProject (Oid id_projectNew) req sampleStore
              = (set_projects
                   <[Oid id_projectNew :=
                       mkProject (Oid id_projectNew) "QA" "Quality" ""
                                 (Oid id_dev) [Oid id_dev; Oid id_outsider] 1]>
                   sampleStore,
                 Send 201 (JProject (Some
                   (mkProject (Oid id_projectNew) "QA" "Quality" "" (Oid id_dev)
                              [Oid id_dev; Oid id_outsider] 1)))))
    by (vm_compute; reflexivity).
  split; [exact H|]. split; [reflexivity|]. split; [reflexivity|].
  exact (proj1 (proj2 (proj2 (proj2 (proj2 (proj2 (proj2 (proj2 (proj2 (proj2
           (createProject_creates _ _ _ _ _ H))))))))))).
Defined.

(** ** Operators on the member list *)

Lemma elem_of_addToSet xs l x : x ∈ addToSet xs l <-> x ∈ l \/ x ∈ xs.
Proof.
  unfold addToSet. revert l. induction xs as [|y xs IH]; intros l; simpl.
  - rewrite elem_of_nil. tauto.
  - rewrite IH, elem_of_cons. case_bool_decide as Hy.
    + split; [tauto|]. intros [?|[->|?]]; auto.
    + rewrite elem_of_app, list_elem_of_singleton. tauto.
Qed.

Lemma NoDup_addToSet xs l : NoDup l -> NoDup (addToSet xs l).
Proof.
  unfold addToSet. revert l. induction xs as [|y xs IH]; intros l Hl; [done|].
  simpl. apply IH. case_bool_decide as Hy; [done|].
  apply NoDup_app. split; [done|]. split; [|apply NoDup_singleton].
  intros z Hz Hz'. apply list_elem_of_singleton in Hz'. congruence.
Qed.

Lemma elem_of_pull xs l x : x ∈ pull xs l <-> x ∈ l /\ x ∉ xs.
Proof. unfold pull. rewrite list_elem_of_filter. tauto. Qed.

Lemma NoDup_pull xs l : NoDup l -> NoDup (pull xs l).
Proof. apply NoDup_filter. Qed.

Lemma pull_nil l : pull [] l = l.
Proof.
  unfold pull. induction l as [|a l IH]; [done|].
  rewrite filter_cons_True by apply not_elem_of_nil. by rewrite IH.
Qed.




Lemma with_members_id p : with_members (members p) p = p.
Proof. by destruct p. Qed.


(** ** Changing the members of a project *)

(** The effect of the single update of [updateMembers], when it is accepted:
    at most one of the two lists is non-empty, and the member list becomes
    the old one with [adds] added and [rems] taken out. *)
Lemma Project_updateOne_members_inv pid adds rems st st' :
  Project_updateOne_members pid adds rems st = (st', None) ->
  (adds = [] \/ rems = []) /\
  users st' = users st /\ issues st' = issues st /\ comments st' = comments st /\
  (forall k, k <> pid -> projects st' !! k = projects st !! k) /\
  projects st' !! pid
  = (fun q => with_members (pull rems (addToSet adds (members q))) q)
      <$> projects st !! pid.
Proof.
  unfold Project_updateOne_members. intros H.
  destruct adds as [|a adds], rems as [|r rems]; try discriminate;
    injection H as <-; cbn [users issues comments projects set_projects].
  - repeat split; auto. destruct (projects st !! pid) as [q|]; [|done].
    cbn [fmap option_fmap option_map]. unfold addToSet. cbn [foldl].
    by rewrite pull_nil, with_members_id.
  - repeat split; auto.
    + intros k Hk. by rewrite lookup_alter_ne.
    + by rewrite lookup_alter_eq.
  - repeat split; auto.
    + intros k Hk. by rewrite lookup_alter_ne.
    + rewrite lookup_alter_eq. destruct (projects st !! pid); [|done].
      cbn [fmap option_fmap option_map]. by rewrite pull_nil.
Qed.

Lemma updateMembers_inv req st st' payload :
  updateMembers req st = (st', Send 200 payload) ->
  exists p,
    project req = Some p /\
    (forall o,
       o ∈ (createFromHexString <$> clean_ids (rb_add (rbody req)))
           ++ (createFromHexString <$> clean_ids (rb_remove (rbody req))) ->
       is_Some (users st !! o)) /\
    Project_updateOne_members (project_id p)
      (createFromHexString <$> clean_ids (rb_add (rbody req)))
      (createFromHexString <$> clean_ids (rb_remove (rbody req))) st
    = (st', None) /\
    payload = JProject (projects st' !! project_id p).
Proof.
  unfold updateMembers. intros H. cbv zeta in H.
  set (ids := clean_ids (rb_add (rbody req)) ++ clean_ids (rb_remove (rbody req)))
    in *.
  destruct (List.find _ ids) as [bad|] eqn:Hfind; [discriminate|].
  destruct (mapM castObjectId (Js.set_array ids)) as [oids|] eqn:Hoids;
    [|discriminate].
  destruct (negb _) eqn:Hcount; [discriminate|].
  destruct (project req) as [p|]; [|discriminate].
  destruct (existsb _ _); [discriminate|].
  destruct (Project_updateOne_members _ _ _ _) as [st1 [e|]] eqn:Hu;
    [discriminate|].
  injection H as <- <-. exists p. repeat split; try done.
  intros o Ho. rewrite <- fmap_app in Ho. fold ids in Ho.
  apply list_elem_of_fmap in Ho as (s & -> & Hs).
  apply negb_false_iff, Nat.eqb_eq in Hcount.
  rewrite (length_mapM _ _ _ Hoids) in Hcount.
  apply mapM_Some_1 in Hoids.
  assert (s ∈ Js.set_array ids) as Hin by (by apply elem_of_set_array).
  apply list_elem_of_lookup in Hin as [i Hi].
  destruct (Forall2_lookup_l _ _ _ _ _ Hoids Hi) as (o & Ho & Hcast).
  pose proof (find_none _ _ Hfind s ltac:(by apply list_elem_of_In)) as Hv.
  apply negb_false_iff in Hv. rewrite (castObjectId_valid _ Hv) in Hcast.
  injection Hcast as <-.
  eapply countDocuments_in_all; [exact Hcount|]. by eapply list_elem_of_lookup_2.
Qed.

(** X5: what an accepted [updateMembers] does.  The request adds or removes,
    not both; every id it names belongs to an existing user; the project's
    member list becomes the old list with the added ids appended (those not
    yet present) or with the removed ids taken out; the response carries
    the project as stored; nothing else in the database changes. *)
Theorem updateMembers_effect req st st' p q payload :
  project req = Some p -> projects st !! project_id p = Some q ->
  updateMembers req st = (st', Send 200 payload) ->
  let adds := createFromHexString <$> clean_ids (rb_add (rbody req)) in
  let rems := createFromHexString <$> clean_ids (rb_remove (rbody req)) in
  let q' := with_members (pull rems (addToSet adds (members q))) q in
  (adds = [] \/ rems = []) /\
  (forall o, o ∈ adds ++ rems -> is_Some (users st !! o)) /\
  payload = JProject (Some q') /\
  projects st' !! project_id p = Some q' /\
  (forall m, m ∈ members q' <-> (m ∈ members q \/ m ∈ adds) /\ m ∉ rems) /\
  (forall k, k <> project_id p -> projects st' !! k = projects st !! k) /\
  users st' = users st /\ issues st' = issues st /\ comments st' = comments st.
Proof.
  intros Hp Hq H adds rems q'.
  apply updateMembers_inv in H as (p1 & Hp1 & Husers & Hu & ->).
  rewrite Hp in Hp1. injection Hp1 as <-.
  apply Project_updateOne_members_inv in Hu
    as (Hone & Hus & His & Hcs & Hother & Hthis).
  rewrite Hq in Hthis. cbn [fmap option_fmap option_map] in Hthis.
  repeat split; try done.
  - by rewrite Hthis.
  - cbn [q' members with_members] in *.
    rewrite elem_of_pull, elem_of_addToSet in *. tauto.
  - cbn [q' members with_members] in *.
    rewrite elem_of_pull, elem_of_addToSet in *. tauto.
  - cbn [q' members with_members] in *.
    rewrite elem_of_pull, elem_of_addToSet in *. tauto.
Qed.

Lemma updateMembers_effect_witness :
  let req := set_project projectBT
               (set_authUser root
                  (request id_root id_project
                           (membersBody [Some id_outsider; None; Some id_dev] []))) in
  members <$> projects (updateMembers req sampleStore).1 !! Oid id_project
  = Some [Oid id_lead; Oid id_dev; Oid id_outsider].
Proof.
  intros req.
  assert (H : updateMembers req sampleStore
              = ((updateMembers req sampleStore).1,
                 Send 200 (JProject (projects (updateMembers req sampleStore).1
                                     !! Oid id_project))))
    by (vm_compute; reflexivity).
  destruct (updateMembers_effect req sampleStore _ projectBT projectBT _
              eq_refl ltac:(vm_compute; reflexivity) H)
    as (_ & _ & _ & Hstored & _).
  change (Oid id_project) with (project_id projectBT).
  rewrite Hstored. vm_compute. reflexivity.
Defined.

(** X6: a request to [updateMembers] that names ids both to add and to
    remove is never carried out: the store refuses an update in which
    [$addToSet] and [$pull] write the same path, so the call does not answer
    200 and the member list stays as it is. *)
Theorem updateMembers_add_and_remove_conflict req st :
  clean_ids (rb_add (rbody req)) <> [] ->
  clean_ids (rb_remove (rbody req)) <> [] ->
  (updateMembers req st).1 = st /\
  forall payload, (updateMembers req st).2 <> Send 200 payload.
Proof.
  intros Ha Hr. unfold updateMembers, Project_updateOne_members.
  destruct (clean_ids (rb_add (rbody req))) as [|a la]; [done|].
  destruct (clean_ids (rb_remove (rbody req))) as [|r lr]; [done|].
  cbv zeta. cbn [fmap list_fmap].
  repeat case_match; simplify_eq; split; try reflexivity; discriminate.
Qed.

Lemma updateMembers_add_and_remove_conflict_witness :
  let req := set_project projectBT
               (set_authUser root
                  (request id_root id_project
                           (membersBody [Some id_outsider] [Some id_dev]))) in
  (updateMembers req sampleStore).1 = sampleStore /\
  (updateMembers req sampleStore).2
  <> Send 200 (JProject (Some projectBT)).
Proof.
  intros req.
  destruct (updateMembers_add_and_remove_conflict req sampleStore
              ltac:(vm_compute; discriminate) ltac:(vm_compute; discriminate))
    as [Hst Hno].
  split; [exact Hst | apply Hno].
Defined.



(** ** What the project controllers leave alone *)

Lemma createProject_cases newId req st :
  (createProject newId req st).1 = st
  \/ exists p, createProject newId req st
               = ((createProject newId req st).1, Send 201 (JProject (Some p))).
Proof.
  unfold createProject. cbv zeta.
  repeat match goal with
  | |- context [Project_create ?a ?b ?c ?d ?e ?f ?g] =>
      let H := fresh "Hcr" in
      destruct (Project_create a b c d e f g) as [? [?|?]] eqn:H;
      [apply Project_create_inl in H as -> |]
  | |- context [match ?x with _ => _ end] => destruct x eqn:?
  | |- context [if ?x then _ else _] => destruct x eqn:?
  end; cbn [fst]; eauto.
Qed.

Lemma updateProject_cases req st :
  (updateProject req st).1 = st
  \/ exists payload, (updateProject req st).2 = Send 200 payload.
Proof.
  unfold updateProject, Project_findByIdAndUpdate. cbv zeta.
  repeat case_match; simplify_eq; cbn [fst snd]; eauto.
Qed.

Lemma updateMembers_cases req st :
  (updateMembers req st).1 = st
  \/ exists payload,
       updateMembers req st = ((updateMembers req st).1, Send 200 payload).
Proof.
  unfold updateMembers, Project_updateOne_members. cbv zeta.
  repeat case_match; simplify_eq; cbn [fst snd]; eauto.
Qed.

(** X8: the project controllers check before they write.  Whenever
    [createProject] answers anything but 201, or [updateProject] or
    [updateMembers] anything but 200, the database is exactly as it was. *)
Theorem project_rejections_write_nothing st :
  (forall newId req,
     (forall p, (createProject newId req st).2 <> Send 201 (JProject (Some p))) ->
     (createProject newId req st).1 = st) /\
  (forall req,
     (forall payload, (updateProject req st).2 <> Send 200 payload) ->
     (updateProject req st).1 = st) /\
  (forall req,
     (forall payload, (updateMembers req st).2 <> Send 200 payload) ->
     (updateMembers req st).1 = st).
Proof.
  split; [|split].
  - intros newId req Hno.
    destruct (createProject_cases newId req st) as [H|[p H]]; [done|].
    destruct (Hno p). by rewrite H.
  - intros req Hno.
    destruct (updateProject_cases req st) as [H|[payload H]]; [done|].
    by destruct (Hno payload).
  - intros req. apply updateMembers_rejection_writes_nothing.
Qed.

Lemma project_rejections_write_nothing_witness :
  (createProject (Oid id_projectNew)
     (request id_root "" (projectBody "BT" "Again" id_dev [])) sampleStore).1
  = sampleStore /\
  (updateProject
     (set_project projectBT
        (request id_lead id_project (updateBody (Some "  ") None None)))
     sampleStore).1 = sampleStore /\
  (updateMembers
     (set_project projectBT
        (request id_lead id_project (membersBody [Some id_nowhere] [])))
     sampleStore).1 = sampleStore.
Proof.
  destruct (project_rejections_write_nothing sampleStore) as (Hc & Hu & Hm).
  split; [|split].
  - apply Hc. intros p. vm_compute. discriminate.
  - apply Hu. intros p. vm_compute. discriminate.
  - apply Hm. intros p. vm_compute. discriminate.
Defined.

(** ** Identity and members of a project *)

Lemma project_step_refl st p : project_step st p p.
Proof. repeat split; auto; lia. Qed.

Lemma project_step_trans st p1 p2 p3 :
  project_step st p1 p2 -> project_step st p2 p3 -> project_step st p1 p3.
Proof.
  intros [(Hi1 & Hk1 & Hc1) [Hn1 Hm1]] [(Hi2 & Hk2 & Hc2) [Hn2 Hm2]].
  repeat split; try congruence; [lia | auto |].
  intros m Hm. destruct (Hm2 m Hm) as [Hin|Hin]; auto.
Qed.

Lemma projects_rel_refl st m : projects_rel (project_step st) m m.
Proof. intros k p' H. exists p'. split; [done | apply project_step_refl]. Qed.

Lemma projects_rel_alter st (f : Project -> Project) k m :
  (forall p, project_step st p (f p)) ->
  projects_rel (project_step st) m (alter f k m).
Proof.
  intros Hf j p'. rewrite lookup_alter.
  destruct (decide (k = j)) as [<-|]; [|apply projects_rel_refl].
  destruct (m !! k) as [p|]; [|discriminate].
  intros [= <-]. eauto.
Qed.

Lemma projects_rel_replace st k p p' m :
  m !! k = Some p -> project_step st p p' ->
  projects_rel (project_step st) m (<[k := p']> m).
Proof.
  intros Hp Hk j q. destruct (decide (k = j)) as [<-|Hne].
  - rewrite lookup_insert_eq. intros [= <-]. eauto.
  - rewrite lookup_insert_ne by done. apply projects_rel_refl.
Qed.

Lemma projects_rel_trans st m1 m2 m3 :
  projects_rel (project_step st) m1 m2 -> projects_rel (project_step st) m2 m3 ->
  projects_rel (project_step st) m1 m3.
Proof.
  intros H12 H23 k p3 H3.
  destruct (H23 k p3 H3) as (p2 & Hp2 & Hs2).
  destruct (H12 k p2 Hp2) as (p1 & Hp1 & Hs1).
  exists p1. split; [done|]. by eapply project_step_trans.
Qed.

Lemma projects_rel_weaken (R R' : Project -> Project -> Prop) m m' :
  (forall p p', R p p' -> R' p p') -> projects_rel R m m' -> projects_rel R' m m'.
Proof.
  intros HR H k p' Hp'. destruct (H k p' Hp') as (p & Hp & Hr). eauto.
Qed.

Lemma unique_project_keys_kept m m' :
  projects_rel project_kept m m' -> unique_project_keys m ->
  unique_project_keys m'.
Proof.
  intros Hk Hu i j a b Hi Hj Hab.
  destruct (Hk i a Hi) as (a0 & Ha0 & _ & Hka & _).
  destruct (Hk j b Hj) as (b0 & Hb0 & _ & Hkb & _).
  apply (Hu i j a0 b0 Ha0 Hb0). congruence.
Qed.

Lemma step_apply_updates st u p : project_step st p (apply_updates u p).
Proof. repeat split; cbn; auto; lia. Qed.

Lemma step_with_nextIssueSeq st p :
  project_step st p (with_nextIssueSeq (nextIssueSeq p + 1) p).
Proof. repeat split; cbn; auto; lia. Qed.

Lemma step_addToSet st xs p :
  (forall o, o ∈ xs -> is_Some (users st !! o)) ->
  project_step st p (with_members (addToSet xs (members p)) p).
Proof.
  intros Hxs. repeat split; cbn; [lia | apply NoDup_addToSet |].
  intros m Hm. apply elem_of_addToSet in Hm as [?|?]; auto.
Qed.

Lemma step_pull st xs p :
  project_step st p (with_members (pull xs (members p)) p).
Proof.
  repeat split; cbn; [lia | apply NoDup_pull |].
  intros m Hm. apply elem_of_pull in Hm as [? _]. auto.
Qed.

Lemma lead_exists st s o :
  negb (bool_decide (is_Some (findById (users st) s))) = false ->
  Some s ≫= castObjectId = Some o -> is_Some (users st !! o).
Proof.
  intros H Hc. apply negb_false_iff, bool_decide_eq_true in H as [u Hu].
  apply findById_Some in Hu as [Hv Hu]. cbn in Hc.
  rewrite (castObjectId_valid _ Hv) in Hc. injection Hc as <-. eauto.
Qed.

Lemma updateProject_step req st :
  projects_rel (project_step st) (projects st)
               (projects (updateProject req st).1).
Proof.
  unfold updateProject, Project_findByIdAndUpdate. cbv zeta.
  repeat case_match; simplify_eq; cbn [fst projects set_projects];
    try apply projects_rel_refl;
    try match goal with
        | H1 : negb (bool_decide (is_Some (findById _ ?s))) = false,
          H2 : Some ?s ≫= castObjectId = Some ?o |- _ =>
            pose proof (lead_exists _ _ _ H1 H2) as Hlead
        end.
  all: repeat first
    [ apply projects_rel_refl
    | eapply projects_rel_replace; [eassumption | apply step_apply_updates]
    | apply projects_rel_alter; intros ?; apply step_addToSet;
      intros o Ho; apply list_elem_of_singleton in Ho; by subst
    | eapply projects_rel_trans;
      [eapply projects_rel_replace; [eassumption | apply step_apply_updates]|] ].
Qed.

Lemma updateMembers_step req st :
  projects_rel (project_step st) (projects st)
               (projects (updateMembers req st).1).
Proof.
  destruct (updateMembers_cases req st) as [->|[payload H]];
    [apply projects_rel_refl|].
  apply updateMembers_inv in H as (p & _ & Husers & Hu & _).
  revert Husers Hu. generalize (updateMembers req st).1. intros st' Husers.
  unfold Project_updateOne_members.
  destruct (createFromHexString <$> clean_ids (rb_add (rbody req)))
    as [|a adds],
    (createFromHexString <$> clean_ids (rb_remove (rbody req)))
    as [|r rems]; intros Heq; try discriminate;
    apply (f_equal fst) in Heq; cbn [fst] in Heq; rewrite <- Heq;
    cbn [projects set_projects].
  - apply projects_rel_refl.
  - apply projects_rel_alter. intros q. apply step_pull.
  - apply projects_rel_alter. intros q. apply step_addToSet.
    intros o Ho. apply Husers. by rewrite app_nil_r.
Qed.

Lemma deleteProject_step req st :
  projects_rel (project_step st) (projects st)
               (projects (deleteProject req st).1).
Proof.
  unfold deleteProject, Project_deleteOne.
  destruct (project req) as [p|]; cbn [fst projects set_projects];
    [|apply projects_rel_refl].
  intros k p' H. apply lookup_delete_Some in H as [_ H].
  exists p'. split; [done | apply project_step_refl].
Qed.

Lemma pre_validate_step doc st :
  projects_rel (project_step st) (projects st)
               (projects (pre_validate doc st).1).
Proof.
  unfold pre_validate, Project_findOneAndUpdate_inc.
  repeat case_match; simplify_eq; cbn [fst projects set_projects];
    try apply projects_rel_refl.
  eapply projects_rel_replace; [eassumption | apply step_with_nextIssueSeq].
Qed.

Lemma Issue_create_projects doc st :
  projects (Issue_create doc st).1 = projects (pre_validate doc st).1.
Proof.
  unfold Issue_create, Issue_validate_phase.
  destruct (pre_validate doc st) as [st1 [e|d]]; [done|].
  destruct (Issue_validate d); [done|]. cbn [fst].
  destruct (Issue_insert d st1) as [st2 [e|d']] eqn:Hins.
  - by apply Issue_insert_inl in Hins as ->.
  - by apply Issue_insert_inr in Hins as (_ & -> & _).
Qed.

Lemma kept_of_step st m m' :
  projects_rel (project_step st) m m' -> projects_rel project_kept m m'.
Proof. apply projects_rel_weaken. by intros p p' [? _]. Qed.

(** X9: a project keeps its identity.  [updateProject], [updateMembers],
    [deleteProject] and the creation of an issue never add a project and
    never change the id or the key of one, and the issue counter of a
    project never goes back; [createProject] leaves every project but the
    new one as it is. *)
Theorem project_identity_is_kept st :
  (forall req,
     projects_rel project_kept (projects st) (projects (updateProject req st).1)) /\
  (forall req,
     projects_rel project_kept (projects st) (projects (updateMembers req st).1)) /\
  (forall req,
     projects_rel project_kept (projects st) (projects (deleteProject req st).1)) /\
  (forall doc,
     projects_rel project_kept (projects st) (projects (Issue_create doc st).1)) /\
  (forall newId req k,
     k <> newId ->
     projects (createProject newId req st).1 !! k = projects st !! k).
Proof.
  split; [|split; [|split; [|split]]].
  - intros req. eapply kept_of_step, updateProject_step.
  - intros req. eapply kept_of_step, updateMembers_step.
  - intros req. eapply kept_of_step, deleteProject_step.
  - intros doc. rewrite Issue_create_projects.
    eapply kept_of_step, pre_validate_step.
  - intros newId req k Hk.
    destruct (createProject_cases newId req st) as [Hst|[p Hc]];
      [by rewrite Hst|].
    apply createProject_inv in Hc
      as (k0 & l & oids & _ & _ & _ & _ & _ & _ & _ & _ & _ & Hst).
    rewrite Hst. cbn [projects set_projects]. by rewrite lookup_insert_ne.
Qed.

(** X10: the keys of the projects stay pairwise distinct under every
    operation that writes to the project collection. *)
Theorem project_keys_stay_unique st :
  unique_project_keys (projects st) ->
  (forall newId req,
     unique_project_keys (projects (createProject newId req st).1)) /\
  (forall req, unique_project_keys (projects (updateProject req st).1)) /\
  (forall req, unique_project_keys (projects (updateMembers req st).1)) /\
  (forall req, unique_project_keys (projects (deleteProject req st).1)) /\
  (forall doc, unique_project_keys (projects (Issue_create doc st).1)).
Proof.
  intros Hu. split; [|split; [|split; [|split]]].
  - intros newId req.
    destruct (createProject_cases newId req st) as [Hst|[p Hc]];
      [by rewrite Hst|].
    apply createProject_inv in Hc
      as (k & l & oids & _ & _ & _ & _ & _ & _ & Hp & Hfresh & Hex & Hst).
    rewrite Hst. cbn [projects set_projects].
    assert (Hkey : project_key p = k) by (by rewrite Hp).
    intros i j a b Hi Hj Hab.
    destruct (decide (newId = i)) as [<-|Hni];
      destruct (decide (newId = j)) as [<-|Hnj]; [done| | |].
    + rewrite lookup_insert_eq in Hi. rewrite lookup_insert_ne in Hj by done.
      simplify_eq. destruct (project_key_exists_false _ _ _ _ Hex Hj).
      by rewrite <- Hab.
    + rewrite lookup_insert_eq in Hj. rewrite lookup_insert_ne in Hi by done.
      simplify_eq. destruct (project_key_exists_false _ _ _ _ Hex Hi).
      by rewrite Hab.
    + rewrite lookup_insert_ne in Hi, Hj by done. by eapply Hu.
  - intros req. eapply unique_project_keys_kept; [|exact Hu].
    eapply kept_of_step, updateProject_step.
  - intros req. eapply unique_project_keys_kept; [|exact Hu].
    eapply kept_of_step, updateMembers_step.
  - intros req. eapply unique_project_keys_kept; [|exact Hu].
    eapply kept_of_step, deleteProject_step.
  - intros doc. rewrite Issue_create_projects.
    eapply unique_project_keys_kept; [|exact Hu].
    eapply kept_of_step, pre_validate_step.
Qed.

Lemma project_keys_stay_unique_witness :
  unique_project_keys
    (projects (createProject (Oid id_projectNew)
                 (request id_root "" (projectBody "QA" "Quality" id_dev []))
                 widerStore).1) /\
  unique_project_keys
    (projects (createProject (Oid id_projectNew)
                 (request id_root "" (projectBody "OPS" "Again" id_dev []))
                 widerStore).1).
Proof.
  assert (Hu : unique_project_keys (projects widerStore)).
  { intros i j a b Hi Hj Hab.
    apply elem_of_map_to_list, list_elem_of_lookup in Hi as [x Hx].
    apply elem_of_map_to_list, list_elem_of_lookup in Hj as [y Hy].
    assert (x = y) as ->; [|congruence].
    assert (Hnd : NoDup ((fun kv : ObjectId * Project => project_key kv.2)
                           <$> map_to_list (projects widerStore)))
      by (apply (bool_decide_unpack _); vm_compute; exact I).
    eapply (NoDup_lookup _ x y (project_key a) Hnd).
    - by rewrite list_lookup_fmap, Hx.
    - by rewrite list_lookup_fmap, Hy, Hab. }
  split; apply (proj1 (project_keys_stay_unique widerStore Hu)).
Defined.

(** X11: the member list of every project names distinct, existing users,
    and every operation on projects keeps it that way. *)
Theorem members_stay_sound st :
  members_sound st ->
  (forall newId req, members_sound (createProject newId req st).1) /\
  (forall req, members_sound (updateProject req st).1) /\
  (forall req, members_sound (updateMembers req st).1) /\
  (forall req, members_sound (deleteProject req st).1).
Proof.
  intros Hs.
  assert (Hstep : forall st',
            users st' = users st ->
            projects_rel (project_step st) (projects st) (projects st') ->
            members_sound st').
  { intros st' Hus Hrel k p' Hp'.
    destruct (Hrel k p' Hp') as (p & Hp & _ & Hnd & Hin).
    destruct (Hs k p Hp) as [Hnd0 Hin0]. rewrite Hus.
    split; [auto|]. intros m Hm. destruct (Hin m Hm); auto. }
  split; [|split; [|split]].
  - intros newId req.
    destruct (createProject_cases newId req st) as [Hst|[p Hc]];
      [by rewrite Hst|].
    apply createProject_inv in Hc
      as (k & l & oids & _ & _ & _ & _ & _ & Hcount & Hp & _ & _ & Hst).
    rewrite Hst. intros j q. cbn [projects set_projects users].
    destruct (decide (newId = j)) as [<-|Hne].
    + rewrite lookup_insert_eq. intros [= <-]. rewrite Hp. cbn [members].
      split; [by eapply countDocuments_in_NoDup|].
      intros m Hm. by eapply countDocuments_in_all.
    + rewrite lookup_insert_ne by done. apply Hs.
  - intros req. apply Hstep; [|apply updateProject_step].
    unfold updateProject, Project_findByIdAndUpdate. cbv zeta.
    repeat case_match; simplify_eq; reflexivity.
  - intros req. apply Hstep; [|apply updateMembers_step].
    unfold updateMembers, Project_updateOne_members. cbv zeta.
    repeat case_match; simplify_eq; reflexivity.
  - intros req. apply Hstep; [|apply deleteProject_step].
    unfold deleteProject. by destruct (project req).
Qed.

Lemma members_stay_sound_witness :
  members_sound
    (updateMembers
       (set_project projectBT
          (request id_lead id_project (membersBody [Some id_outsider] [])))
       sampleStore).1.
Proof.
  assert (Hs : members_sound sampleStore).
  { intros k p Hp.
    assert (k = Oid id_project /\ p = projectBT) as [-> ->].
    { apply elem_of_map_to_list in Hp.
      change (map_to_list (projects sampleStore))
        with [(Oid id_project, projectBT)] in Hp.
      apply list_elem_of_singleton in Hp. by injection Hp. }
    split.
    - apply (bool_decide_unpack _). vm_compute. exact I.
    - intros m Hm. cbn [members projectBT] in Hm.
      apply elem_of_cons in Hm as [->|Hm];
        [|apply list_elem_of_singleton in Hm as ->];
        apply (bool_decide_unpack _); vm_compute; exact I. }
  apply (proj1 (proj2 (proj2 (members_stay_sound sampleStore Hs)))).
Defined.

(** ** Updating a project *)

(** X12: what an accepted [updateProject] does to the project it was called
    for.  Of the name, the description and the lead exactly the supplied
    ones are replaced (name and description trimmed); a replaced lead is an
    existing user and is added to the members; id, key and issue counter
    stay; no other document changes.  The response shows the project as it
    was before the new lead was added to the members. *)
Theorem updateProject_effect req st st' p0 p payload :
  project req = Some p0 -> projects st !! project_id p0 = Some p ->
  updateProject req st = (st', Send 200 payload) ->
  let b := rbody req in
  let newLead := createFromHexString <$> rb_leadUserId b in
  let updated :=
    mkProject (project_id p) (project_key p)
              (default (name p) (Js.trim <$> rb_name b))
              (default (description p) (Js.trim <$> rb_description b))
              (default (leadUserId p) newLead) (members p) (nextIssueSeq p) in
  let stored :=
    with_members (from_option (fun l => addToSet [l] (members p)) (members p)
                              newLead) updated in
  payload = JProject (Some updated) /\
  projects st' !! project_id p0 = Some stored /\
  (forall l, newLead = Some l -> is_Some (users st !! l) /\ l ∈ members stored) /\
  (forall k, k <> project_id p0 -> projects st' !! k = projects st !! k) /\
  users st' = users st /\ issues st' = issues st /\ comments st' = comments st.
Proof.
  intros Hp0 Hp. unfold updateProject, Project_findByIdAndUpdate. cbv zeta.
  rewrite Hp0.
  destruct (_ && _); [discriminate|].
  destruct (rb_leadUserId (rbody req)) as [l|] eqn:Hl.
  - destruct (isValidId l) eqn:Hv; cbn [negb]; [|discriminate].
    destruct (bool_decide (is_Some (findById (users st) l))) eqn:Hex;
      cbn [negb]; [|discriminate].
    cbn [mbind option_bind]. rewrite (castObjectId_valid _ Hv).
    cbn [upd_name upd_description].
    destruct (negb (from_option valid_project_name true _)); [discriminate|].
    destruct (negb (from_option valid_project_description true _));
      [discriminate|].
    rewrite Hp. intros [= <- <-].
    cbn [projects users issues comments set_projects fmap option_fmap option_map
         from_option].
    repeat split.
    + rewrite lookup_alter_eq, lookup_insert_eq. reflexivity.
    + injection H as <-. apply bool_decide_eq_true in Hex as [u Hu].
      apply findById_Some in Hu as [_ Hu]. eauto.
    + injection H as <-. cbn [members with_members].
      apply elem_of_addToSet. right. by apply list_elem_of_singleton.
    + intros k Hk. by rewrite lookup_alter_ne, lookup_insert_ne.
  - cbn [mbind option_bind upd_name upd_description].
    destruct (negb (from_option valid_project_name true _)); [discriminate|].
    destruct (negb (from_option valid_project_description true _));
      [discriminate|].
    rewrite Hp. intros [= <- <-].
    cbn [projects users issues comments set_projects fmap option_fmap option_map
         from_option].
    repeat split.
    + rewrite lookup_insert_eq. reflexivity.
    + discriminate.
    + discriminate.
    + intros k Hk. by rewrite lookup_insert_ne.
Qed.

Lemma updateProject_effect_witness :
  let req := set_project projectBT
               (request id_lead id_project
                  (updateBody (Some " Tracker ") None (Some id_outsider))) in
  exists st' shown stored,
    updateProject req sampleStore = (st', Send 200 (JProject (Some shown))) /\
    projects st' !! Oid id_project = Some stored /\
    name stored = "Tracker" /\ project_key stored = "BT" /\
    leadUserId stored = Oid id_outsider /\
    members shown = [Oid id_lead; Oid id_dev] /\
    members stored = [Oid id_lead; Oid id_dev; Oid id_outsider].
Proof.
  intros req.
  assert (H : updateProject req sampleStore
              = ((updateProject req sampleStore).1,
                 Send 200 (JProject (Some
                   (mkProject (Oid id_project) "BT" "Tracker" ""
                              (Oid id_outsider) [Oid id_lead; Oid id_dev] 3)))))
    by (vm_compute; reflexivity).
  destruct (updateProject_effect req sampleStore _ projectBT projectBT _
              eq_refl ltac:(vm_compute; reflexivity) H)
    as (_ & Hstored & _).
  eexists _, _, _. split; [exact H|]. split; [exact Hstored|].
  repeat split; vm_compute; reflexivity.
Defined.

(** ** The guards of [updateMembers] on the sample database *)

Lemma updateMembers_keeps_lead_witness :
  let req := set_project projectBT
               (request id_lead id_project (membersBody [] [Some id_dev])) in
  exists p', projects (updateMembers req sampleStore).1 !! Oid id_project
             = Some p' /\
             leadUserId p' = Oid id_lead /\ leadUserId p' ∈ members p'.
Proof.
  intros req.
  apply (updateMembers_keeps_lead req sampleStore _ projectBT
           (JProject (projects (updateMembers req sampleStore).1
                      !! Oid id_project))).
  - reflexivity.
  - vm_compute. reflexivity.
  - apply (bool_decide_unpack _). vm_compute. exact I.
  - apply (bool_decide_unpack _). vm_compute. exact I.
  - vm_compute. reflexivity.
Defined.

Lemma updateMembers_rejects_lead_literal_witness :
  let req := set_project projectBT
               (request id_root id_project (membersBody [] [Some id_lead])) in
  (exists msg, updateMembers req sampleStore = (sampleStore, Send 400 (JError msg)))
  \/ updateMembers req sampleStore = (sampleStore, Throw (Error_ "CastError")).
Proof.
  intros req.
  apply (updateMembers_rejects_lead_literal req sampleStore projectBT eq_refl).
  apply (bool_decide_unpack _). vm_compute. exact I.
Defined.

Lemma updateMembers_rejects_unknown_user_witness :
  let req := set_project projectBT
               (request id_root id_project
                        (membersBody [Some id_dev; Some id_nowhere] [])) in
  exists msg, updateMembers req sampleStore = (sampleStore, Send 400 (JError msg)).
Proof.
  intros req.
  apply (updateMembers_rejects_unknown_user req sampleStore id_nowhere).
  - apply (bool_decide_unpack _). vm_compute. exact I.
  - vm_compute. reflexivity.
Defined.


(** ** Deleting a project *)

(** X13: [deleteProject] removes the project and nothing else: the other
    projects, the users, and the issues and comments of the deleted project
    stay in the database.  Those issues and comments can no longer be
    reached: [loadIssue] and [loadComment] answer 404 for them. *)
Theorem deleteProject_no_cascade req st p :
  project req = Some p ->
  let st' := (deleteProject req st).1 in
  (deleteProject req st).2 = Send 204 JEmpty /\
  projects st' !! project_id p = None /\
  (forall k, k <> project_id p -> projects st' !! k = projects st !! k) /\
  users st' = users st /\ issues st' = issues st /\
  comments st' = comments st /\
  (forall rq i,
     findById (issues st) (params_id rq) = Some i ->
     projectId i = project_id p ->
     loadIssue rq st' = (st', Send 404 (JError "Project not found."))) /\
  (forall rq c i,
     findById (comments st) (params_id rq) = Some c ->
     issues st !! issueId c = Some i -> projectId i = project_id p ->
     loadComment rq st'
     = (st', Send 404 (JError "Project not found for comment."))).
Proof.
  intros Hp. unfold deleteProject. rewrite Hp. cbn [fst snd].
  unfold Project_deleteOne.
  set (st' := set_projects (delete (project_id p)) st).
  assert (Hgone : projects st' !! project_id p = None)
    by apply lookup_delete_eq.
  repeat split; try done.
  - intros k Hk. cbn [st' projects set_projects]. by rewrite lookup_delete_ne.
  - intros rq i Hi Hpi. unfold loadIssue.
    destruct (findById_Some _ _ _ Hi) as [Hv _].
    change (issues st') with (issues st). by rewrite Hv, Hi, Hpi, Hgone.
  - intros rq c i Hc Hi Hpi. unfold loadComment.
    destruct (findById_Some _ _ _ Hc) as [Hv _].
    change (issues st') with (issues st).
    change (comments st') with (comments st).
    by rewrite Hv, Hc, Hi, Hpi, Hgone.
Qed.

Lemma deleteProject_no_cascade_witness :
  let req := set_project projectBT (request id_root id_project emptyBody) in
  let st' := (deleteProject req sampleStore).1 in
  projects st' !! Oid id_project = None /\
  issues st' = issues sampleStore /\
  loadIssue (request id_dev id_issue1 emptyBody) st'
  = (st', Send 404 (JError "Project not found.")) /\
  loadComment (request id_dev id_cA emptyBody) st'
  = (st', Send 404 (JError "Project not found for comment.")).
Proof.
  intros req st'.
  destruct (deleteProject_no_cascade req sampleStore projectBT eq_refl)
    as (_ & Hgone & _ & _ & Hiss & _ & Hli & Hlc).
  split; [exact Hgone|]. split; [exact Hiss|]. split.
  - apply (Hli _ issue1); vm_compute; reflexivity.
  - apply (Hlc _ cA issue1); vm_compute; reflexivity.
Defined.

(** X14: [DELETE /projects/:id] called by an active admin on an existing
    project deletes it and answers 204; the same request sent again finds
    no project and answers 404, changing nothing. *)
Theorem DELETE_project_twice req st s u p :
  Store_wf st ->
  user req = Some s -> findById (users st) s = Some u -> isActive u = true ->
  role u = admin ->
  findById (projects st) (params_id req) = Some p ->
  let st' := Project_deleteOne (project_id p) st in
  DELETE_project req st = (st', Send 204 JEmpty) /\
  DELETE_project req st' = (st', Send 404 (JError "Project not found.")).
Proof.
  intros Hwf Hs Hu Ha Hrole Hp st'. split.
  - unfold DELETE_project.
    rewrite (project_route_reaches _ _ req st s u p Hs Hu Ha Hp).
    assert (Hrr : requireRole [admin] (set_project p (set_authUser u req)) st
                  = (st, Next (set_project p (set_authUser u req)))).
    { unfold requireRole. cbn [authUser set_authUser set_project].
      rewrite Hrole. reflexivity. }
    rewrite (chain_next _ _ _ _ _ _ Hrr), chain_last. reflexivity.
  - unfold DELETE_project.
    assert (Hu' : findById (users st') s = Some u) by exact Hu.
    rewrite (chain_next _ _ _ _ _ _ (loadCurrentUser_ok _ _ _ _ Hs Hu' Ha)).
    apply chain_send. unfold loadProject.
    cbn [params_id set_authUser].
    destruct (findById_Some _ _ _ Hp) as [Hv Hlook]. rewrite Hv. cbn [negb].
    assert (Hid : project_id p = createFromHexString (params_id req))
      by (eapply (keyed_by_lookup project_id); [apply Hwf | exact Hlook]).
    unfold findById. rewrite (castObjectId_valid _ Hv). cbn [mbind option_bind].
    cbn [st' Project_deleteOne projects set_projects].
    by rewrite Hid, lookup_delete_eq.
Qed.

Lemma DELETE_project_twice_witness :
  let req := request id_root id_project emptyBody in
  let st' := (DELETE_project req widerStore).1 in
  (DELETE_project req widerStore).2 = Send 204 JEmpty /\
  projects st' !! Oid id_projectOPS = Some projectOPS /\
  DELETE_project req st' = (st', Send 404 (JError "Project not found.")).
Proof.
  intros req st'.
  destruct (DELETE_project_twice req widerStore id_root root projectBT
              ltac:(apply Store_wfb_spec; vm_compute; reflexivity)
              eq_refl ltac:(vm_compute; reflexivity) eq_refl eq_refl
              ltac:(vm_compute; reflexivity)) as [H1 H2].
  unfold st'. rewrite H1. cbn [fst snd].
  split; [reflexivity|]. split; [vm_compute; reflexivity | exact H2].
Defined.

(** ** Listing and reading projects *)

#[global] Instance newer_first_total f : Total (newer_first f).
Proof. intros a b. unfold newer_first. lia. Qed.

Lemma isLead_eq u p : isLead u p = bool_decide (leadUserId p = user_id u).
Proof.
  unfold isLead. destruct (String.eqb _ _) eqn:E.
  - apply String_eqb_eq in E. by rewrite bool_decide_eq_true_2.
  - rewrite bool_decide_eq_false_2; [done|].
    intros Heq. apply String_eqb_eq in Heq. congruence.
Qed.

Lemma isMember_eq u p : isMember u p = bool_decide (user_id u ∈ members p).
Proof.
  unfold isMember. destruct (existsb _ _) eqn:E.
  - apply existsb_exists in E as (m & Hm & E). apply String_eqb_eq in E.
    subst. rewrite bool_decide_eq_true_2; [done|]. by apply list_elem_of_In.
  - rewrite bool_decide_eq_false_2; [done|]. intros Hin.
    assert (existsb (fun m => String.eqb (String_ m) (String_ (user_id u)))
                    (members p) = true) as Ht; [|congruence].
    apply existsb_exists. exists (user_id u).
    split; [by apply list_elem_of_In | apply String.eqb_refl].
Qed.

Lemma Project_find_sorted_spec createdAt_of flt st :
  Sorted (newer_first createdAt_of) (Project_find_sorted createdAt_of flt st) /\
  forall p, p ∈ Project_find_sorted createdAt_of flt st <->
            (exists k, projects st !! k = Some p) /\ flt p = true.
Proof.
  unfold Project_find_sorted. split.
  - apply (Sorted_merge_sort (newer_first createdAt_of)).
  - intros p. rewrite merge_sort_Permutation, list_elem_of_filter,
      list_elem_of_fmap.
    split.
    + intros [Hf ([k p'] & -> & Hin)].
      apply elem_of_map_to_list in Hin. eauto.
    + intros [[k Hk] Hf]. split; [done|].
      exists (k, p). split; [done | by apply elem_of_map_to_list].
Qed.

(** X15: [GET /projects] shows a caller exactly the projects that the
    member-or-admin gate would let them open: an admin sees every project,
    any other user the projects they lead or belong to; the list is sorted
    newest first. *)
Theorem GET_projects_visibility createdAt_of req st s u :
  user req = Some s -> findById (users st) s = Some u -> isActive u = true ->
  exists ps,
    GET_projects createdAt_of req st = inr (Projects ps) /\
    Sorted (newer_first createdAt_of) ps /\
    forall p,
      p ∈ ps <->
      (exists k, projects st !! k = Some p) /\
      requireProjectMemberOrAdmin (set_project p (set_authUser u req)) st
      = (st, Next (set_project p (set_authUser u req))).
Proof.
  intros Hs Hu Ha. unfold GET_projects.
  rewrite (loadCurrentUser_ok _ _ _ _ Hs Hu Ha).
  unfold listProjects. cbn [authUser set_authUser].
  assert (Hgate : forall p,
            requireProjectMemberOrAdmin (set_project p (set_authUser u req)) st
            = (st, Next (set_project p (set_authUser u req)))
            <-> isAdmin u || isLead u p || isMember u p = true).
  { intros p. unfold requireProjectMemberOrAdmin.
    cbn [authUser project set_authUser set_project].
    destruct (isAdmin u || isLead u p || isMember u p); cbn [negb];
      split; try done; discriminate. }
  destruct (bool_decide (role u = admin)) eqn:Hadm.
  - destruct (Project_find_sorted_spec createdAt_of (fun _ => true) st)
      as [Hsorted Hin].
    eexists. split; [reflexivity|]. split; [exact Hsorted|].
    intros p. rewrite Hin, Hgate. unfold isAdmin. rewrite Hadm. tauto.
  - destruct (Project_find_sorted_spec createdAt_of
                (leads_or_belongs (user_id u)) st) as [Hsorted Hin].
    eexists. split; [reflexivity|]. split; [exact Hsorted|].
    intros p. rewrite Hin, Hgate. unfold isAdmin, leads_or_belongs.
    rewrite Hadm, isLead_eq, isMember_eq. tauto.
Qed.

Lemma GET_projects_visibility_witness :
  GET_projects sample_createdAt (request id_dev "" emptyBody) widerStore
  = inr (Projects [projectOPS; projectBT]) /\
  GET_projects sample_createdAt (request id_outsider "" emptyBody) widerStore
  = inr (Projects [projectOPS]) /\
  exists ps,
    GET_projects sample_createdAt (request id_outsider "" emptyBody) widerStore
    = inr (Projects ps) /\ projectBT ∉ ps.
Proof.
  split; [vm_compute; reflexivity|]. split; [vm_compute; reflexivity|].
  destruct (GET_projects_visibility sample_createdAt
              (request id_outsider "" emptyBody) widerStore id_outsider outsider
              eq_refl ltac:(vm_compute; reflexivity) eq_refl)
    as (ps & Hget & _ & Hin).
  exists ps. split; [exact Hget|].
  intros Hbt. apply Hin in Hbt as [_ Hgate].
  vm_compute in Hgate. discriminate.
Defined.

(** ** Routes that only read *)

Lemma chain_reads_only (hs : list Handler) :
  Forall (fun h : Handler => forall req st, (h req st).1 = st) hs ->
  forall req st, (chain hs req st).1 = st.
Proof.
  induction 1 as [|h hs Hh _ IH]; intros req st; [done|].
  cbn [chain]. specialize (Hh req st).
  destruct (h req st) as [st' [req'|code payload|e]]; cbn [fst] in *; subst;
    [apply IH | done | done].
Qed.

Lemma loadCurrentUser_reads req st : (loadCurrentUser req st).1 = st.
Proof. unfold loadCurrentUser. repeat case_match; reflexivity. Qed.

Lemma loadProject_reads req st : (loadProject req st).1 = st.
Proof. unfold loadProject. repeat case_match; reflexivity. Qed.

Lemma loadIssue_reads req st : (loadIssue req st).1 = st.
Proof. unfold loadIssue. repeat case_match; reflexivity. Qed.

Lemma loadComment_reads req st : (loadComment req st).1 = st.
Proof. unfold loadComment. repeat case_match; reflexivity. Qed.

Lemma requireProjectMemberOrAdmin_reads req st :
  (requireProjectMemberOrAdmin req st).1 = st.
Proof. unfold requireProjectMemberOrAdmin. repeat case_match; reflexivity. Qed.

Lemma requireProjectLeadOrAdmin_reads req st :
  (requireProjectLeadOrAdmin req st).1 = st.
Proof. unfold requireProjectLeadOrAdmin. repeat case_match; reflexivity. Qed.

Lemma requireRole_reads roles req st : (requireRole roles req st).1 = st.
Proof. unfold requireRole. repeat case_match; reflexivity. Qed.

(** X16: the loaders and gates never write, and neither do the reading
    routes: [GET /projects/:id], [GET /issues/:id/comments] and
    [GET /comments/:id/replies] leave the database as it is, whatever they
    answer. *)
Theorem reading_routes_never_write req st :
  (loadCurrentUser req st).1 = st /\ (loadProject req st).1 = st /\
  (loadIssue req st).1 = st /\ (loadComment req st).1 = st /\
  (requireProjectMemberOrAdmin req st).1 = st /\
  (requireProjectLeadOrAdmin req st).1 = st /\
  (forall roles, (requireRole roles req st).1 = st) /\
  (GET_project req st).1 = st /\ (GET_issue_comments req st).1 = st /\
  (GET_comment_replies req st).1 = st.
Proof.
  repeat split;
    try first [ apply loadCurrentUser_reads | apply loadProject_reads
              | apply loadIssue_reads | apply loadComment_reads
              | apply requireProjectMemberOrAdmin_reads
              | apply requireProjectLeadOrAdmin_reads ].
  - intros roles. apply requireRole_reads.
  - apply chain_reads_only. repeat constructor;
      first [ apply loadCurrentUser_reads | apply loadProject_reads
            | apply requireProjectMemberOrAdmin_reads | reflexivity ].
  - apply chain_reads_only. repeat constructor;
      try first [ apply loadCurrentUser_reads | apply loadIssue_reads
                | apply requireProjectMemberOrAdmin_reads ].
    intros rq s. unfold listIssueComments. cbv zeta.
    repeat case_match; reflexivity.
  - apply chain_reads_only. repeat constructor;
      try first [ apply loadCurrentUser_reads | apply loadComment_reads
                | apply requireProjectMemberOrAdmin_reads ].
    intros rq s. unfold listReplies. cbv zeta.
    repeat case_match; reflexivity.
Qed.

(** ** Creating a comment *)

Lemma chain_cons_inv h hs req st r :
  chain (h :: hs) req st = r ->
  (exists st1 req1, h req st = (st1, Next req1) /\ chain hs req1 st1 = r)
  \/ h req st = r.
Proof.
  cbn [chain]. destruct (h req st) as [st1 [req1|code payload|e]]; eauto.
Qed.

Lemma loadCurrentUser_Next req st st' req' :
  loadCurrentUser req st = (st', Next req') ->
  st' = st /\
  exists s u, user req = Some s /\ findById (users st) s = Some u /\
              isActive u = true /\ req' = set_authUser u req.
Proof.
  unfold loadCurrentUser. intros H.
  repeat case_match; simplify_eq. eauto 10.
Qed.

Lemma loadIssue_Next req st st' req' :
  loadIssue req st = (st', Next req') ->
  st' = st /\
  exists i p, findById (issues st) (params_id req) = Some i /\
              projects st !! projectId i = Some p /\
              req' = set_project p (set_issue i req).
Proof.
  unfold loadIssue. intros H.
  repeat case_match; simplify_eq. eauto 10.
Qed.

Lemma loadComment_Next req st st' req' :
  loadComment req st = (st', Next req') ->
  st' = st /\
  exists c i p, findById (comments st) (params_id req) = Some c /\
                issues st !! issueId c = Some i /\
                projects st !! projectId i = Some p /\
                req' = set_project p (set_issue i (set_comment c req)).
Proof.
  unfold loadComment. intros H.
  repeat case_match; simplify_eq. eauto 10.
Qed.

Lemma requireProjectMemberOrAdmin_Next req st st' req' :
  requireProjectMemberOrAdmin req st = (st', Next req') ->
  st' = st /\ req' = req /\
  exists u p, authUser req = Some u /\ project req = Some p /\
              isAdmin u || isLead u p || isMember u p = true.
Proof.
  unfold requireProjectMemberOrAdmin. intros H.
  destruct (authUser req) as [u|]; [|discriminate].
  destruct (project req) as [p|]; [|discriminate].
  destruct (isAdmin u || isLead u p || isMember u p) eqn:Hg;
    cbn [negb] in H; [|discriminate].
  injection H as <- <-. eauto 10.
Qed.

Lemma Comment_create_fresh newId now iid aid b parent anc st st' c :
  Comment_create newId now iid aid b parent anc st = (st', inr c) ->
  comments st !! newId = None /\ Comment_validate c = None.
Proof.
  unfold Comment_create. intros H.
  destruct parent as [s|]; cbn [mbind option_bind] in H.
  - destruct (castObjectId s); [|discriminate].
    destruct (Comment_validate _) eqn:Hval; [discriminate|].
    case_bool_decide as Hf; [discriminate|]. injection H as <- <-.
    split; [by apply eq_None_not_Some | done].
  - destruct (Comment_validate _) eqn:Hval; [discriminate|].
    case_bool_decide as Hf; [discriminate|]. injection H as <- <-.
    split; [by apply eq_None_not_Some | done].
Qed.

Lemma Comment_validate_None c :
  Comment_validate c = None -> deleted c = false ->
  body c <> "" /\ (String.length (body c) <= 5000)%nat.
Proof.
  unfold Comment_validate. intros H Hd. rewrite Hd in H. cbn [negb andb] in H.
  destruct (String.eqb (body c) "") eqn:E; [discriminate|].
  destruct (5000 <? String.length (body c))%nat eqn:L; [discriminate|].
  apply String.eqb_neq in E. apply Nat.ltb_ge in L. done.
Qed.

(** Everything a 201 answer of [createComment] tells. *)
Lemma createComment_inv newId now req st st' c :
  createComment newId now req st = (st', Send 201 (JComment c)) ->
  exists iss u b,
    (issue req = Some iss
     \/ issue req = None /\ findById (issues st) (params_id req) = Some iss) /\
    authUser req = Some u /\ rb_body (rbody req) = Some b /\
    c = mkComment newId (issue_id iss) (user_id u) (Js.trim b)
                  (rb_parentId (rbody req) ≫= castObjectId)
                  (ancestors c) false false now /\
    comments st !! newId = None /\ Comment_validate c = None /\
    well_placed (comments st) c /\
    st' = inc_commentCount (issue_id iss) 1 (set_comments <[newId := c]> st).
Proof.
  unfold createComment. intros H. cbv zeta in H.
  destruct (isValidId (params_id req)); cbn [negb] in H; [|discriminate].
  destruct (match issue req with Some i => Some i | None => _ end)
    as [iss|] eqn:Hiss; [|discriminate].
  destruct (match project req with Some p => Some p | None => _ end);
    [|discriminate].
  destruct (authUser req) as [u|]; [|discriminate].
  destruct (Js.blank _) eqn:Hb; [discriminate|].
  apply blank_false in Hb as [b Hb]. rewrite Hb in H. cbn [default from_option id] in H.
  exists iss, u, b.
  assert (Hi : issue req = Some iss
               \/ issue req = None /\ findById (issues st) (params_id req) = Some iss)
    by (destruct (issue req); [left; congruence | right; done]).
  destruct (rb_parentId (rbody req)) as [s|] eqn:Hpar.
  - destruct (isValidId s) eqn:Hv; cbn [negb] in H; [|discriminate].
    destruct (findById (comments st) s) as [P|] eqn:HP; [|discriminate].
    destruct (String.eqb _ _) eqn:Heq; cbn [negb] in H; [|discriminate].
    destruct (Comment_create _ _ _ _ _ _ _ _) as [st1 [e|c1]] eqn:Hcr;
      [discriminate|].
    injection H as <- <-.
    destruct (Comment_create_fresh _ _ _ _ _ _ _ _ _ _ Hcr) as [Hfresh Hval].
    apply Comment_create_inr in Hcr as (Hc & -> & _).
    apply String_eqb_eq in Heq.
    destruct (findById_Some _ _ _ HP) as [_ HP'].
    repeat split; try done.
    + rewrite Hc. reflexivity.
    + unfold well_placed. rewrite Hc. cbn [parentId mbind option_bind].
      rewrite (castObjectId_valid _ Hv). exists P.
      cbn [ancestors issueId]. by rewrite Heq.
  - destruct (Comment_create _ _ _ _ _ _ _ _) as [st1 [e|c1]] eqn:Hcr;
      [discriminate|].
    injection H as <- <-.
    destruct (Comment_create_fresh _ _ _ _ _ _ _ _ _ _ Hcr) as [Hfresh Hval].
    apply Comment_create_inr in Hcr as (Hc & -> & _).
    repeat split; try done.
    + rewrite Hc. reflexivity.
    + unfold well_placed. by rewrite Hc.
Qed.

Lemma POST_issue_comments_reaches newId now req st st' c :
  POST_issue_comments newId now req st = (st', Send 201 (JComment c)) ->
  exists s u i p,
    user req = Some s /\ findById (users st) s = Some u /\ isActive u = true /\
    findById (issues st) (params_id req) = Some i /\
    projects st !! projectId i = Some p /\
    isAdmin u || isLead u p || isMember u p = true /\
    createComment newId now (set_project p (set_issue i (set_authUser u req))) st
    = (st', Send 201 (JComment c)).
Proof.
  unfold POST_issue_comments. intros H.
  apply chain_cons_inv in H as [(st1 & r1 & H1 & H)|H1];
    [|destruct (loadCurrentUser_inv req st)
        as [(? & _ & _ & E)|(? & ? & E & _)]; congruence].
  apply loadCurrentUser_Next in H1 as (-> & s & u & Hs & Hu & Ha & ->).
  apply chain_cons_inv in H as [(st2 & r2 & H2 & H)|H2];
    [|destruct (loadIssue_inv (set_authUser u req) st)
        as [(? & ? & _ & _ & E)|(? & ? & E & _)]; congruence].
  apply loadIssue_Next in H2 as (-> & i & p & Hi & Hp & ->).
  apply chain_cons_inv in H as [(st3 & r3 & H3 & H)|H3];
    [|destruct (requireProjectMemberOrAdmin_inv
                  (set_project p (set_issue i (set_authUser u req))) st)
        as [(? & ? & _ & _ & _ & E)|(? & ? & E & _)]; congruence].
  apply requireProjectMemberOrAdmin_Next in H3
    as (-> & -> & u' & p' & Hu' & Hp' & Hgate).
  cbn in Hu', Hp'. simplify_eq. rewrite chain_last in H.
  exists s, u', i, p'. repeat split; done.
Qed.

(** X17: what a 201 answer of [POST /issues/:id/comments] tells.  The caller
    resolved to an active user who is admin, lead or member of the issue's
    project; the new comment is stored under the fresh id, lies on the issue
    of the route, names the caller as its author, carries the trimmed body,
    which is neither empty nor longer than 5000 characters, and is neither
    edited nor deleted; the issue's counter went up by one and nothing else
    changed. *)
Theorem POST_issue_comments_creates newId now req st st' c :
  POST_issue_comments newId now req st = (st', Send 201 (JComment c)) ->
  exists s u i p b,
    user req = Some s /\ findById (users st) s = Some u /\ isActive u = true /\
    findById (issues st) (params_id req) = Some i /\
    projects st !! projectId i = Some p /\
    isAdmin u || isLead u p || isMember u p = true /\
    rb_body (rbody req) = Some b /\
    comment_id c = newId /\ comments st !! newId = None /\
    issueId c = issue_id i /\ authorId c = user_id u /\
    body c = Js.trim b /\ body c <> "" /\
    (String.length (body c) <= 5000)%nat /\
    edited c = false /\ deleted c = false /\ createdAt c = now /\
    st' = inc_commentCount (issue_id i) 1 (set_comments <[newId := c]> st).
Proof.
  intros H.
  apply POST_issue_comments_reaches in H
    as (s & u & i & p & Hs & Hu & Ha & Hi & Hp & Hgate & H).
  apply createComment_inv in H
    as (iss & u' & b & Hiss & Hu' & Hb & Hc & Hfresh & Hval & _ & Hst).
  cbn in Hu', Hiss. destruct Hiss as [Hiss | [Hiss _]]; [|discriminate].
  simplify_eq.
  assert (Hdel : deleted c = false) by (by rewrite Hc).
  destruct (Comment_validate_None c Hval Hdel) as [Hne Hlen].
  exists s, u', iss, p, b.
  repeat split; try done; by rewrite Hc.
Qed.

Lemma POST_issue_comments_creates_witness :
  let req := request id_dev id_issue1 (commentBody "  me too " (Some id_cA)) in
  exists st' c,
    POST_issue_comments (Oid id_new) 2000 req sampleStore
    = (st', Send 201 (JComment c)) /\
    authorId c = Oid id_dev /\ body c = "me too" /\
    commentCount <$> issues st' !! Oid id_issue1 = Some 3.
Proof.
  intros req.
  assert (H : POST_issue_comments (Oid id_new) 2000 req sampleStore
              = ((POST_issue_comments (Oid id_new) 2000 req sampleStore).1,
                 Send 201 (JComment
                   (mkComment (Oid id_new) (Oid id_issue1) (Oid id_dev) "me too"
                              (Some (Oid id_cA)) [Oid id_cA] false false 2000))))
    by (vm_compute; reflexivity).
  destruct (POST_issue_comments_creates _ _ _ _ _ _ H)
    as (s & u & i & p & b & Hs & Hu & _ & _ & _ & _ & Hb & _ & _ & _ & Ha & Hbody & _).
  eexists _, _. split; [exact H|].
  injection Hs as <-. vm_compute in Hu. injection Hu as <-.
  injection Hb as <-.
  split; [exact Ha|]. split; [rewrite Hbody; reflexivity|].
  vm_compute. reflexivity.
Defined.

(** ** Threads under creations, edits and deletions *)

Lemma later_state_refl c : later_state c c.
Proof. by repeat split. Qed.

Lemma later_state_trans c1 c2 c3 :
  later_state c1 c2 -> later_state c2 c3 -> later_state c1 c3.
Proof.
  intros (? & ? & ? & ? & ? & ? & ?) (? & ? & ? & ? & ? & ? & ?).
  repeat split; try congruence. auto.
Qed.

Lemma later_with_body_edited b c : later_state c (with_body_edited b c).
Proof. by repeat split. Qed.

Lemma later_with_deleted c : later_state c (with_deleted c).
Proof. by repeat split. Qed.

(** The requests for which a comment route hands over to its controller. *)
Lemma comment_route_cases (h : Handler) req st :
  Store_wf st ->
  (chain [loadCurrentUser; loadComment; requireProjectMemberOrAdmin; h]
         req st).1 = st
  \/ exists req' c i,
       comment req' = Some c /\ issue req' = Some i /\ issue_id i = issueId c /\
       comments st !! comment_id c = Some c /\
       chain [loadCurrentUser; loadComment; requireProjectMemberOrAdmin; h] req st
       = h req' st.
Proof.
  intros Hwf.
  destruct (loadCurrentUser req st) as [s1 r1] eqn:H1.
  pose proof (loadCurrentUser_reads req st) as E1. rewrite H1 in E1.
  cbn [fst] in E1. subst s1.
  destruct r1 as [req1|code payload|e];
    [|left; cbn [chain]; by rewrite H1..].
  rewrite (chain_next _ _ _ _ _ _ H1).
  destruct (loadComment req1 st) as [s2 r2] eqn:H2.
  pose proof (loadComment_reads req1 st) as E2. rewrite H2 in E2.
  cbn [fst] in E2. subst s2.
  destruct r2 as [req2|code payload|e];
    [|left; cbn [chain]; by rewrite H2..].
  rewrite (chain_next _ _ _ _ _ _ H2).
  apply loadComment_Next in H2 as (_ & c & i & p & Hc & Hi & Hp & ->).
  set (req2 := set_project p (set_issue i (set_comment c req1))).
  destruct (requireProjectMemberOrAdmin req2 st) as [s3 r3] eqn:H3.
  pose proof (requireProjectMemberOrAdmin_reads req2 st) as E3.
  rewrite H3 in E3. cbn [fst] in E3. subst s3.
  destruct r3 as [req3|code payload|e];
    [|left; cbn [chain]; by rewrite H3..].
  rewrite (chain_next _ _ _ _ _ _ H3), chain_last.
  apply requireProjectMemberOrAdmin_Next in H3 as (_ & -> & _).
  right. exists req2, c, i. repeat split.
  - eapply (keyed_by_lookup issue_id); [apply Hwf | exact Hi].
  - eapply findById_keyed; [apply Hwf | exact Hc].
Qed.

Lemma PATCH_comment_store req st :
  Store_wf st ->
  (PATCH_comment req st).1 = st
  \/ exists c b,
       comments st !! comment_id c = Some c /\
       (PATCH_comment req st).1
       = set_comments <[comment_id c := with_body_edited b c]> st.
Proof.
  intros Hwf. unfold PATCH_comment.
  destruct (comment_route_cases updateComment req st Hwf)
    as [H|(req' & c & i & Hc & _ & _ & Hlook & ->)]; [by left|].
  unfold updateComment, Comment_save. rewrite Hc, Hlook.
  cbn [comment_id with_body_edited]. rewrite Hlook.
  repeat case_match; simplify_eq; cbn [fst]; eauto.
Qed.

Lemma serve_step call st :
  Store_wf st ->
  Store_wf (serve call st).1 /\
  comment_write (comments st) (comments (serve call st).1).
Proof.
  intros Hwf. destruct call as [newId now req | req | req]; cbn [serve].
  - destruct (POST_issue_comments_spec newId now req st)
      as [(r & -> & _) | (c & Heq)]; cbn [fst].
    + split; [done | constructor].
    + pose proof Heq as Hinv.
      apply POST_issue_comments_reaches in Hinv
        as (s & u & i & p & _ & _ & _ & _ & _ & _ & Hinv).
      apply createComment_inv in Hinv
        as (iss & u' & b & _ & _ & _ & Hc & Hfresh & _ & Hplaced & _).
      assert (Hid : comment_id c = newId) by (by rewrite Hc).
      rewrite Heq. cbn [fst]. split.
      * by apply Store_wf_inc_commentCount, Store_wf_set_comment.
      * change (comments (inc_commentCount (issueId c) 1
                            (set_comments <[comment_id c := c]> st)))
          with (<[comment_id c := c]> (comments st)).
        apply write_new; [by rewrite Hid | done].
  - destruct (PATCH_comment_store req st Hwf) as [->|(c & b & Hlook & ->)].
    + split; [done | constructor].
    + split.
      * apply (Store_wf_set_comment (with_body_edited b c) st Hwf).
      * cbn [comments set_comments].
        apply write_over; [done | apply later_with_body_edited].
  - destruct (DELETE_comment_spec req st Hwf)
      as [(code & msg & -> & _) | [(c & _ & _ & ->) | (c & Hc & _ & ->)]];
      cbn [fst]; try (split; [done | constructor]).
    assert (Hlook : comments st !! comment_id c = Some c)
      by (eapply findById_keyed; [apply Hwf | exact Hc]).
    split.
    + apply Store_wf_inc_commentCount.
      apply (Store_wf_set_comment (with_deleted c) st Hwf).
    + change (comments (inc_commentCount (issueId c) (-1)
                          (set_comments <[comment_id c := with_deleted c]> st)))
        with (<[comment_id c := with_deleted c]> (comments st)).
      apply write_over; [done | apply later_with_deleted].
Qed.

Lemma comment_write_thread_wf m m' :
  comment_write m m' -> thread_wf m -> thread_wf m'.
Proof.
  intros Hw Hm. destruct Hw as [|c Hfresh Hplaced|d d' Hd Hl]; [done| |].
  - assert (Hkeep : forall x, well_placed m x ->
                              well_placed (<[comment_id c := c]> m) x).
    { intros x. unfold well_placed. destruct (parentId x) as [pid|]; [|done].
      intros (P & HP & Ha & Hi). exists P. split; [|done].
      rewrite lookup_insert_ne; [done|]. intros <-. congruence. }
    intros k x Hx. apply Hkeep.
    destruct (decide (comment_id c = k)) as [<-|Hne].
    + rewrite lookup_insert_eq in Hx. by injection Hx as <-.
    + rewrite lookup_insert_ne in Hx by done. by apply (Hm k).
  - destruct Hl as (Hid & His & _ & Hpar & Hanc & _).
    assert (Hkeep : forall x, well_placed m x ->
                              well_placed (<[comment_id d := d']> m) x).
    { intros x. unfold well_placed. destruct (parentId x) as [pid|]; [|done].
      intros (P & HP & Ha & Hi).
      destruct (decide (comment_id d = pid)) as [<-|Hne].
      - exists d'. rewrite lookup_insert_eq. simplify_eq.
        repeat split; congruence.
      - exists P. by rewrite lookup_insert_ne. }
    intros k x Hx.
    destruct (decide (comment_id d = k)) as [<-|Hne].
    + rewrite lookup_insert_eq in Hx. injection Hx as <-.
      pose proof (Hkeep d (Hm _ _ Hd)) as Hw. unfold well_placed in *.
      rewrite Hpar, Hanc, His. exact Hw.
    + rewrite lookup_insert_ne in Hx by done. apply Hkeep. by apply (Hm k).
Qed.

Lemma comment_write_later m m' k c :
  comment_write m m' -> m !! k = Some c ->
  exists c', m' !! k = Some c' /\ later_state c c'.
Proof.
  intros Hw Hk. destruct Hw as [|x Hfresh _|d d' Hd Hl].
  - exists c. split; [done | apply later_state_refl].
  - exists c. split; [|apply later_state_refl].
    rewrite lookup_insert_ne; [done|]. intros <-. congruence.
  - destruct (decide (comment_id d = k)) as [<-|Hne].
    + exists d'. rewrite lookup_insert_eq. by simplify_eq.
    + exists c. rewrite lookup_insert_ne by done.
      split; [done | apply later_state_refl].
Qed.

(** In a well-formed thread the ancestor list of a comment ends with its
    parent, and every ancestor is a stored comment of the same issue that
    lies less deep. *)
Lemma ancestors_resolve m :
  keyed_by comment_id m -> thread_wf m ->
  forall n k c,
    m !! k = Some c -> length (ancestors c) = n ->
    parentId c = last (ancestors c) /\
    forall a, a ∈ ancestors c ->
              exists A, m !! a = Some A /\ issueId A = issueId c /\
                        (length (ancestors A) < length (ancestors c))%nat.
Proof.
  intros Hkey Hwf n. induction n as [n IH] using lt_wf_ind.
  intros k c Hc Hn. pose proof (Hwf k c Hc) as Hw. unfold well_placed in Hw.
  destruct (parentId c) as [pid|].
  - destruct Hw as (P & HP & Ha & Hi).
    assert (HidP : comment_id P = pid) by (by apply (Hkey pid P)).
    rewrite Ha, last_snoc, HidP. split; [done|].
    intros a Hin. apply elem_of_app in Hin as [Hin|Hin].
    + assert (Hlt : (length (ancestors P) < n)%nat)
        by (rewrite <- Hn, Ha, length_app; simpl; lia).
      destruct (IH _ Hlt pid P HP eq_refl) as [_ Hanc].
      destruct (Hanc a Hin) as (A & HA & HiA & HlA).
      exists A. repeat split; [done | congruence |].
      rewrite length_app. simpl. lia.
    + apply list_elem_of_singleton in Hin as ->. exists P.
      repeat split; [done | done |].
      rewrite length_app. simpl. lia.
  - rewrite Hw. split; [done|]. intros a Hin. by apply elem_of_nil in Hin.
Qed.

Lemma serve_all_cons call calls st :
  serve_all (call :: calls) st = serve_all calls (serve call st).1.
Proof. reflexivity. Qed.

Lemma serve_all_wf calls : forall st,
  Store_wf st -> thread_wf (comments st) ->
  Store_wf (serve_all calls st) /\ thread_wf (comments (serve_all calls st)).
Proof.
  induction calls as [|call calls IH]; intros st Hwf Ht; [done|].
  rewrite serve_all_cons. destruct (serve_step call st Hwf) as [Hwf' Hw].
  apply IH; [done|]. by eapply comment_write_thread_wf.
Qed.

(** X18: comment threads stay well formed.  Starting from a database in
    which every reply continues the ancestor chain of its parent, any
    sequence of comment creations, edits and deletions leads to such a
    database again.  So for every stored comment the last ancestor is the
    parent, and every ancestor is a stored comment of the same issue that
    lies less deep in the thread. *)
Theorem comment_threads_stay_well_formed calls st :
  Store_wf st -> thread_wf (comments st) ->
  let m := comments (serve_all calls st) in
  thread_wf m /\
  forall k c,
    m !! k = Some c ->
    parentId c = last (ancestors c) /\
    forall a, a ∈ ancestors c ->
              exists A, m !! a = Some A /\ issueId A = issueId c /\
                        (length (ancestors A) < length (ancestors c))%nat.
Proof.
  intros Hwf Ht m. destruct (serve_all_wf calls st Hwf Ht) as [Hwf' Ht'].
  split; [exact Ht'|]. intros k c Hc.
  eapply (ancestors_resolve m); [apply Hwf' | exact Ht' | exact Hc | reflexivity].
Qed.

Lemma sampleStore_threads : thread_wf (comments sampleStore).
Proof.
  intros k c Hk. apply elem_of_map_to_list in Hk.
  remember (map_to_list (comments sampleStore)) as l eqn:Hl.
  vm_compute in Hl. subst l.
  repeat (apply elem_of_cons in Hk as [Hk|Hk];
          [injection Hk as -> ->; unfold well_placed; cbn [parentId ancestors];
           first [ reflexivity
                 | exists cA; repeat split; vm_compute; reflexivity ]|]).
  by apply elem_of_nil in Hk.
Qed.

Lemma comment_threads_stay_well_formed_witness :
  let calls :=
    [CallCreate (Oid id_new) 2000
       (request id_dev id_issue1 (commentBody "me too" (Some id_cB)));
     CallDelete (request id_dev id_cB emptyBody);
     CallEdit (request id_root id_cA (commentBody "edited" None))] in
  let m := comments (serve_all calls sampleStore) in
  ancestors <$> m !! Oid id_new = Some [Oid id_cA; Oid id_cB] /\
  deleted <$> m !! Oid id_cB = Some true /\
  thread_wf m.
Proof.
  intros calls m.
  split; [vm_compute; reflexivity|]. split; [vm_compute; reflexivity|].
  apply (comment_threads_stay_well_formed calls sampleStore
           ltac:(apply Store_wfb_spec; vm_compute; reflexivity)
           sampleStore_threads).
Defined.

(** X19: comments are never removed.  Whatever creations, edits and
    deletions follow, a stored comment stays stored under its id, on its
    issue, at its place in the thread, with its author and creation time,
    and a deleted comment stays deleted; only body and flags change. *)
Theorem comments_are_never_lost calls : forall st k c,
  Store_wf st -> comments st !! k = Some c ->
  exists c', comments (serve_all calls st) !! k = Some c' /\ later_state c c'.
Proof.
  induction calls as [|call calls IH]; intros st k c Hwf Hk.
  - exists c. split; [done | apply later_state_refl].
  - rewrite serve_all_cons. destruct (serve_step call st Hwf) as [Hwf' Hw].
    destruct (comment_write_later _ _ k c Hw Hk) as (c1 & Hk1 & Hl1).
    destruct (IH _ k c1 Hwf' Hk1) as (c2 & Hk2 & Hl2).
    exists c2. split; [done | by eapply later_state_trans].
Qed.

Lemma comments_are_never_lost_witness :
  let calls :=
    [CallDelete (request id_dev id_cB emptyBody);
     CallEdit (request id_dev id_cB (commentBody "back" None));
     CallDelete (request id_root id_cA emptyBody)] in
  exists c',
    comments (serve_all calls sampleStore) !! Oid id_cB = Some c' /\
    later_state cB c' /\ body c' = "back" /\ deleted c' = true.
Proof.
  intros calls.
  destruct (comments_are_never_lost calls sampleStore (Oid id_cB) cB
              ltac:(apply Store_wfb_spec; vm_compute; reflexivity)
              ltac:(vm_compute; reflexivity)) as (c' & Hc' & Hl).
  exists c'. split; [exact Hc'|]. split; [exact Hl|].
  vm_compute in Hc'. injection Hc' as <-. split; reflexivity.
Defined.

(** ** Pages of a listing *)






(** ** Issue keys: gaps and collisions *)




Lemma list_ascii_of_string_app s1 s2 :
  list_ascii_of_string (s1 +:+ s2)
  = list_ascii_of_string s1 ++ list_ascii_of_string s2.
Proof. induction s1 as [|a s1 IH]; [done|]. simpl. by rewrite IH. Qed.

Lemma list_ascii_of_string_inj s1 s2 :
  list_ascii_of_string s1 = list_ascii_of_string s2 -> s1 = s2.
Proof.
  intros H. by rewrite <- (string_of_list_ascii_of_string s1),
    <- (string_of_list_ascii_of_string s2), H.
Qed.

Lemma dash_split (l1 l2 r1 r2 : list ascii) :
  "-"%char ∉ l1 -> "-"%char ∉ l2 ->
  l1 ++ "-"%char :: r1 = l2 ++ "-"%char :: r2 -> l1 = l2 /\ r1 = r2.
Proof.
  revert l2. induction l1 as [|a l1 IH]; intros [|b l2] H1 H2 H; simpl in H.
  - by injection H.
  - injection H as <- _. destruct H2. by left.
  - injection H as -> _. destruct H1. by left.
  - injection H as <- H. apply not_elem_of_cons in H1 as [_ H1].
    apply not_elem_of_cons in H2 as [_ H2].
    destruct (IH l2 H1 H2 H) as [-> ->]. done.
Qed.

(** X22: the key of an issue determines both the project key and the number
    it was built from: project keys contain no dash, so two projects with
    different keys never produce the same issue key, and one project never
    produces the same key for two different counter values. *)
Theorem make_key_injective p q :
  key_format (project_key p) = true -> key_format (project_key q) = true ->
  make_key p = make_key q ->
  project_key p = project_key q /\ nextIssueSeq p = nextIssueSeq q.
Proof.
  unfold make_key, key_format. rewrite !andb_true_iff.
  intros [_ Hp] [_ Hq] H.
  apply key_chars_normal in Hp as (_ & _ & Hp).
  apply key_chars_normal in Hq as (_ & _ & Hq).
  apply (f_equal list_ascii_of_string) in H.
  rewrite !list_ascii_of_string_app in H. cbn [list_ascii_of_string app] in H.
  apply dash_split in H as [Hk Hn]; [|done..].
  split; [by apply list_ascii_of_string_inj|].
  by apply show_N_inj, list_ascii_of_string_inj.
Qed.

Lemma make_key_injective_witness :
  make_key projectBT <> make_key projectOPS /\
  make_key projectBT <> make_key (with_nextIssueSeq 4 projectBT).
Proof.
  split; intros H.
  - destruct (make_key_injective projectBT projectOPS eq_refl eq_refl H)
      as [Hk _]. discriminate.
  - destruct (make_key_injective projectBT (with_nextIssueSeq 4 projectBT)
                eq_refl eq_refl H) as [_ Hn]. discriminate.
Defined.

(** ** Spellings of an ObjectId *)

Lemma hex_chars a :
  is_hex (Js.to_lower a) = is_hex a /\ is_hex (Js.to_upper a) = is_hex a /\
  Js.to_lower (Js.to_lower a) = Js.to_lower a /\
  Js.to_lower (Js.to_upper a) = Js.to_lower a.
Proof. destruct a as [[] [] [] [] [] [] [] []]; vm_compute; done. Qed.

Lemma length_string_of_list_ascii l :
  String.length (string_of_list_ascii l) = length l.
Proof. induction l as [|a l IH]; [done|]. simpl. by rewrite IH. Qed.

Lemma length_list_ascii_of_string s :
  length (list_ascii_of_string s) = String.length s.
Proof. induction s as [|a s IH]; [done|]. simpl. by rewrite IH. Qed.

Lemma isValidId_map_string f s :
  (forall a, is_hex (f a) = is_hex a) ->
  isValidId (Js.map_string f s) = isValidId s.
Proof.
  intros Hf. unfold isValidId, Js.map_string.
  rewrite length_string_of_list_ascii, length_fmap, length_list_ascii_of_string,
    list_ascii_of_string_of_list_ascii.
  f_equal. induction (list_ascii_of_string s) as [|a l IH]; [done|].
  cbn [fmap list_fmap forallb]. by rewrite Hf, <- IH.
Qed.

Lemma map_string_compose f g s :
  Js.map_string f (Js.map_string g s)
  = Js.map_string (fun a => f (g a)) s.
Proof.
  unfold Js.map_string. rewrite list_ascii_of_string_of_list_ascii.
  by rewrite <- list_fmap_compose.
Qed.

Lemma map_string_ext f g s :
  (forall a, f a = g a) -> Js.map_string f s = Js.map_string g s.
Proof.
  intros H. unfold Js.map_string. f_equal. by apply list_fmap_ext.
Qed.

(** X23: an ObjectId has one canonical spelling and is read in any letter
    case.  Rendering a parsed id gives a valid id string that parses back to
    the same ObjectId, and an id string in upper case denotes the same
    ObjectId as the string itself although the two strings may differ. *)
Theorem ObjectId_spellings s :
  isValidId s = true ->
  isValidId (String_ (createFromHexString s)) = true /\
  castObjectId (String_ (createFromHexString s)) = Some (createFromHexString s) /\
  isValidId (Js.toUpperCase s) = true /\
  castObjectId (Js.toUpperCase s) = castObjectId s.
Proof.
  intros Hv. unfold String_, createFromHexString. cbn [hex].
  assert (Hlow : isValidId (Js.map_string Js.to_lower s) = true)
    by (rewrite isValidId_map_string; [done | intros a; apply hex_chars]).
  assert (Hupp : isValidId (Js.toUpperCase s) = true)
    by (unfold Js.toUpperCase; rewrite isValidId_map_string;
        [done | intros a; apply hex_chars]).
  split; [done|]. split; [|split; [done|]].
  - rewrite (castObjectId_valid _ Hlow). unfold createFromHexString.
    rewrite map_string_compose. do 2 f_equal. apply map_string_ext.
    intros a. apply hex_chars.
  - rewrite (castObjectId_valid _ Hupp), (castObjectId_valid _ Hv).
    unfold createFromHexString, Js.toUpperCase.
    rewrite map_string_compose. do 2 f_equal. apply map_string_ext.
    intros a. apply hex_chars.
Qed.

Lemma ObjectId_spellings_witness :
  castObjectId (Js.toUpperCase id_lead) = Some (Oid id_lead) /\
  Js.toUpperCase id_lead <> id_lead /\
  castObjectId (String_ (createFromHexString id_lead_upper))
  = Some (Oid id_lead).
Proof.
  destruct (ObjectId_spellings id_lead eq_refl) as (_ & _ & _ & Hup).
  destruct (ObjectId_spellings id_lead_upper eq_refl) as (_ & Hback & _).
  split; [rewrite Hup; reflexivity|]. split; [discriminate|].
  rewrite Hback. reflexivity.
Defined.

(** ** What the comment routes leave alone *)

Lemma updateComment_cases req st :
  (updateComment req st).1 = st
  \/ exists payload, (updateComment req st).2 = Send 200 payload.
Proof.
  unfold updateComment, Comment_save.
  repeat case_match; simplify_eq; cbn [fst snd]; eauto.
Qed.

(** X28: the comment routes check before they write.  Whenever
    [POST /issues/:id/comments] answers anything but 201,
    [PATCH /comments/:id] anything but 200, or [DELETE /comments/:id]
    anything but 204, neither a comment nor a counter has changed. *)
Theorem comment_rejections_write_nothing st :
  Store_wf st ->
  (forall newId now req,
     (forall c, (POST_issue_comments newId now req st).2
                <> Send 201 (JComment c)) ->
     (POST_issue_comments newId now req st).1 = st) /\
  (forall req,
     (forall payload, (PATCH_comment req st).2 <> Send 200 payload) ->
     (PATCH_comment req st).1 = st) /\
  (forall req,
     (DELETE_comment req st).2 <> Send 204 JEmpty ->
     (DELETE_comment req st).1 = st).
Proof.
  intros Hwf. split; [|split].
  - intros newId now req Hno.
    destruct (POST_issue_comments_spec newId now req st)
      as [(r & -> & _) | (c & Heq)]; [done|].
    destruct (Hno c). by rewrite Heq.
  - intros req Hno. revert Hno. unfold PATCH_comment.
    destruct (comment_route_cases updateComment req st Hwf)
      as [H|(req' & c & i & _ & _ & _ & _ & ->)]; [done|].
    intros Hno. destruct (updateComment_cases req' st) as [H|[payload H]];
      [done | by destruct (Hno payload)].
  - intros req Hno.
    destruct (DELETE_comment_spec req st Hwf)
      as [(code & msg & -> & _) | [(c & _ & _ & Heq) | (c & _ & _ & Heq)]];
      [done | |]; destruct Hno; by rewrite Heq.
Qed.

Lemma comment_rejections_write_nothing_witness :
  (POST_issue_comments (Oid id_new) 2000
     (request id_dev id_issue1 (commentBody "   " None)) sampleStore).1
  = sampleStore /\
  (PATCH_comment (request id_dev id_cA (commentBody "mine now" None))
                 sampleStore).1 = sampleStore /\
  (DELETE_comment (request id_outsider id_cB emptyBody) sampleStore).1
  = sampleStore.
Proof.
  destruct (comment_rejections_write_nothing sampleStore
              ltac:(apply Store_wfb_spec; vm_compute; reflexivity))
    as (Hpost & Hpatch & Hdel).
  split; [|split].
  - apply Hpost. intros c. vm_compute. discriminate.
  - apply Hpatch. intros payload. vm_compute. discriminate.
  - apply Hdel. vm_compute. discriminate.
Defined.

